(** * TALMID: the roster front end (data model, aggregator, renderer,
      loader and navigation helper), embedded from the JavaScript sources.

    Three variants of [app.js] coexist in the repository:
    - the plain variant (no client-side cache),
    - the session-cache variant with a 90 s TTL, a fetch watchdog and a
      cache-bust token,
    - the two-key session-cache variant (no TTL).
    The render code of the plain and of the two-key variant is the same
    text; the TTL variant differs in the markup it writes and builds the
    lists in a document fragment.

    The aggregator and the renderer are stated on the two documents as
    the data model types them, the sequences being optional because the
    code guards each of them with [|| []].  The loader passes the
    documents on as it parsed them and is stated on untyped JSON.  The
    page is the set of elements the code looks up, keyed by selector;
    the session storage, the network and the clock are explicit.  A
    render function returns or throws, and in both cases leaves a page:
    the one operation in it that can throw on the typed documents is
    [encodeURIComponent]. *)

From Stdlib Require Import String Ascii List ZArith Lia.
From Stdlib Require Import DecimalString DecimalNat DecimalFacts.
From stdpp Require Import base option list gmap strings.

Local Open Scope string_scope.
Local Open Scope list_scope.

(** ** JavaScript values used by the front end

    A JavaScript string is a sequence of UTF-16 code units.  Here it is
    the sequence of the bytes of its UTF-8 encoding, which is how the
    Hebrew literals of the sources read in this file.  A surrogate
    without its partner, which UTF-8 proper does not encode, is the
    three bytes that its code point would have: the first is 0xED and
    the second is 0xA0 or above.  Two strings are [===] exactly when
    their bytes are equal. *)

(** [x || []] on a field that holds an array or is absent. *)
Definition orEmpty {A : Type} (field : option (list A)) : list A :=
  match field with
  | Some xs => xs
  | None => []
  end.

(** The double-quote character, for markup such as [<span class="num">]. *)
Definition dq : string := String (ascii_of_nat 34) EmptyString.

(** [String(n)] and [`${n}`] for a non-negative integer. *)
Definition string_of_nat (n : nat) : string :=
  NilEmpty.string_of_uint (Nat.to_uint n).

(** The decimal digits of an integer, with its sign. *)
Definition string_of_Z (z : Z) : string :=
  NilEmpty.string_of_int (Z.to_int z).

(** [s.startsWith(p)] *)
Definition startsWith (p s : string) : bool := String.prefix p s.

(** [s.endsWith(p)] *)
Definition endsWith (p s : string) : bool :=
  let n := String.length s in
  let k := String.length p in
  (k <=? n)%nat && String.eqb (String.substring (n - k) k s) p.

(** [s.isWellFormed()]: no surrogate without its partner. *)
Fixpoint isWellFormed (s : string) : bool :=
  match s with
  | EmptyString => true
  | String c rest =>
      match rest with
      | String d _ =>
          if (nat_of_ascii c =? 237)%nat && (160 <=? nat_of_ascii d)%nat then false
          else isWellFormed rest
      | EmptyString => true
      end
  end.

(** What a [throw] or a rejected promise carries. *)
Inductive Exn :=
| JsError (message : string)   (* new Error(message) *)
| SyntaxError                  (* JSON.parse / res.json() on a malformed text *)
| FetchRejected                (* fetch rejected: network failure, or abort by the watchdog *)
| DOMException (name : string) (* thrown by the session storage *)
| URIError.                    (* encodeURIComponent on a string that is not well formed *)

Inductive Result (A : Type) :=
| Ok (a : A)
| Throw (e : Exn).
Arguments Ok {A} a.
Arguments Throw {A} e.

(** [for (const x of xs) body]: the state after the last iteration that
    completed, and the exception that ended the loop, if one did. *)
Fixpoint forOf {A S : Type} (body : S -> A -> Result S) (xs : list A) (s : S)
  : S * option Exn :=
  match xs with
  | [] => (s, None)
  | x :: rest =>
      match body s x with
      | Ok s' => forOf body rest s'
      | Throw e => (s, Some e)
      end
  end.

(** [xs.map(f)] for a callback that may throw. *)
Fixpoint mapOrThrow {A B : Type} (f : A -> Result B) (xs : list A) : Result (list B) :=
  match xs with
  | [] => Ok []
  | x :: rest =>
      match f x with
      | Throw e => Throw e
      | Ok y =>
          match mapOrThrow f rest with
          | Throw e => Throw e
          | Ok ys => Ok (y :: ys)
          end
      end
  end.

(** ** Data model: the two JSON documents *)

Record Config := mkConfig {
  title : string;
  subtitle : string;
  managedBy : string
}.

(** A group of a grade; [students] is absent when the field is missing. *)
Record Group := mkGroup {
  id : string;
  name : string;
  teacher : string;
  students : option (list string)
}.

Record Grade := mkGrade {
  key : string;
  label : string;
  groups : option (list Group)
}.

Record Data := mkData {
  grades : option (list Grade)
}.

(** ** Aggregator *)

(** [(grp.students || []).length] *)
Definition groupSize (grp : Group) : nat :=
  length (orEmpty (students grp)).

(** [(grade.groups || []).reduce((acc, grp) => acc + (grp.students || []).length, 0)] *)
Definition sumStudentsInGrade (grade : Grade) : nat :=
  fold_left (fun acc grp => acc + length (orEmpty (students grp)))
            (orEmpty (groups grade)) 0.

(** [(data.grades || []).reduce((acc, grade) => acc + sumStudentsInGrade(grade), 0)] *)
Definition sumAllStudents (data : Data) : nat :=
  fold_left (fun acc grade => acc + sumStudentsInGrade grade)
            (orEmpty (grades data)) 0.

(** [Array.prototype.find]: the first element satisfying the predicate. *)
Fixpoint js_find {A : Type} (p : A -> bool) (xs : list A) : option A :=
  match xs with
  | [] => None
  | x :: rest => if p x then Some x else js_find p rest
  end.

(** [(data.grades || []).find((g) => g.key === gradeKey) || null] *)
Definition findGrade (data : Data) (gradeKey : string) : option Grade :=
  js_find (fun g => String.eqb (key g) gradeKey) (orEmpty (grades data)).

(** [(grade.groups || []).find((gr) => gr.id === groupId) || null] *)
Definition findGroup (grade : Grade) (groupId : string) : option Group :=
  js_find (fun gr => String.eqb (id gr) groupId) (orEmpty (groups grade)).

(** ** The page

    Elements are addressed by the selector that [document.querySelector]
    finds them with; a selector that is not in the map finds nothing
    ([null]).  What an element contains is a list of child nodes:
    [textContent = s] leaves one text node (none for the empty string),
    [innerHTML = s] leaves the markup [s] (kept as source text), and
    [appendChild] adds a node at the end.

    The elements that a selector finds are those of the page as it was
    served: markup that the code writes adds none to them.  This is
    exact for the markup of the code itself, which creates [span]
    elements without an id, and for data that is plain text.  The TTL
    variant writes the label of a grade and the name of a group as
    markup; the properties below that look at an element which that
    variant finds after such a write are stated for labels and names
    without a tag ([textOnly]). *)

#[warnings="-register-all"]
Inductive Node :=
| Text (s : string)
| Html (s : string)
| El (tag className : string) (attrs : list (string * string)) (children : list Node).

Record Element := mkElement {
  hidden : bool;
  href : string;
  kids : list Node
}.

Record Page := mkPage {
  elements : gmap string Element;
  dataGrade : option string;       (* body[data-grade] *)
  prefetchLinks : list string;     (* head link[rel=prefetch], by href, in document order *)
  docTitle : string                (* document.title *)
}.

(** JavaScript built-ins whose result the code uses as it is. *)
Record JsEnv := mkJsEnv {
  encodeURIComponent : string -> string;   (* what it returns, on a well-formed string *)
  resolveHref : string -> string;       (* what the [a.href] getter returns for an href attribute *)
  trim : string -> string;              (* String.prototype.trim *)
  leadingSpaces : string -> nat;        (* length of the longest prefix matched by \s* *)
  hasLineTerminator : string -> bool    (* some character is not matched by [.] *)
}.

Inductive Variant := Plain | TtlCache | TwoKey.

(** How a call of a render function ends, and the page it leaves. *)
Inductive Rendered :=
| Returns (p : Page)
| Throws (e : Exn) (p : Page).

Definition pageOf (r : Rendered) : Page :=
  match r with
  | Returns p => p
  | Throws _ p => p
  end.

Definition textNodes (s : string) : list Node :=
  if String.eqb s "" then [] else [Text s].

Definition htmlNodes (s : string) : list Node :=
  if String.eqb s "" then [] else [Html s].

Definition qs (sel : string) (p : Page) : option Element := elements p !! sel.

Definition setElement (sel : string) (e : Element) (p : Page) : Page :=
  mkPage (<[sel := e]> (elements p)) (dataGrade p) (prefetchLinks p) (docTitle p).

(** An assignment to a property of the element found by [sel]; nothing
    happens when there is no such element. *)
Definition updateElement (sel : string) (f : Element -> Element) (p : Page) : Page :=
  match qs sel p with
  | Some el => setElement sel (f el) p
  | None => p
  end.

(** [el.textContent = s] *)
Definition setTextContent (sel s : string) : Page -> Page :=
  updateElement sel (fun el => mkElement (hidden el) (href el) (textNodes s)).

(** [el.innerHTML = s] *)
Definition setInnerHTML (sel s : string) : Page -> Page :=
  updateElement sel (fun el => mkElement (hidden el) (href el) (htmlNodes s)).

(** [el.appendChild(n)] *)
Definition appendChild (sel : string) (n : Node) : Page -> Page :=
  updateElement sel (fun el => mkElement (hidden el) (href el) (kids el ++ [n])).

(** [el.appendChild(frag)]: the children of the fragment move into [el]. *)
Definition appendFragment (sel : string) (frag : list Node) : Page -> Page :=
  updateElement sel (fun el => mkElement (hidden el) (href el) (kids el ++ frag)).

(** [el.href = url] *)
Definition setHref (sel url : string) : Page -> Page :=
  updateElement sel (fun el => mkElement (hidden el) url (kids el)).

Definition setGradeAccent (gradeKey : string) (p : Page) : Page :=
  mkPage (elements p) (Some gradeKey) (prefetchLinks p) (docTitle p).

Definition setTitle (t : string) (p : Page) : Page :=
  mkPage (elements p) (dataGrade p) (prefetchLinks p) t.

(** [safeText(qs(sel), text)] *)
Definition safeText (sel text : string) (p : Page) : Page :=
  setTextContent sel text p.

Definition showError (message : string) : Page -> Page :=
  updateElement "#error" (fun err => mkElement false (href err) (textNodes message)).

Definition hideError : Page -> Page :=
  updateElement "#error" (fun err => mkElement true (href err) (textNodes "")).

(** The loop of [prefetch]: a link is added for every URL that is not
    empty and not yet among the links. *)
Definition prefetchStep (links : list string) (url : string) : list string :=
  if String.eqb url "" || existsb (String.eqb url) links then links
  else links ++ [url].

Definition prefetch (urls : list string) (p : Page) : Page :=
  mkPage (elements p) (dataGrade p)
         (fold_left prefetchStep urls (prefetchLinks p)) (docTitle p).

Definition createEl (tag className : string) (text : option string) : Node :=
  El tag className []
     match text with
     | Some t => textNodes t
     | None => []
     end.

(** [<span class="num">n</span>] *)
Definition numSpan (n : nat) : string :=
  "<span class=" +:+ dq +:+ "num" +:+ dq +:+ ">" +:+ string_of_nat n +:+ "</span>".

Definition isAsciiAlnum (c : ascii) : bool :=
  let n := nat_of_ascii c in
  ((65 <=? n) && (n <=? 90) || (97 <=? n) && (n <=? 122) || (48 <=? n) && (n <=? 57))%nat.

Definition gradeKeys : list string := ["z"; "h"; "t"].

Section Render.
Variable env : JsEnv.
Variable v : Variant.

(** [encodeURIComponent(s)]: a URIError on a string that is not well
    formed. *)
Definition encodeComponent (s : string) : Result string :=
  if isWellFormed s then Ok (encodeURIComponent env s) else Throw URIError.

(** [/^[A-Za-z0-9]/.test(s) ? `ב ${s}` : `ב${s}`] after trimming *)
Definition withBPrefix (label : string) : string :=
  let s := trim env label in
  match s with
  | EmptyString => ""
  | String c _ => if isAsciiAlnum c then "ב " +:+ s else "ב" +:+ s
  end.

(** [s.match(re)] for the pattern: start, one of the letters ז ח ט
    (captured), white space (one or more), any characters up to the
    end (captured).  The result is the second capture when the match
    succeeds. *)
Definition matchGradeLetter (s : string) : option string :=
  if startsWith "ז" s || startsWith "ח" s || startsWith "ט" s then
    let after := String.substring 2 (String.length s - 2) s in
    let n := leadingSpaces env after in
    let rest := String.substring n (String.length after - n) after in
    if (n =? 0)%nat || hasLineTerminator env rest then None else Some rest
  else None.

Definition normalizeGroupLabelForCount (name : string) : string :=
  let s := trim env name in
  if String.eqb s "" then s
  else
    match matchGradeLetter s with
    | None => s
    | Some m2 =>
        let rest := trim env m2 in
        if String.eqb rest "" then s
        else if String.eqb rest "מדעית" then "הקבצה מדעית"
        else rest
    end.

(** [`grade.html?g=${encodeURIComponent(k)}`] *)
Definition gradeUrl (k : string) : Result string :=
  match encodeComponent k with
  | Throw e => Throw e
  | Ok g => Ok ("grade.html?g=" +:+ g)
  end.

(** [`group.html?g=${encodeURIComponent(gradeKey)}&group=${encodeURIComponent(groupId)}`] *)
Definition groupUrl (gradeKey groupId : string) : Result string :=
  match encodeComponent gradeKey with
  | Throw e => Throw e
  | Ok g =>
      match encodeComponent groupId with
      | Throw e => Throw e
      | Ok i => Ok ("group.html?g=" +:+ g +:+ "&group=" +:+ i)
      end
  end.

Definition schoolTotalHtml (totalSchool : nat) : string :=
  match v with
  | TtlCache => numSpan totalSchool +:+ " תלמידים לומדים בחטיבת הביניים"
  | _ => "סה״כ תלמידים בבית הספר: " +:+ numSpan totalSchool
  end.

Definition gradeMetaHtml (count : nat) (label : string) : string :=
  match v with
  | TtlCache => numSpan count +:+ " תלמידים לומדים ב" +:+ label
  | _ => "מספר תלמידים בשכבה: " +:+ numSpan count
  end.

Definition gradeSubtitleHtml (total : nat) (label : string) : string :=
  match v with
  | TtlCache => numSpan total +:+ " תלמידים לומדים " +:+ withBPrefix label
  | _ => "סה״כ תלמידים בשכבה: " +:+ numSpan total
  end.

Definition groupCountHtml (c : nat) (name : string) : string :=
  match v with
  | TtlCache =>
      numSpan c +:+ " תלמידים לומדים " +:+ withBPrefix (normalizeGroupLabelForCount name)
  | _ => "תלמידים בהקבצה: " +:+ numSpan c
  end.

Definition groupTotalHtml (n : nat) : string :=
  "סה״כ תלמידים בהקבצה: " +:+ numSpan n.

(** The body of the loop of [renderHome]: the anchor built for one key.
    The assignment to [a.href] comes before anything is attached. *)
Definition gradeButton (data : Data) (key : string) : Result Node :=
  let grade := findGrade data key in
  let label := match grade with Some g => label g | None => "שכבה" end in
  let count := match grade with Some g => sumStudentsInGrade g | None => 0 end in
  match gradeUrl key with
  | Throw e => Throw e
  | Ok url =>
      let t := createEl "div" "btn__title" (Some label) in
      let meta := El "div" "btn__meta" [] (htmlNodes (gradeMetaHtml count label)) in
      Ok (El "a" "btn"
             match v with
             | TtlCache => [("data-grade", key); ("href", url)]
             | _ => [("href", url)]
             end
             [t; meta])
  end.

Definition renderHome (cfg : Config) (data : Data) (p : Page) : Rendered :=
  let p := setGradeAccent "" p in
  let p := safeText "#cfg-title" (title cfg) p in
  let p := safeText "#cfg-subtitle" (subtitle cfg) p in
  let p := safeText "#cfg-managed" (managedBy cfg) p in
  match qs "#grade-buttons" p with
  | None => Returns p
  | Some _ =>
      let p := setInnerHTML "#grade-buttons" "" p in
      let totalSchool := sumAllStudents data in
      let p := setInnerHTML "#school-total" (schoolTotalHtml totalSchool) p in
      match mapOrThrow gradeUrl gradeKeys with
      | Throw e => Throws e p
      | Ok urls =>
          let p := prefetch urls p in
          match v with
          | TtlCache =>
              match
                forOf (fun frag key =>
                         match gradeButton data key with
                         | Throw e => Throw e
                         | Ok a => Ok (frag ++ [a])
                         end)
                      gradeKeys []
              with
              | (_, Some e) => Throws e p
              | (frag, None) => Returns (appendFragment "#grade-buttons" frag p)
              end
          | _ =>
              match
                forOf (fun p key =>
                         match gradeButton data key with
                         | Throw e => Throw e
                         | Ok a => Ok (appendChild "#grade-buttons" a p)
                         end)
                      gradeKeys p
              with
              | (p, Some e) => Throws e p
              | (p, None) => Returns p
              end
          end
      end
  end.

(** The anchor built for one group in the loop of [renderGrade], once
    its href is set. *)
Definition groupCard (url : string) (grp : Group) : Node :=
  let pName := createEl "p" "groupCard__name" (Some (name grp)) in
  let pTeacher := createEl "p" "groupCard__teacher" (Some (teacher grp)) in
  let c := length (orEmpty (students grp)) in
  let countLine := El "p" "groupCard__count" [] (htmlNodes (groupCountHtml c (name grp))) in
  El "a" "groupCard" [("href", url)] [pName; pTeacher; countLine].

Definition renderGrade (cfg : Config) (data : Data) (gradeKey : string) (p : Page) : Rendered :=
  let p := setGradeAccent gradeKey p in
  match findGrade data gradeKey with
  | None => Returns (showError "שכבה לא נמצאה" p)
  | Some grade =>
      let total := sumStudentsInGrade grade in
      let p := safeText "#grade-title" (label grade) p in
      let p := setInnerHTML "#grade-subtitle" (gradeSubtitleHtml total (label grade)) p in
      match qs "#groups" p with
      | None => Returns p
      | Some _ =>
          let p := setInnerHTML "#groups" "" p in
          let '(p, groupPrefetch, thrown) :=
            match v with
            | TtlCache =>
                let '(frag, urls, thrown) :=
                  forOf
                    (fun '(frag, urls) grp =>
                       match groupUrl gradeKey (id grp) with
                       | Throw e => Throw e
                       | Ok url => Ok (frag ++ [groupCard url grp], urls ++ [resolveHref env url])
                       end)
                    (orEmpty (groups grade)) ([], []) in
                match thrown with
                | Some e => (p, urls, Some e)
                | None => (appendFragment "#groups" frag p, urls, None)
                end
            | _ =>
                forOf
                  (fun '(p, urls) grp =>
                     match groupUrl gradeKey (id grp) with
                     | Throw e => Throw e
                     | Ok url =>
                         Ok (appendChild "#groups" (groupCard url grp) p,
                             urls ++ [resolveHref env url])
                     end)
                  (orEmpty (groups grade)) (p, [])
            end in
          match thrown with
          | Some e => Throws e p
          | None =>
              let p := prefetch groupPrefetch p in
              let p := setHref "#back" "index.html" p in
              Returns (setTitle (title cfg) p)
          end
      end
  end.

(** The row built for [students[i]] in the loop of [renderGroup]. *)
Definition studentRow (i : nat) (student : string) : Node :=
  let tdNum := createEl "td" "rowNum" (Some (string_of_nat (i + 1))) in
  let tdName := createEl "td" "" (Some student) in
  El "tr" "" [] [tdNum; tdName].

Definition renderGroup (cfg : Config) (data : Data) (gradeKey groupId : string) (p : Page)
  : Rendered :=
  let p := setGradeAccent gradeKey p in
  match findGrade data gradeKey with
  | None => Returns (showError "שכבה לא נמצאה" p)
  | Some grade =>
      match findGroup grade groupId with
      | None => Returns (showError "הקבצה לא נמצאה" p)
      | Some grp =>
          let p := safeText "#group-title" (name grp) p in
          let p := safeText "#group-subtitle" (teacher grp) p in
          match qs "#students" p with
          | None => Returns p
          | Some _ =>
              let p := setInnerHTML "#students" "" p in
              let students := orEmpty (students grp) in
              let rows := imap studentRow students in
              let p :=
                match v with
                | TtlCache => appendFragment "#students" rows p
                | _ => fold_left (fun p tr => appendChild "#students" tr p) rows p
                end in
              let p := setInnerHTML "#group-total" (groupTotalHtml (length students)) p in
              match qs "#back" p with
              | None => Returns (setTitle (title cfg) p)
              | Some _ =>
                  match gradeUrl gradeKey with
                  | Throw e => Throws e p
                  | Ok url => Returns (setTitle (title cfg) (setHref "#back" url p))
                  end
              end
          end
      end
  end.

End Render.

(** ** The data fetcher *)

(** Parsed JSON.  Numbers are integers here: the only numbers the loader
    looks at are millisecond time stamps written from [Date.now()]. *)
#[warnings="-register-all"]
Inductive JSON :=
| JNull
| JBool (b : bool)
| JNum (z : Z)
| JStr (s : string)
| JArr (items : list JSON)
| JObj (props : gmap string JSON).

(** Truthiness, as [&&], [!] and [if] see a value. *)
Definition truthy (j : JSON) : bool :=
  match j with
  | JNull => false
  | JBool b => b
  | JNum z => negb (z =? 0)%Z
  | JStr s => negb (String.eqb s "")
  | JArr _ | JObj _ => true
  end.

(** [j.k] for one of the property names the loader reads ([ts], [v],
    [cfg], [data]); [None] is [undefined]. *)
Definition getProp (j : JSON) (k : string) : option JSON :=
  match j with
  | JObj props => props !! k
  | _ => None
  end.

(** [typeof j.k === "number"], with the number *)
Definition numberProp (j : JSON) (k : string) : option Z :=
  match getProp j k with
  | Some (JNum z) => Some z
  | _ => None
  end.

(** [j.k] used as a condition *)
Definition truthyProp (j : JSON) (k : string) : bool :=
  match getProp j k with
  | Some x => truthy x
  | None => false
  end.

(** [window.sessionStorage].  [accessible] is false when touching the
    storage throws (disabled storage); [hasRoom] tells of which contents
    the storage has room for: [setItem] throws when it has none for the
    contents that the write would leave (quota, private mode). *)
Record Storage := mkStorage {
  items : gmap string string;
  accessible : bool;
  hasRoom : gmap string string -> bool
}.

Record Request := mkRequest {
  url : string;
  cacheMode : option string
}.

Record Response := mkResponse {
  ok : bool;
  status : Z;
  body : string
}.

(** What the network does with a request: it fails, or it answers after
    [latency] milliseconds. *)
Inductive Outcome :=
| Fails
| Answers (latency : Z) (r : Response).

Record LoadEnv := mkLoadEnv {
  JSON_parse : string -> option JSON;   (* [None]: throws SyntaxError *)
  JSON_stringify : JSON -> string;
  network : Request -> Outcome;
  Number_toString : Z -> string         (* [`${z}`]: a number written into a template *)
}.

(** The readings of [Date.now()] that one load makes: at the start of
    [loadAll], and in [getSessionBust]. *)
Record Clock := mkClock {
  loadTime : Z;
  bustTime : Z
}.

Definition CONFIG_URL : string := "data/config.json".
Definition DATA_URL : string := "data/data.json".

(** The value and the effects of one call of [loadAll]. *)
Record Loaded := mkLoaded {
  result : Result (JSON * JSON);
  storage : Storage;
  requests : list Request      (* the network requests issued, in order *)
}.

Section Fetching.
Variable env : LoadEnv.

(** [await fetch(url, options)] *)
Definition fetch (req : Request) : Result Response :=
  match network env req with
  | Fails => Throw FetchRejected
  | Answers _ r => Ok r
  end.

(** [await res.json()] *)
Definition json (res : Response) : Result JSON :=
  match JSON_parse env (body res) with
  | Some j => Ok j
  | None => Throw SyntaxError
  end.

(** [await Promise.all([a, b])]: the pair, or the rejection of the one
    that rejects. *)
Definition promiseAll2 {A B : Type} (a : Result A) (b : Result B) : Result (A * B) :=
  match a, b with
  | Ok x, Ok y => Ok (x, y)
  | Throw e, _ => Throw e
  | _, Throw e => Throw e
  end.

(** [sessionStorage.getItem(key)]; [null] is [None]. *)
Definition getItem (key : string) (st : Storage) : Result (option string) :=
  if accessible st then Ok (items st !! key) else Throw (DOMException "SecurityError").

(** [sessionStorage.setItem(key, value)] *)
Definition setItem (key value : string) (st : Storage) : Result Storage :=
  let written := <[key := value]> (items st) in
  if accessible st && hasRoom st written
  then Ok (mkStorage written (accessible st) (hasRoom st))
  else Throw (DOMException (if accessible st then "QuotaExceededError" else "SecurityError")).

End Fetching.

Module PlainLoader.
Section Loader.
Variable env : LoadEnv.

Definition loadAll (st : Storage) : Loaded :=
  let reqCfg := mkRequest CONFIG_URL None in
  let reqData := mkRequest DATA_URL None in
  let sent := [reqCfg; reqData] in
  match promiseAll2 (fetch env reqCfg) (fetch env reqData) with
  | Throw e => mkLoaded (Throw e) st sent
  | Ok (cfgRes, dataRes) =>
      if negb (ok cfgRes) || negb (ok dataRes) then
        mkLoaded (Throw (JsError "fetch failed")) st sent
      else
        match json env cfgRes with
        | Throw e => mkLoaded (Throw e) st sent
        | Ok cfg =>
            match json env dataRes with
            | Throw e => mkLoaded (Throw e) st sent
            | Ok data => mkLoaded (Ok (cfg, data)) st sent
            end
        end
  end.

End Loader.
End PlainLoader.

Module TtlLoader.

Definition FETCH_TIMEOUT_MS : Z := 12000.
Definition SESSION_CACHE_KEY : string := "talmid_json_cache_v1".
Definition SESSION_CACHE_TTL_MS : Z := 90 * 1000.
Definition SESSION_BUST_KEY : string := "talmid_bust_v1".
Definition SESSION_BUST_TTL_MS : Z := 10 * 60 * 1000.

Section Loader.
Variable env : LoadEnv.

(** The parsed item, [JNull] for [null]. *)
Definition readSessionJSON (key : string) (st : Storage) : JSON :=
  match getItem key st with
  | Ok (Some raw) =>
      if String.eqb raw "" then JNull
      else match JSON_parse env raw with
           | Some j => j
           | None => JNull
           end
  | Ok None => JNull
  | Throw _ => JNull
  end.

Definition writeSessionJSON (key : string) (value : JSON) (st : Storage) : Storage :=
  match setItem key (JSON_stringify env value) st with
  | Ok st' => st'
  | Throw _ => st
  end.

Definition getSessionBust (now : Z) (st : Storage) : Z * Storage :=
  let cached := readSessionJSON SESSION_BUST_KEY st in
  let fresh :=
    (now, writeSessionJSON SESSION_BUST_KEY
            (JObj (<["v" := JNum now]> (<["ts" := JNum now]> ∅))) st) in
  if truthy cached then
    match numberProp cached "v", numberProp cached "ts" with
    | Some v, Some ts =>
        if (now - ts <=? SESSION_BUST_TTL_MS)%Z then (v, st) else fresh
    | _, _ => fresh
    end
  else fresh.

(** The watchdog aborts a request that has not answered in time. *)
Definition fetchWithTimeout (req : Request) : Result Response :=
  match network env req with
  | Fails => Throw FetchRejected
  | Answers latency r =>
      if (latency <=? FETCH_TIMEOUT_MS)%Z then Ok r else Throw FetchRejected
  end.

(** The condition of the first [if] of [loadAll], with the pair it returns. *)
Definition cachedPair (now : Z) (cached : JSON) : option (JSON * JSON) :=
  if truthy cached then
    match numberProp cached "ts" with
    | Some ts =>
        if truthyProp cached "cfg" && truthyProp cached "data"
           && (now - ts <=? SESSION_CACHE_TTL_MS)%Z
        then
          match getProp cached "cfg", getProp cached "data" with
          | Some cfg, Some data => Some (cfg, data)
          | _, _ => None
          end
        else None
    | None => None
    end
  else None.

Definition loadAll (clock : Clock) (st : Storage) : Loaded :=
  let now := loadTime clock in
  let cached := readSessionJSON SESSION_CACHE_KEY st in
  match cachedPair now cached with
  | Some hit => mkLoaded (Ok hit) st []
  | None =>
      let '(token, st) := getSessionBust (bustTime clock) st in
      let bust := "?v=" +:+ Number_toString env token in
      let reqCfg := mkRequest (CONFIG_URL +:+ bust) (Some "no-cache") in
      let reqData := mkRequest (DATA_URL +:+ bust) (Some "no-cache") in
      let sent := [reqCfg; reqData] in
      match promiseAll2 (fetchWithTimeout reqCfg) (fetchWithTimeout reqData) with
      | Throw e => mkLoaded (Throw e) st sent
      | Ok (cfgRes, dataRes) =>
          if negb (ok cfgRes) then
            mkLoaded
              (Throw (JsError ("cfg fetch failed (" +:+ Number_toString env (status cfgRes) +:+ ")")))
              st sent
          else if negb (ok dataRes) then
            mkLoaded
              (Throw (JsError ("data fetch failed (" +:+ Number_toString env (status dataRes) +:+ ")")))
              st sent
          else
            match json env cfgRes with
            | Throw _ => mkLoaded (Throw (JsError "cfg json parse failed")) st sent
            | Ok cfg =>
                match json env dataRes with
                | Throw _ => mkLoaded (Throw (JsError "data json parse failed")) st sent
                | Ok data =>
                    let entry :=
                      JObj (<["ts" := JNum now]> (<["cfg" := cfg]> (<["data" := data]> ∅))) in
                    mkLoaded (Ok (cfg, data))
                             (writeSessionJSON SESSION_CACHE_KEY entry st) sent
                end
            end
      end
  end.

End Loader.
End TtlLoader.

Module TwoKeyLoader.

Definition CACHE_CFG_KEY : string := "talmid__cfg__v1".
Definition CACHE_DATA_KEY : string := "talmid__data__v1".

Section Loader.
Variable env : LoadEnv.

(** The first [try] block of [loadAll]: the pair it returns, [None]
    when it falls through (items missing or empty, or an exception
    that the [catch] swallows). *)
Definition cachedPair (st : Storage) : option (JSON * JSON) :=
  match getItem CACHE_CFG_KEY st, getItem CACHE_DATA_KEY st with
  | Ok (Some cachedCfg), Ok (Some cachedData) =>
      if negb (String.eqb cachedCfg "") && negb (String.eqb cachedData "") then
        match JSON_parse env cachedCfg, JSON_parse env cachedData with
        | Some cfg, Some data => Some (cfg, data)
        | _, _ => None
        end
      else None
  | _, _ => None
  end.

(** The last [try] block of [loadAll]: two writes, the first exception
    ends the block. *)
Definition storePair (cfg data : JSON) (st : Storage) : Storage :=
  match setItem CACHE_CFG_KEY (JSON_stringify env cfg) st with
  | Throw _ => st
  | Ok st1 =>
      match setItem CACHE_DATA_KEY (JSON_stringify env data) st1 with
      | Throw _ => st1
      | Ok st2 => st2
      end
  end.

Definition loadAll (st : Storage) : Loaded :=
  match cachedPair st with
  | Some hit => mkLoaded (Ok hit) st []
  | None =>
      let reqCfg := mkRequest CONFIG_URL (Some "force-cache") in
      let reqData := mkRequest DATA_URL (Some "force-cache") in
      let sent := [reqCfg; reqData] in
      match promiseAll2 (fetch env reqCfg) (fetch env reqData) with
      | Throw e => mkLoaded (Throw e) st sent
      | Ok (cfgRes, dataRes) =>
          if negb (ok cfgRes) || negb (ok dataRes) then
            mkLoaded (Throw (JsError "fetch failed")) st sent
          else
            match json env cfgRes with
            | Throw e => mkLoaded (Throw e) st sent
            | Ok cfg =>
                match json env dataRes with
                | Throw e => mkLoaded (Throw e) st sent
                | Ok data => mkLoaded (Ok (cfg, data)) (storePair cfg data st) sent
                end
            end
      end
  end.

End Loader.
End TwoKeyLoader.

(** [loadAll] of each variant, with the clock and the storage it may use. *)
Definition loadAll (v : Variant) (env : LoadEnv) (clock : Clock) (st : Storage) : Loaded :=
  match v with
  | Plain => PlainLoader.loadAll env st
  | TtlCache => TtlLoader.loadAll env clock st
  | TwoKey => TwoKeyLoader.loadAll env st
  end.

(** ** The navigation helper *)

(** The anchor that [ev.target.closest("a[href]")] finds. *)
Record Anchor := mkAnchor {
  target : string;          (* a.target, empty when not set *)
  download : bool;          (* a.hasAttribute("download") *)
  hrefAttr : string         (* a.getAttribute("href") *)
}.

Record ClickEvent := mkClickEvent {
  anchor : option Anchor;
  defaultPrevented : bool;
  button : Z;
  metaKey : bool;
  ctrlKey : bool;
  shiftKey : bool;
  altKey : bool
}.

Record URL := mkURL {
  origin : string;
  pathname : string;
  urlHref : string
}.

Record Location := mkLocation {
  parseURL : string -> option URL;   (* new URL(href, window.location.href); [None]: it throws *)
  locationOrigin : string            (* window.location.origin *)
}.

(** What the listener does with a click: nothing, or [preventDefault],
    the class [is-leaving] on the body and a timer that sets
    [window.location.href] when it fires. *)
Inductive NavAction :=
| PassThrough
| Leave (delayMs : Z) (destination : string).

Definition fastNavListener (delayMs : Z) (loc : Location) (ev : ClickEvent) : NavAction :=
  match anchor ev with
  | None => PassThrough
  | Some a =>
      if defaultPrevented ev then PassThrough
      else if negb (button ev =? 0)%Z then PassThrough
      else if metaKey ev || ctrlKey ev || shiftKey ev || altKey ev then PassThrough
      else if negb (String.eqb (target a) "") && negb (String.eqb (target a) "_self") then PassThrough
      else if download a then PassThrough
      else
        let href := hrefAttr a in
        if String.eqb href "" || startsWith "#" href then PassThrough
        else
          match parseURL loc href with
          | None => PassThrough
          | Some url =>
              if negb (String.eqb (origin url) (locationOrigin loc)) then PassThrough
              else if negb (endsWith ".html" (pathname url)) then PassThrough
              else Leave delayMs (urlHref url)
          end
  end.

(** The delay of the timer in the variants that install the listener. *)
Definition navDelay (v : Variant) : option Z :=
  match v with
  | Plain => None
  | TtlCache => Some 60%Z
  | TwoKey => Some 120%Z
  end.

(** The listener that [installFastNav] registers; the plain variant
    registers none. *)
Definition installFastNav (v : Variant) (loc : Location) (ev : ClickEvent) : NavAction :=
  match navDelay v with
  | Some d => fastNavListener d loc ev
  | None => PassThrough
  end.

(** ** The entry point

    [main] runs once per page load.  The window holds, besides the page,
    what [main] and its helpers read and write: the class list of the
    body, the page marker, the query string (as the pairs that
    [URLSearchParams] makes of it), the protocol of the location, the
    click listeners, the callbacks that wait for the next animation
    frame, and the interval timers. *)

Inductive FrameCallback :=
| ReadyFrame.     (* the callback that [markReady] hands to requestAnimationFrame *)

Record Window := mkWindow {
  document : Page;
  bodyClasses : list string;
  dataPage : option string;
  search : list (string * string);
  protocol : string;
  clickListeners : list Z;           (* the delay of each fast-navigation listener *)
  frames : list FrameCallback;
  intervals : list Z                 (* the period of each timer *)
}.

(** What the home clock reads: the current date and its two renderings
    by [Intl.DateTimeFormat]. *)
Record ClockEnv := mkClockEnv {
  wallTime : Z;
  fmtTime : Z -> string;
  fmtDate : Z -> string
}.

Definition onDocument (f : Page -> Page) (w : Window) : Window :=
  mkWindow (f (document w)) (bodyClasses w) (dataPage w) (search w) (protocol w)
           (clickListeners w) (frames w) (intervals w).

Definition onBodyClasses (f : list string -> list string) (w : Window) : Window :=
  mkWindow (document w) (f (bodyClasses w)) (dataPage w) (search w) (protocol w)
           (clickListeners w) (frames w) (intervals w).

(** [classList.add(c)] *)
Definition classAdd (c : string) (classes : list string) : list string :=
  if existsb (String.eqb c) classes then classes else classes ++ [c].

(** [classList.remove(c)] *)
Definition classRemove (c : string) (classes : list string) : list string :=
  List.filter (fun x => negb (String.eqb x c)) classes.

Definition markEntering (w : Window) : Window :=
  onBodyClasses (classAdd "is-entering") w.

(** [markReady] only asks for a frame; the classes change when the frame
    comes. *)
Definition markReady (w : Window) : Window :=
  mkWindow (document w) (bodyClasses w) (dataPage w) (search w) (protocol w)
           (clickListeners w) (frames w ++ [ReadyFrame]) (intervals w).

Definition runFrame (cb : FrameCallback) (w : Window) : Window :=
  match cb with
  | ReadyFrame => onBodyClasses (fun cs => classAdd "is-ready" (classRemove "is-entering" cs)) w
  end.

(** The next animation frame: the waiting callbacks run in order. *)
Definition nextFrame (w : Window) : Window :=
  fold_left (fun w cb => runFrame cb w) (frames w)
            (mkWindow (document w) (bodyClasses w) (dataPage w) (search w) (protocol w)
                      (clickListeners w) [] (intervals w)).

(** [document.addEventListener("click", ...)] in [installFastNav]; the
    listener itself is [fastNavListener]. *)
Definition addFastNavListener (v : Variant) (w : Window) : Window :=
  match navDelay v with
  | Some d =>
      mkWindow (document w) (bodyClasses w) (dataPage w) (search w) (protocol w)
               (clickListeners w ++ [d]) (frames w) (intervals w)
  | None => w
  end.

(** [params.get(k)]: the value of the first pair with the key. *)
Definition searchGet (k : string) (w : Window) : option string :=
  snd <$> js_find (fun kv => String.eqb (fst kv) k) (search w).

(** [getParams()]: the pair of [gradeKey] and [groupId]. *)
Definition getParams (w : Window) : string * string :=
  (default "" (searchGet "g" w), default "" (searchGet "group" w)).

(** [startHomeClock()] of the TTL variant: the first tick and the timer. *)
Definition startHomeClock (cenv : ClockEnv) (w : Window) : Window :=
  match qs "#clock-time" (document w), qs "#clock-date" (document w) with
  | Some _, Some _ =>
      let w := onDocument (safeText "#clock-time" (fmtTime cenv (wallTime cenv))) w in
      let w := onDocument (safeText "#clock-date" (fmtDate cenv (wallTime cenv))) w in
      mkWindow (document w) (bodyClasses w) (dataPage w) (search w) (protocol w)
               (clickListeners w) (frames w) (intervals w ++ [1000%Z])
  | _, _ => w
  end.

Definition LOCAL_ERROR : string := "לא ניתן לטעון נתונים מקומיים. יש לפתוח דרך שרת מקומי.".
Definition RETRY_ERROR : string := "שגיאה בטעינת הנתונים. נסה לרענן את הדף.".

(** The message of the [catch] block of [main]. *)
Definition loadErrorMessage (v : Variant) (w : Window) : string :=
  match v with
  | TtlCache => if String.eqb (protocol w) "file:" then LOCAL_ERROR else RETRY_ERROR
  | _ => LOCAL_ERROR
  end.

(** [main], with the outcome of [await loadAll()] read through the data
    model.  The [try] block holds the load and the view: an exception
    of either ends in the [catch] block, on the page as the view left
    it.  The plain variant has no transition classes, no listener and
    no clock. *)
Definition main (v : Variant) (env : JsEnv) (cenv : ClockEnv)
           (loaded : Result (Config * Data)) (w : Window) : Window :=
  let ready := match v with Plain => fun w => w | _ => markReady end in
  let caught w := ready (onDocument (showError (loadErrorMessage v w)) w) in
  let w := onDocument hideError w in
  let w := match v with
           | Plain => w
           | _ => addFastNavListener v (markEntering w)
           end in
  match loaded with
  | Ok (cfg, data) =>
      let marker := default "" (dataPage w) in
      let '(gradeKey, groupId) := getParams w in
      if String.eqb marker "home" then
        match renderHome env v cfg data (document w) with
        | Throws _ p => caught (onDocument (fun _ => p) w)
        | Returns p =>
            let w := onDocument (fun _ => p) w in
            let w := match v with TtlCache => startHomeClock cenv w | _ => w end in
            ready w
        end
      else if String.eqb marker "grade" then
        if String.eqb gradeKey "" then
          ready (onDocument (showError "חסרה שכבה בכתובת") w)
        else
          match renderGrade env v cfg data gradeKey (document w) with
          | Throws _ p => caught (onDocument (fun _ => p) w)
          | Returns p => ready (onDocument (fun _ => p) w)
          end
      else if String.eqb marker "group" then
        if String.eqb gradeKey "" || String.eqb groupId "" then
          ready (onDocument (showError "חסרים פרטים בכתובת") w)
        else
          match renderGroup env v cfg data gradeKey groupId (document w) with
          | Throws _ p => caught (onDocument (fun _ => p) w)
          | Returns p => ready (onDocument (fun _ => p) w)
          end
      else
        ready (onDocument (showError "דף לא נתמך") w)
  | Throw _ => caught w
  end.

(** ** Definitions used to state the properties *)

(** The documents with every absent sequence replaced by an empty one. *)
Definition fillGroup (grp : Group) : Group :=
  mkGroup (id grp) (name grp) (teacher grp) (Some (orEmpty (students grp))).

Definition fillGrade (grade : Grade) : Grade :=
  mkGrade (key grade) (label grade) (Some (fillGroup <$> orEmpty (groups grade))).

Definition fillData (data : Data) : Data :=
  mkData (Some (fillGrade <$> orEmpty (grades data))).

(** The hrefs of the two templates, for keys that encode. *)
Definition gradeHref (env : JsEnv) (k : string) : string :=
  "grade.html?g=" +:+ encodeURIComponent env k.

Definition groupHref (env : JsEnv) (gradeKey groupId : string) : string :=
  "group.html?g=" +:+ encodeURIComponent env gradeKey
  +:+ "&group=" +:+ encodeURIComponent env groupId.

(** The card and the prefetch URL that the loop of [renderGrade] makes
    for a group, or the exception of the iteration. *)
Definition cardOf (env : JsEnv) (v : Variant) (gradeKey : string) (grp : Group)
  : Result (Node * string) :=
  match groupUrl env gradeKey (id grp) with
  | Throw e => Throw e
  | Ok url => Ok (groupCard env v url grp, resolveHref env url)
  end.

(** The results of the iterations of a loop that completed, and the
    exception of the one that did not. *)
Fixpoint completed {A B : Type} (f : A -> Result B) (xs : list A) : list B * option Exn :=
  match xs with
  | [] => ([], None)
  | x :: rest =>
      match f x with
      | Throw e => ([], Some e)
      | Ok y => let '(ys, e) := completed f rest in (y :: ys, e)
      end
  end.


(** The grade key of a call and the ids of the groups of a grade are
    well-formed strings. *)
Definition wellFormedGroups (gradeKey : string) (grade : Grade) : Prop :=
  isWellFormed gradeKey = true
  /\ forall grp, grp ∈ orEmpty (groups grade) -> isWellFormed (id grp) = true.


(** [s.includes(pat)] *)
Definition includes (pat s : string) : bool :=
  match String.index 0 pat s with
  | Some _ => true
  | None => false
  end.

(** A text without a tag: written as markup, it creates no element. *)
Definition textOnly (s : string) : bool := negb (includes "<" s).

(** The label of the grade and the names of its groups are plain text
    where the variant writes them as markup. *)
Definition plainLabels (v : Variant) (grade : Grade) : Prop :=
  v = TtlCache ->
  textOnly (label grade) = true
  /\ forall grp, grp ∈ orEmpty (groups grade) -> textOnly (name grp) = true.

(** *** The built-ins, on UTF-8 text

    The white space of [trim] and of [\s] is the same set of
    characters: tab, line feed, vertical tab, form feed, carriage
    return, space, no-break space, U+1680, U+2000 to U+200A, the line
    and paragraph separators, U+202F, U+205F, U+3000 and the byte order
    mark.  The line terminators, which [.] does not match, are line
    feed, carriage return and the two separators. *)

Definition whiteSpace : list (list nat) :=
  [[9]; [10]; [11]; [12]; [13]; [32]; [194; 160]; [225; 154; 128];
   [226; 128; 128]; [226; 128; 129]; [226; 128; 130]; [226; 128; 131];
   [226; 128; 132]; [226; 128; 133]; [226; 128; 134]; [226; 128; 135];
   [226; 128; 136]; [226; 128; 137]; [226; 128; 138];
   [226; 128; 168]; [226; 128; 169]; [226; 128; 175]; [226; 129; 159];
   [227; 128; 128]; [239; 187; 191]].

Definition lineTerminators : list (list nat) :=
  [[10]; [13]; [226; 128; 168]; [226; 128; 169]].

Definition isWhiteSpace (bs : list ascii) : bool :=
  bool_decide (nat_of_ascii <$> bs ∈ whiteSpace).

(** The length of the white-space character that the bytes start with,
    0 when they start with none. *)
Definition wsLen (bs : list ascii) : nat :=
  if isWhiteSpace (take 1 bs) then 1
  else if isWhiteSpace (take 2 bs) then 2
  else if isWhiteSpace (take 3 bs) then 3
  else 0.

(** The same for the character that the bytes end with, on the
    reversed bytes. *)
Definition wsLenRev (bs : list ascii) : nat :=
  if isWhiteSpace (rev (take 1 bs)) then 1
  else if isWhiteSpace (rev (take 2 bs)) then 2
  else if isWhiteSpace (rev (take 3 bs)) then 3
  else 0.

Fixpoint dropWhileLen (len : list ascii -> nat) (fuel : nat) (bs : list ascii) : list ascii :=
  match fuel with
  | 0 => bs
  | S n =>
      match len bs with
      | 0 => bs
      | k => dropWhileLen len n (drop k bs)
      end
  end.

Definition trimStart (bs : list ascii) : list ascii := dropWhileLen wsLen (length bs) bs.

Definition trimEnd (bs : list ascii) : list ascii :=
  rev (dropWhileLen wsLenRev (length bs) (rev bs)).

(** [s.trim()] *)
Definition jsTrim (s : string) : string :=
  string_of_list_ascii (trimEnd (trimStart (list_ascii_of_string s))).

(** The number of bytes that [\s*] matches at the start of [s]. *)
Definition jsLeadingSpaces (s : string) : nat :=
  String.length s - length (trimStart (list_ascii_of_string s)).

Fixpoint hasLineBreak (bs : list ascii) : bool :=
  match bs with
  | [] => false
  | _ :: rest =>
      bool_decide (nat_of_ascii <$> take 1 bs ∈ lineTerminators)
      || bool_decide (nat_of_ascii <$> take 3 bs ∈ lineTerminators)
      || hasLineBreak rest
  end.

Definition jsHasLineTerminator (s : string) : bool := hasLineBreak (list_ascii_of_string s).

(** The characters that [encodeURIComponent] leaves as they are:
    letters, digits and [- _ . ! ~ * ' ( )]. *)
Definition isUnreserved (c : ascii) : bool :=
  isAsciiAlnum c || existsb (Ascii.eqb c) (list_ascii_of_string "-_.!~*'()").

Definition hexDigit (n : nat) : ascii :=
  nth n (list_ascii_of_string "0123456789ABCDEF") "0"%char.

(** [encodeURIComponent(s)] on a well-formed string: every other byte
    of the UTF-8 encoding as [%XX]. *)
Fixpoint percentEncode (s : string) : string :=
  match s with
  | EmptyString => EmptyString
  | String c rest =>
      if isUnreserved c then String c (percentEncode rest)
      else
        String "%"%char
          (String (hexDigit (nat_of_ascii c / 16))
             (String (hexDigit (nat_of_ascii c mod 16)) (percentEncode rest)))
  end.

(** The value of a hexadecimal digit. *)
Definition hexValue (c : ascii) : option nat :=
  let n := nat_of_ascii c in
  if Nat.leb 48 n && Nat.leb n 57 then Some (n - 48)
  else if Nat.leb 65 n && Nat.leb n 70 then Some (n - 55)
  else if Nat.leb 97 n && Nat.leb n 102 then Some (n - 87)
  else None.

(** The decoding that [URLSearchParams] applies to a name and to a
    value: [+] is a space, [%XX] is the byte [XX], and a [%] that is
    not followed by two digits stays.  The bytes that come out are
    then read as UTF-8, which leaves UTF-8 text as it is. *)
Fixpoint formDecode (s : string) : string :=
  match s with
  | EmptyString => EmptyString
  | String c rest =>
      if Ascii.eqb c "+" then String " " (formDecode rest)
      else if Ascii.eqb c "%" then
        match rest with
        | String h1 (String h2 rest') =>
            match hexValue h1, hexValue h2 with
            | Some a, Some b => String (ascii_of_nat (16 * a + b)) (formDecode rest')
            | _, _ => String c (formDecode rest)
            end
        | _ => String c (formDecode rest)
        end
      else String c (formDecode rest)
  end.

(** The text before the first [sep], and the text after it when there
    is a [sep]. *)
Fixpoint cutAt (sep : ascii) (s : string) : string * option string :=
  match s with
  | EmptyString => (EmptyString, None)
  | String c rest =>
      if Ascii.eqb c sep then (EmptyString, Some rest)
      else let '(before, after) := cutAt sep rest in (String c before, after)
  end.

(** [s.split(sep)] for a separator of one character. *)
Fixpoint splitOn (sep : ascii) (s : string) : list string :=
  match s with
  | EmptyString => [EmptyString]
  | String c rest =>
      if Ascii.eqb c sep then EmptyString :: splitOn sep rest
      else match splitOn sep rest with
           | piece :: pieces => String c piece :: pieces
           | [] => [String c EmptyString]
           end
  end.

(** [new URLSearchParams(location.search)] on the page that a link
    opens, for an href of printable ASCII as the templates of the code
    make them: the query is the text after the first [?], up to a [#];
    it is cut at every [&], the empty pieces are skipped, and each
    piece is cut at its first [=] into a name and a value, which are
    decoded. *)
Definition searchParams (href : string) : list (string * string) :=
  match (cutAt "?" (cutAt "#" href).1).2 with
  | None => []
  | Some query =>
      (fun piece => (formDecode (cutAt "=" piece).1,
                     formDecode (default "" (cutAt "=" piece).2)))
        <$> List.filter (fun piece => negb (String.eqb piece "")) (splitOn "&" query)
  end.

(** The built-ins for the examples: exact on UTF-8 text; the anchors
    resolve against a site at the root of [http://localhost:8000]. *)
Definition sampleEnv : JsEnv :=
  mkJsEnv percentEncode (fun s => "http://localhost:8000/" +:+ s) jsTrim
          jsLeadingSpaces jsHasLineTerminator.

Definition blank : Element := mkElement false "" [].

(** A page that has every region the three pages use. *)
Definition samplePage : Page :=
  mkPage
    (list_to_map
       [("#error", mkElement true "" []);
        ("#cfg-title", blank); ("#cfg-subtitle", blank); ("#cfg-managed", blank);
        ("#grade-buttons", blank); ("#school-total", blank);
        ("#grade-title", blank); ("#grade-subtitle", blank); ("#groups", blank);
        ("#group-title", blank); ("#group-subtitle", blank);
        ("#students", blank); ("#group-total", blank); ("#back", blank)])
    None [] "".

Definition sampleConfig : Config := mkConfig "TALMID" "" "".

(** The roster of the example scenario: grade [z] with the one group [z_a]. *)
Definition sampleGroup : Group :=
  mkGroup "z_a" "ז הקבצה א" "אילנית רז" (Some ["א"; "ב"; "ג"]).

Definition sampleGrade : Grade := mkGrade "z" "שכבת ז" (Some [sampleGroup]).

Definition sampleData : Data := mkData (Some [sampleGrade]).

(** The entry of the home page as the specification words it: built for a
    grade of the roster, with the label and the computed size of that
    grade. *)
Definition gradeEntry (env : JsEnv) (v : Variant) (g : Grade) : Node :=
  El "a" "btn"
     match v with
     | TtlCache => [("data-grade", key g); ("href", gradeHref env (key g))]
     | _ => [("href", gradeHref env (key g))]
     end
     [createEl "div" "btn__title" (Some (label g));
      El "div" "btn__meta" [] (htmlNodes (gradeMetaHtml v (sumStudentsInGrade g) (label g)))].

(** The entry that the loop of [renderHome] builds for a key: that of
    the grade found for the key, or of a placeholder. *)
Definition homeEntry (env : JsEnv) (v : Variant) (data : Data) (k : string) : Node :=
  gradeEntry env v (default (mkGrade k "שכבה" None) (findGrade data k)).

(** The card of a group on the grade page, and the URL of its link. *)
Definition cardFor (env : JsEnv) (v : Variant) (gradeKey : string) (grp : Group) : Node :=
  groupCard env v (groupHref env gradeKey (id grp)) grp.

Definition cardLink (env : JsEnv) (gradeKey : string) (grp : Group) : string :=
  resolveHref env (groupHref env gradeKey (id grp)).

(** A roster whose only grade has a key that is none of [z], [h], [t]. *)
Definition otherData : Data :=
  mkData (Some [mkGrade "y" "שכבת י" (Some [mkGroup "y_a" "י הקבצה א" "" (Some ["א"])])]).


(** A roster with groups and no students. *)
Definition emptyData : Data :=
  mkData (Some [mkGrade "z" "שכבת ז" (Some [mkGroup "z_a" "ז הקבצה א" "אילנית רז" (Some [])]);
                mkGrade "h" "שכבת ח" (Some [mkGroup "h_a" "ח הקבצה א" "" None]);
                mkGrade "t" "שכבת ט" None]).


(** A surrogate without its partner (U+D800), and a roster with no
    students in which it is the id of the second group. *)
Definition loneSurrogate : string :=
  String (ascii_of_nat 237) (String (ascii_of_nat 160) (String (ascii_of_nat 128) EmptyString)).

Definition brokenIdData : Data :=
  mkData (Some [mkGrade "z" "שכבת ז"
                  (Some [mkGroup "z_a" "ז הקבצה א" "" (Some []);
                         mkGroup loneSurrogate "ז הקבצה ב" "" (Some []);
                         mkGroup "z_c" "ז הקבצה ג" "" (Some [])])]).

(** The "fetch failed" condition: an error whose message says so. *)
Definition fetchFailed (e : Exn) : bool :=
  match e with
  | JsError m => includes "fetch failed" m
  | _ => false
  end.

(** The "parse failed" condition: the syntax error of the parser, or an
    error whose message says so. *)
Definition parseFailed (e : Exn) : bool :=
  match e with
  | SyntaxError => true
  | JsError m => includes "parse failed" m
  | _ => false
  end.

(** The session cache of the TTL variant holds an entry: the item under
    the cache key parses to an object with the time stamp [ts] and the
    two documents. *)
Definition ttlEntry (env : LoadEnv) (st : Storage) (ts : Z) (cfg data : JSON) : Prop :=
  accessible st = true
  /\ exists raw props,
      items st !! TtlLoader.SESSION_CACHE_KEY = Some raw
      /\ raw <> ""
      /\ JSON_parse env raw = Some (JObj props)
      /\ props !! "ts" = Some (JNum ts)
      /\ props !! "cfg" = Some cfg
      /\ props !! "data" = Some data
      /\ truthy cfg = true
      /\ truthy data = true.

(** The session cache of the two-key variant holds both documents. *)
Definition twoKeyEntry (env : LoadEnv) (st : Storage) (cfg data : JSON) : Prop :=
  accessible st = true
  /\ exists rawCfg rawData,
      items st !! TwoKeyLoader.CACHE_CFG_KEY = Some rawCfg
      /\ items st !! TwoKeyLoader.CACHE_DATA_KEY = Some rawData
      /\ rawCfg <> ""
      /\ rawData <> ""
      /\ JSON_parse env rawCfg = Some cfg
      /\ JSON_parse env rawData = Some data.

(** A toy parser and network for the examples: three texts parse, the
    configuration is served, the roster is served or refused.  Numbers
    are written in decimal, which is what the platform does with the
    time stamps and the status codes of the examples. *)
Definition sampleCfgJSON : JSON := JObj (<["title" := JStr "TALMID"]> ∅).
Definition sampleDataJSON : JSON := JObj (<["grades" := JArr []]> ∅).
Definition sampleEntryJSON : JSON :=
  JObj (<["ts" := JNum 1000]> (<["cfg" := sampleCfgJSON]> (<["data" := sampleDataJSON]> ∅))).

Definition sampleParse (text : string) : option JSON :=
  if String.eqb text "{cfg}" then Some sampleCfgJSON
  else if String.eqb text "{data}" then Some sampleDataJSON
  else if String.eqb text "{entry}" then Some sampleEntryJSON
  else None.

Definition sampleNetwork (dataResponse : Response) (req : Request) : Outcome :=
  if startsWith CONFIG_URL (url req) then Answers 20 (mkResponse true 200 "{cfg}")
  else Answers 30 dataResponse.

Definition sampleLoadEnv (dataResponse : Response) : LoadEnv :=
  mkLoadEnv sampleParse (fun _ => "{}") (sampleNetwork dataResponse) string_of_Z.

(** The storage with room for every write. *)
Definition withRoom (st : Storage) : Storage :=
  mkStorage (items st) (accessible st) (fun _ => true).

Definition emptyStorage : Storage := mkStorage ∅ true (fun _ => true).

(** A storage in private mode: every write is refused. *)
Definition fullStorage : Storage := mkStorage ∅ true (fun _ => false).

(** A storage with room for one item. *)
Definition oneItemStorage : Storage :=
  mkStorage ∅ true (fun written => bool_decide (size written <= 1)).

Definition ttlStorage : Storage :=
  mkStorage (<[TtlLoader.SESSION_CACHE_KEY := "{entry}"]> ∅) true (fun _ => true).

Definition twoKeyStorage : Storage :=
  mkStorage (<[TwoKeyLoader.CACHE_CFG_KEY := "{cfg}"]>
               (<[TwoKeyLoader.CACHE_DATA_KEY := "{data}"]> ∅)) true (fun _ => true).

(** A site at [http://localhost:8000] for the examples: one link to a
    page of the site, one to another origin; any other href does not
    resolve. *)
Definition sampleLocation : Location :=
  mkLocation
    (fun href =>
       if String.eqb href "grade.html?g=z" then
         Some (mkURL "http://localhost:8000" "/grade.html" "http://localhost:8000/grade.html?g=z")
       else if String.eqb href "https://example.org/a.html" then
         Some (mkURL "https://example.org" "/a.html" "https://example.org/a.html")
       else None)
    "http://localhost:8000".

(** A plain click of the primary button on an anchor. *)
Definition plainClick (a : Anchor) : ClickEvent :=
  mkClickEvent (Some a) false 0 false false false false.

(** The count that the home page shows for a key: the [count] of the
    loop of [renderHome]. *)
Definition homeCount (data : Data) (k : string) : nat :=
  match findGrade data k with
  | Some g => sumStudentsInGrade g
  | None => 0
  end.

(** A request gets no answer in time: the network fails, or it answers
    after the watchdog of the TTL variant has fired. *)
Definition timedOut (env : LoadEnv) (req : Request) : Prop :=
  match network env req with
  | Fails => True
  | Answers latency _ => (latency > TtlLoader.FETCH_TIMEOUT_MS)%Z
  end.

(** A toy serializer for the examples, the inverse of the toy parser on
    the four objects it knows. *)
Definition sampleBustJSON : JSON :=
  JObj (<["v" := JNum 1000]> (<["ts" := JNum 1000]> ∅)).

Definition roundTripParse (text : string) : option JSON :=
  if String.eqb text "{bust}" then Some sampleBustJSON else sampleParse text.

Definition roundTripStringify (j : JSON) : string :=
  match getProp j "v", getProp j "ts", getProp j "title" with
  | Some _, _, _ => "{bust}"
  | None, Some _, _ => "{entry}"
  | None, None, Some _ => "{cfg}"
  | None, None, None => "{data}"
  end.

Definition roundTripEnv : LoadEnv :=
  mkLoadEnv roundTripParse roundTripStringify (sampleNetwork (mkResponse true 200 "{data}"))
            string_of_Z.

(** A window on the sample page, for a page marker and a query string. *)
Definition sampleWindow (marker : option string) (query : list (string * string)) : Window :=
  mkWindow samplePage [] marker query "http:" [] [] [].

Definition sampleClock : ClockEnv := mkClockEnv 0 (fun _ => "00:00:00") (fun _ => "01/01/1970").

(** The error region, hidden and empty, as [hideError] leaves it. *)
Definition cleared (err : Element) : Element := mkElement true (href err) [].

(** What [main] leaves of a view: the page of a view that returned, and
    the page of a view that threw with the message of the [catch]
    block in its error region. *)
Definition caughtPage (v : Variant) (w : Window) (r : Rendered) : Page :=
  match r with
  | Returns p => p
  | Throws _ p => showError (loadErrorMessage v w) p
  end.

(** * Properties *)

(** ** Numbers as text *)

Lemma string_of_nat_nonempty (n : nat) : string_of_nat n <> "".
Proof.
  unfold string_of_nat.
  assert (Hn : Nat.to_uint n <> Decimal.Nil).
  { rewrite <- (DecimalNat.Unsigned.of_to n) at 1.
    rewrite DecimalNat.Unsigned.to_of. apply DecimalFacts.unorm_nonnil. }
  destruct (Nat.to_uint n); [congruence | discriminate ..].
Qed.

Lemma textNodes_nonempty (s : string) : s <> "" -> textNodes s = [Text s].
Proof.
  intros Hs. unfold textNodes.
  destruct (String.eqb_spec s ""); [contradiction | reflexivity].
Qed.

Lemma htmlNodes_nonempty (s : string) : s <> "" -> htmlNodes s = [Html s].
Proof.
  intros Hs. unfold htmlNodes.
  destruct (String.eqb_spec s ""); [contradiction | reflexivity].
Qed.

(** ** The aggregator *)

Lemma fold_left_add {A : Type} (f : A -> nat) (xs : list A) (a : nat) :
  fold_left (fun acc x => acc + f x) xs a = a + sum_list (f <$> xs).
Proof.
  revert a. induction xs as [|x xs IH]; intros a; csimpl.
  - lia.
  - rewrite IH. lia.
Qed.

Lemma sumStudentsInGrade_sum (G : Grade) :
  sumStudentsInGrade G = sum_list (groupSize <$> orEmpty (groups G)).
Proof. unfold sumStudentsInGrade. rewrite (fold_left_add groupSize). reflexivity. Qed.

Lemma sumAllStudents_sum (R : Data) :
  sumAllStudents R = sum_list (sumStudentsInGrade <$> orEmpty (grades R)).
Proof. unfold sumAllStudents. rewrite (fold_left_add sumStudentsInGrade). reflexivity. Qed.

(** C1.  The grade size is the sum, over the groups of the grade, of the
    length of the students sequence of each group; the school size is the
    sum of the grade sizes of the grades of the roster. *)
Theorem aggregator_sizes_are_sums :
  (forall G : Grade,
      sumStudentsInGrade G
      = sum_list ((fun g => length (orEmpty (students g))) <$> orEmpty (groups G)))
  /\ (forall R : Data,
         sumAllStudents R = sum_list (sumStudentsInGrade <$> orEmpty (grades R))).
Proof.
  split.
  - intros G. apply sumStudentsInGrade_sum.
  - intros R. apply sumAllStudents_sum.
Qed.

Example sizes_sample :
  groupSize sampleGroup = 3
  /\ sumStudentsInGrade sampleGrade = 3
  /\ sumAllStudents sampleData = 3
  /\ sumAllStudents emptyData = 0.
Proof. repeat split. Qed.

(** ** Lookups *)

Lemma js_find_None {A : Type} (p : A -> bool) (xs : list A) :
  js_find p xs = None <-> Forall (fun x => p x = false) xs.
Proof.
  induction xs as [|x xs IH]; simpl.
  - split; [constructor | reflexivity].
  - destruct (p x) eqn:Hp.
    + split; [discriminate |]. intros H. inversion H; congruence.
    + rewrite IH. split.
      * intros H. constructor; assumption.
      * intros H. inversion H; assumption.
Qed.

Lemma js_find_Some {A : Type} (p : A -> bool) (xs : list A) (x : A) :
  js_find p xs = Some x -> x ∈ xs /\ p x = true.
Proof.
  induction xs as [|y xs IH]; simpl; [discriminate |].
  destruct (p y) eqn:Hp.
  - intros [= ->]. split; [left | assumption].
  - intros H. destruct (IH H) as [Hin Hx]. split; [right |]; assumption.
Qed.

Lemma js_find_present {A : Type} (p : A -> bool) (xs : list A) (x : A) :
  x ∈ xs -> p x = true -> exists y, js_find p xs = Some y.
Proof.
  intros Hin Hx. destruct (js_find p xs) as [y|] eqn:Hf; [eauto |].
  apply js_find_None in Hf. rewrite Forall_forall in Hf.
  specialize (Hf x Hin). congruence.
Qed.

Lemma findGrade_None (data : Data) (gradeKey : string) :
  findGrade data gradeKey = None
  <-> (forall g, g ∈ orEmpty (grades data) -> key g <> gradeKey).
Proof.
  unfold findGrade. rewrite js_find_None, Forall_forall.
  split; intros H g Hg; specialize (H g Hg).
  - apply String.eqb_neq. exact H.
  - apply String.eqb_neq. exact H.
Qed.

Lemma findGroup_None (grade : Grade) (groupId : string) :
  findGroup grade groupId = None
  <-> (forall gr, gr ∈ orEmpty (groups grade) -> id gr <> groupId).
Proof.
  unfold findGroup. rewrite js_find_None, Forall_forall.
  split; intros H g Hg; specialize (H g Hg); apply String.eqb_neq; exact H.
Qed.

Lemma findGrade_Some (data : Data) (gradeKey : string) (grade : Grade) :
  findGrade data gradeKey = Some grade ->
  grade ∈ orEmpty (grades data) /\ key grade = gradeKey.
Proof.
  intros H. apply js_find_Some in H as [Hin Hk].
  split; [assumption | apply String.eqb_eq; assumption].
Qed.


Lemma findGrade_present (data : Data) (gradeKey : string) :
  (exists g, g ∈ orEmpty (grades data) /\ key g = gradeKey) ->
  exists grade, findGrade data gradeKey = Some grade.
Proof.
  intros (g & Hin & Hk). unfold findGrade.
  apply (js_find_present _ _ g Hin). apply String.eqb_eq. exact Hk.
Qed.

Lemma sumStudentsInGrade_fill (grade : Grade) :
  sumStudentsInGrade (fillGrade grade) = sumStudentsInGrade grade.
Proof.
  rewrite !sumStudentsInGrade_sum. simpl.
  rewrite <- list_fmap_compose. reflexivity.
Qed.

Lemma sumAllStudents_fill (data : Data) :
  sumAllStudents (fillData data) = sumAllStudents data.
Proof.
  rewrite !sumAllStudents_sum. simpl.
  rewrite <- list_fmap_compose. f_equal.
  apply list_fmap_ext. intros _ g _. apply sumStudentsInGrade_fill.
Qed.

Lemma js_find_fmap {A B : Type} (f : A -> B) (p : B -> bool) (xs : list A) :
  js_find p (f <$> xs) = f <$> js_find (fun x => p (f x)) xs.
Proof.
  induction xs as [|x xs IH]; simpl; [reflexivity |].
  destruct (p (f x)); [reflexivity | exact IH].
Qed.

(** C10.  The aggregation and lookup functions return a value on every
    document, also when structural fields are absent: an absent [groups],
    [students] or [grades] field counts as an empty sequence (the sums
    are those of the documents with the absent fields filled in, and 0
    when the field itself is absent), and [findGrade] and [findGroup]
    return [null] exactly when no element matches, in particular when the
    searched sequence is absent. *)
Theorem aggregation_and_lookup_total :
  (forall k l, sumStudentsInGrade (mkGrade k l None) = 0)
  /\ (forall i n t, groupSize (mkGroup i n t None) = 0)
  /\ sumAllStudents (mkData None) = 0
  /\ (forall grade, sumStudentsInGrade grade = sumStudentsInGrade (fillGrade grade))
  /\ (forall data, sumAllStudents data = sumAllStudents (fillData data))
  /\ (forall gradeKey, findGrade (mkData None) gradeKey = None)
  /\ (forall k l groupId, findGroup (mkGrade k l None) groupId = None)
  /\ (forall data gradeKey,
         findGrade data gradeKey = None
         <-> (forall g, g ∈ orEmpty (grades data) -> key g <> gradeKey))
  /\ (forall grade groupId,
         findGroup grade groupId = None
         <-> (forall gr, gr ∈ orEmpty (groups grade) -> id gr <> groupId))
  /\ (forall data gradeKey,
         findGrade (fillData data) gradeKey = fillGrade <$> findGrade data gradeKey)
  /\ (forall grade groupId,
         findGroup (fillGrade grade) groupId = fillGroup <$> findGroup grade groupId).
Proof.
  split_and!.
  - reflexivity.
  - reflexivity.
  - reflexivity.
  - intros grade. symmetry. apply sumStudentsInGrade_fill.
  - intros data. symmetry. apply sumAllStudents_fill.
  - reflexivity.
  - reflexivity.
  - apply findGrade_None.
  - apply findGroup_None.
  - intros data gradeKey. unfold findGrade. simpl. apply js_find_fmap.
  - intros grade groupId. unfold findGroup. simpl. apply js_find_fmap.
Qed.

(** ** The page *)

Lemma qs_setElement (sel sel' : string) (e : Element) (p : Page) :
  qs sel' (setElement sel e p) = if decide (sel = sel') then Some e else qs sel' p.
Proof. unfold qs, setElement; simpl. apply lookup_insert. Qed.

Lemma qs_updateElement (sel sel' : string) (f : Element -> Element) (p : Page) :
  qs sel' (updateElement sel f p)
  = if decide (sel = sel') then f <$> qs sel' p else qs sel' p.
Proof.
  unfold updateElement. destruct (qs sel p) as [el|] eqn:Hel.
  - rewrite qs_setElement. case_decide; [subst; rewrite Hel |]; reflexivity.
  - case_decide; [subst; rewrite Hel |]; reflexivity.
Qed.

Lemma qs_updateElement_eq (sel : string) (f : Element -> Element) (p : Page) :
  qs sel (updateElement sel f p) = f <$> qs sel p.
Proof. rewrite qs_updateElement. case_decide; [reflexivity | congruence]. Qed.

Lemma qs_updateElement_ne (sel sel' : string) (f : Element -> Element) (p : Page) :
  sel <> sel' -> qs sel' (updateElement sel f p) = qs sel' p.
Proof. intros Hne. rewrite qs_updateElement. case_decide; [congruence | reflexivity]. Qed.

Lemma rest_updateElement (sel : string) (f : Element -> Element) (p : Page) :
  dataGrade (updateElement sel f p) = dataGrade p
  /\ prefetchLinks (updateElement sel f p) = prefetchLinks p
  /\ docTitle (updateElement sel f p) = docTitle p.
Proof. unfold updateElement. destruct (qs sel p); repeat split. Qed.

Lemma prefetchLinks_updateElement (sel : string) (f : Element -> Element) (p : Page) :
  prefetchLinks (updateElement sel f p) = prefetchLinks p.
Proof. apply rest_updateElement. Qed.

Lemma updateElement_ext (sel : string) (f g : Element -> Element) (p : Page) :
  (forall el, f el = g el) -> updateElement sel f p = updateElement sel g p.
Proof.
  intros Hfg. unfold updateElement. destruct (qs sel p); [| reflexivity].
  rewrite Hfg. reflexivity.
Qed.

Lemma updateElement_id (sel : string) (f : Element -> Element) (p : Page) :
  (forall el, f el = el) -> updateElement sel f p = p.
Proof.
  intros Hf. unfold updateElement. destruct (qs sel p) as [el|] eqn:Hel; [| reflexivity].
  rewrite Hf. destruct p as [m g l t]. unfold setElement, qs in *; simpl in *.
  f_equal. apply insert_id. exact Hel.
Qed.

Lemma updateElement_twice (sel : string) (f g : Element -> Element) (p : Page) :
  updateElement sel g (updateElement sel f p) = updateElement sel (fun el => g (f el)) p.
Proof.
  unfold updateElement at 2 3. destruct (qs sel p) as [el|] eqn:Hel.
  - unfold updateElement. rewrite qs_setElement. case_decide; [| congruence].
    unfold setElement; simpl. f_equal. apply insert_insert_eq.
  - unfold updateElement. rewrite Hel. reflexivity.
Qed.

Lemma appendFragment_nil (sel : string) (p : Page) : appendFragment sel [] p = p.
Proof.
  apply updateElement_id. intros [h r k]; simpl. rewrite app_nil_r. reflexivity.
Qed.

Lemma appendChild_appendFragment (sel : string) (n : Node) (ns : list Node) (p : Page) :
  appendFragment sel ns (appendChild sel n p) = appendFragment sel (n :: ns) p.
Proof.
  unfold appendFragment, appendChild. rewrite updateElement_twice.
  apply updateElement_ext. intros el; simpl. rewrite <- app_assoc. reflexivity.
Qed.

(** Appending the nodes one by one, or moving them in from a fragment,
    leaves the same page. *)
Lemma fold_appendChild (sel : string) (ns : list Node) (p : Page) :
  fold_left (fun p n => appendChild sel n p) ns p = appendFragment sel ns p.
Proof.
  revert p. induction ns as [|n ns IH]; intros p; simpl.
  - symmetry. apply appendFragment_nil.
  - rewrite IH. apply appendChild_appendFragment.
Qed.

Lemma fold_appendChild_fmap {A : Type} (sel : string) (f : A -> Node) (xs : list A) (p : Page) :
  fold_left (fun p x => appendChild sel (f x) p) xs p = appendFragment sel (f <$> xs) p.
Proof.
  revert p. induction xs as [|x xs IH]; intros p; csimpl.
  - symmetry. apply appendFragment_nil.
  - rewrite IH. apply appendChild_appendFragment.
Qed.

Lemma fold_cards_fragment {A : Type} (card : A -> Node) (u : A -> string)
      (xs : list A) (frag : list Node) (urls : list string) :
  fold_left (fun '(frag, urls) x => (frag ++ [card x], urls ++ [u x])) xs (frag, urls)
  = (frag ++ (card <$> xs), urls ++ (u <$> xs)).
Proof.
  revert frag urls. induction xs as [|x xs IH]; intros frag urls; csimpl.
  - rewrite !app_nil_r. reflexivity.
  - rewrite IH, <- !app_assoc. reflexivity.
Qed.

Lemma fold_cards_append {A : Type} (sel : string) (card : A -> Node) (u : A -> string)
      (xs : list A) (p : Page) (urls : list string) :
  fold_left (fun '(p, urls) x => (appendChild sel (card x) p, urls ++ [u x])) xs (p, urls)
  = (appendFragment sel (card <$> xs) p, urls ++ (u <$> xs)).
Proof.
  revert p urls. induction xs as [|x xs IH]; intros p urls; csimpl.
  - rewrite appendFragment_nil, app_nil_r. reflexivity.
  - rewrite IH, appendChild_appendFragment, <- app_assoc. reflexivity.
Qed.

(** *** Prefetch hints *)

Lemma prefetchStep_keeps (links : list string) (u x : string) :
  x ∈ links -> x ∈ prefetchStep links u.
Proof.
  intros Hx. unfold prefetchStep.
  destruct (String.eqb u "" || existsb (String.eqb u) links); [assumption |].
  apply elem_of_app. left. assumption.
Qed.

Lemma prefetchStep_adds (links : list string) (u : string) :
  u <> "" -> u ∈ prefetchStep links u.
Proof.
  intros Hu. unfold prefetchStep.
  destruct (String.eqb_spec u ""); [contradiction |]. simpl.
  destruct (existsb (String.eqb u) links) eqn:Hex.
  - apply existsb_exists in Hex as (y & Hy & Heq).
    apply String.eqb_eq in Heq. subst y. apply list_elem_of_In. exact Hy.
  - apply elem_of_app. right. left.
Qed.

Lemma fold_prefetchStep_keeps (urls links : list string) (x : string) :
  x ∈ links -> x ∈ fold_left prefetchStep urls links.
Proof.
  revert links. induction urls as [|u urls IH]; intros links Hx; simpl; [assumption |].
  apply IH, prefetchStep_keeps, Hx.
Qed.

Lemma fold_prefetchStep_adds (urls links : list string) (u : string) :
  u ∈ urls -> u <> "" -> u ∈ fold_left prefetchStep urls links.
Proof.
  revert links. induction urls as [|u' urls IH]; intros links Hin Hu; simpl.
  - inversion Hin.
  - apply elem_of_cons in Hin as [-> | Hin].
    + apply fold_prefetchStep_keeps, prefetchStep_adds, Hu.
    + apply IH; assumption.
Qed.

(** Every link of the head is a link that was there or one of the URLs. *)
Lemma fold_prefetchStep_only (urls links : list string) (x : string) :
  x ∈ fold_left prefetchStep urls links -> x ∈ links \/ x ∈ urls.
Proof.
  revert links. induction urls as [|u urls IH]; intros links Hx; simpl in Hx.
  - left. assumption.
  - apply IH in Hx as [Hx | Hx].
    + unfold prefetchStep in Hx.
      destruct (String.eqb u "" || existsb (String.eqb u) links); [left; assumption |].
      apply elem_of_app in Hx as [Hx | Hx]; [left; assumption |].
      apply list_elem_of_singleton in Hx. subst. right. left.
    + right. right. assumption.
Qed.

(** ** Loops and exceptions *)

Lemma encodeComponent_Ok (env : JsEnv) (s : string) :
  isWellFormed s = true -> encodeComponent env s = Ok (encodeURIComponent env s).
Proof. intros H. unfold encodeComponent. rewrite H. reflexivity. Qed.

Lemma gradeUrl_Ok (env : JsEnv) (k : string) :
  isWellFormed k = true -> gradeUrl env k = Ok (gradeHref env k).
Proof. intros H. unfold gradeUrl. rewrite (encodeComponent_Ok _ _ H). reflexivity. Qed.

Lemma gradeUrl_Throw (env : JsEnv) (k : string) :
  isWellFormed k = false -> gradeUrl env k = Throw URIError.
Proof. intros H. unfold gradeUrl, encodeComponent. rewrite H. reflexivity. Qed.

Lemma groupUrl_Ok (env : JsEnv) (gradeKey groupId : string) :
  isWellFormed gradeKey = true -> isWellFormed groupId = true ->
  groupUrl env gradeKey groupId = Ok (groupHref env gradeKey groupId).
Proof.
  intros Hk Hi. unfold groupUrl.
  rewrite (encodeComponent_Ok _ _ Hk), (encodeComponent_Ok _ _ Hi). reflexivity.
Qed.

Lemma groupUrl_Throw (env : JsEnv) (gradeKey groupId : string) :
  isWellFormed gradeKey = false \/ isWellFormed groupId = false ->
  groupUrl env gradeKey groupId = Throw URIError.
Proof.
  intros H. unfold groupUrl, encodeComponent.
  destruct (isWellFormed gradeKey); [| reflexivity].
  destruct H as [H | ->]; [discriminate | reflexivity].
Qed.

Lemma cardOf_Ok (env : JsEnv) (v : Variant) (gradeKey : string) (grp : Group) :
  isWellFormed gradeKey = true -> isWellFormed (id grp) = true ->
  cardOf env v gradeKey grp = Ok (cardFor env v gradeKey grp, cardLink env gradeKey grp).
Proof. intros Hk Hi. unfold cardOf. rewrite (groupUrl_Ok _ _ _ Hk Hi). reflexivity. Qed.

(** A loop whose iterations compute a value, which may throw, and then
    update the state with it, leaves the state updated with the values
    of the iterations that completed. *)
Lemma forOf_completed {A B S : Type} (f : A -> Result B) (step : S -> B -> S)
      (body : S -> A -> Result S) (xs : list A) (s : S) :
  (forall s x, body s x = match f x with Ok y => Ok (step s y) | Throw e => Throw e end) ->
  forOf body xs s = (fold_left step (completed f xs).1 s, (completed f xs).2).
Proof.
  intros Hbody. revert s. induction xs as [|x xs IH]; intros s; simpl; [reflexivity |].
  rewrite Hbody. destruct (f x) as [y|e]; [| reflexivity].
  rewrite IH. destruct (completed f xs) as [ys e]. reflexivity.
Qed.

Lemma completed_Ok {A B : Type} (f : A -> Result B) (g : A -> B) (xs : list A) :
  (forall x, x ∈ xs -> f x = Ok (g x)) -> completed f xs = (g <$> xs, None).
Proof.
  induction xs as [|x xs IH]; intros Hall; csimpl; [reflexivity |].
  rewrite (Hall x) by left. rewrite IH; [reflexivity |].
  intros y Hy. apply Hall. right. exact Hy.
Qed.

(** The iterations that completed are those of a prefix of the list, and
    when one threw the element after the prefix is the one it threw at. *)
Lemma completed_prefix {A B : Type} (f : A -> Result B) (xs : list A) :
  exists pre post,
    xs = pre ++ post
    /\ Forall2 (fun x y => f x = Ok y) pre (completed f xs).1
    /\ match (completed f xs).2 with
       | None => post = []
       | Some e => exists x rest, post = x :: rest /\ f x = Throw e
       end.
Proof.
  induction xs as [|x xs IH]; simpl.
  - exists [], []. split_and!; [reflexivity | constructor | reflexivity].
  - destruct (f x) as [y|e] eqn:Hx.
    + destruct IH as (pre & post & -> & Hpre & Hpost).
      destruct (completed f (pre ++ post)) as [ys thrown]. simpl in *.
      exists (x :: pre), post. split_and!; [reflexivity | constructor; assumption | exact Hpost].
    + exists [], (x :: xs). split_and!; [reflexivity | constructor |]. simpl. eauto.
Qed.

Lemma mapOrThrow_Ok {A B : Type} (f : A -> Result B) (g : A -> B) (xs : list A) :
  (forall x, x ∈ xs -> f x = Ok (g x)) -> mapOrThrow f xs = Ok (g <$> xs).
Proof.
  induction xs as [|x xs IH]; intros Hall; csimpl; [reflexivity |].
  rewrite (Hall x) by left. rewrite IH; [reflexivity |].
  intros y Hy. apply Hall. right. exact Hy.
Qed.

Lemma fold_snoc {A : Type} (ys acc : list A) :
  fold_left (fun frag a => frag ++ [a]) ys acc = acc ++ ys.
Proof.
  revert acc. induction ys as [|y ys IH]; intros acc; simpl.
  - rewrite app_nil_r. reflexivity.
  - rewrite IH, <- app_assoc. reflexivity.
Qed.

Lemma fold_pairs_fragment {A B : Type} (ys : list (A * B)) (frag : list A) (urls : list B) :
  fold_left (fun '(frag, urls) '(card, u) => (frag ++ [card], urls ++ [u])) ys (frag, urls)
  = (frag ++ (fst <$> ys), urls ++ (snd <$> ys)).
Proof.
  revert frag urls. induction ys as [|[c u] ys IH]; intros frag urls; csimpl.
  - rewrite !app_nil_r. reflexivity.
  - rewrite IH, <- !app_assoc. reflexivity.
Qed.

Lemma fold_pairs_append {B : Type} (sel : string) (ys : list (Node * B)) (p : Page)
      (urls : list B) :
  fold_left (fun '(p, urls) '(card, u) => (appendChild sel card p, urls ++ [u])) ys (p, urls)
  = (appendFragment sel (fst <$> ys) p, urls ++ (snd <$> ys)).
Proof.
  revert p urls. induction ys as [|[c u] ys IH]; intros p urls; csimpl.
  - rewrite appendFragment_nil, app_nil_r. reflexivity.
  - rewrite IH, appendChild_appendFragment, <- app_assoc. reflexivity.
Qed.

Lemma isWellFormed_gradeKeys (k : string) : k ∈ gradeKeys -> isWellFormed k = true.
Proof.
  unfold gradeKeys. intros Hk.
  repeat (apply elem_of_cons in Hk as [-> | Hk]; [reflexivity |]).
  inversion Hk.
Qed.

(** ** The render functions *)

Lemma qs_setGradeAccent (sel gradeKey : string) (p : Page) :
  qs sel (setGradeAccent gradeKey p) = qs sel p.
Proof. reflexivity. Qed.

Lemma qs_setTitle (sel t : string) (p : Page) : qs sel (setTitle t p) = qs sel p.
Proof. reflexivity. Qed.

Lemma qs_prefetch (sel : string) (urls : list string) (p : Page) :
  qs sel (prefetch urls p) = qs sel p.
Proof. reflexivity. Qed.

Lemma prefetchLinks_prefetch (urls : list string) (p : Page) :
  prefetchLinks (prefetch urls p) = fold_left prefetchStep urls (prefetchLinks p).
Proof. reflexivity. Qed.

(** Reads an element back through the assignments made before. *)
Ltac page_simpl :=
  unfold safeText, setTextContent, setInnerHTML, appendFragment, appendChild,
    setHref, showError, hideError;
  repeat first
    [ rewrite qs_updateElement_eq
    | rewrite qs_updateElement_ne by discriminate
    | rewrite qs_setGradeAccent
    | rewrite qs_setTitle
    | rewrite qs_prefetch ].

Lemma numSpan_nonempty (n : nat) (s : string) : numSpan n +:+ s <> "".
Proof. discriminate. Qed.

Lemma groupTotalHtml_nonempty (n : nat) : groupTotalHtml n <> "".
Proof. discriminate. Qed.

(** What [renderGroup] does once grade and group are resolved: both
    variants fill the table with the same rows; the call throws when
    it comes to the back link with a grade key that does not encode,
    after the table and the total. *)
Lemma renderGroup_resolved (env : JsEnv) (v : Variant) (cfg : Config) (data : Data)
      (gradeKey groupId : string) (p : Page) (grade : Grade) (grp : Group) :
  findGrade data gradeKey = Some grade ->
  findGroup grade groupId = Some grp ->
  renderGroup env v cfg data gradeKey groupId p
  = let p1 := safeText "#group-subtitle" (teacher grp)
                (safeText "#group-title" (name grp) (setGradeAccent gradeKey p)) in
    match qs "#students" p with
    | None => Returns p1
    | Some _ =>
        let p2 := setInnerHTML "#group-total" (groupTotalHtml (length (orEmpty (students grp))))
                    (appendFragment "#students" (imap studentRow (orEmpty (students grp)))
                       (setInnerHTML "#students" "" p1)) in
        match qs "#back" p with
        | None => Returns (setTitle (title cfg) p2)
        | Some _ =>
            if isWellFormed gradeKey
            then Returns (setTitle (title cfg) (setHref "#back" (gradeHref env gradeKey) p2))
            else Throws URIError p2
        end
    end.
Proof.
  intros Hgrade Hgrp. unfold renderGroup. rewrite Hgrade, Hgrp. cbv zeta.
  replace (qs "#students"
             (safeText "#group-subtitle" (teacher grp)
                (safeText "#group-title" (name grp) (setGradeAccent gradeKey p))))
    with (qs "#students" p) by (page_simpl; reflexivity).
  destruct (qs "#students" p); [| reflexivity].
  assert (Hrows : forall q,
             match v with
             | TtlCache => appendFragment "#students" (imap studentRow (orEmpty (students grp))) q
             | _ => fold_left (fun p tr => appendChild "#students" tr p)
                              (imap studentRow (orEmpty (students grp))) q
             end
             = appendFragment "#students" (imap studentRow (orEmpty (students grp))) q).
  { intros q. destruct v; try reflexivity; apply fold_appendChild. }
  rewrite Hrows.
  match goal with
  | |- context [match qs "#back" ?q with _ => _ end] =>
      replace (qs "#back" q) with (qs "#back" p) by (page_simpl; reflexivity)
  end.
  destruct (qs "#back" p); [| reflexivity].
  destruct (isWellFormed gradeKey) eqn:Hwf.
  - rewrite (gradeUrl_Ok _ _ Hwf). reflexivity.
  - rewrite (gradeUrl_Throw _ _ Hwf). reflexivity.
Qed.

(** The page that it leaves, whether it returns or throws. *)
Lemma renderGroup_pageOf (env : JsEnv) (v : Variant) (cfg : Config) (data : Data)
      (gradeKey groupId : string) (p : Page) (grade : Grade) (grp : Group) :
  findGrade data gradeKey = Some grade ->
  findGroup grade groupId = Some grp ->
  pageOf (renderGroup env v cfg data gradeKey groupId p)
  = let p1 := safeText "#group-subtitle" (teacher grp)
                (safeText "#group-title" (name grp) (setGradeAccent gradeKey p)) in
    match qs "#students" p with
    | None => p1
    | Some _ =>
        let p2 := setInnerHTML "#group-total" (groupTotalHtml (length (orEmpty (students grp))))
                    (appendFragment "#students" (imap studentRow (orEmpty (students grp)))
                       (setInnerHTML "#students" "" p1)) in
        match qs "#back" p with
        | Some _ =>
            if isWellFormed gradeKey
            then setTitle (title cfg) (setHref "#back" (gradeHref env gradeKey) p2)
            else p2
        | None => setTitle (title cfg) p2
        end
    end.
Proof.
  intros Hgrade Hgrp. rewrite (renderGroup_resolved _ _ _ _ _ _ _ _ _ Hgrade Hgrp). cbv zeta.
  destruct (qs "#students" p); [| reflexivity].
  destruct (qs "#back" p); [| reflexivity].
  destruct (isWellFormed gradeKey); reflexivity.
Qed.

(** Settles a property of the page that [renderGroup] leaves in each of
    the ways it can end. *)
Ltac group_cases p gradeKey :=
  destruct (qs "#back" p); [destruct (isWellFormed gradeKey) |].

(** C2.  For every resolved group, on a page that has the table body and
    the total, [renderGroup] leaves one row per student, in input order,
    the row of the student at index [i] carrying the number [i + 1] written
    in decimal and the name of the student, and the total shows the length
    of the students sequence. *)
Theorem renderGroup_table (env : JsEnv) (v : Variant) (cfg : Config) (data : Data)
        (gradeKey groupId : string) (p : Page) (grade : Grade) (grp : Group)
        (tbody totalEl : Element) :
  findGrade data gradeKey = Some grade ->
  findGroup grade groupId = Some grp ->
  qs "#students" p = Some tbody ->
  qs "#group-total" p = Some totalEl ->
  let p' := pageOf (renderGroup env v cfg data gradeKey groupId p) in
  let names := orEmpty (students grp) in
  exists rows,
    kids <$> qs "#students" p' = Some rows
    /\ length rows = length names
    /\ (forall i student,
          names !! i = Some student ->
          rows !! i
          = Some (El "tr" "" []
                     [El "td" "rowNum" [] [Text (string_of_nat (i + 1))];
                      El "td" "" [] (textNodes student)]))
    /\ kids <$> qs "#group-total" p'
       = Some [Html ("סה״כ תלמידים בהקבצה: <span class=" +:+ dq +:+ "num" +:+ dq +:+ ">"
                     +:+ string_of_nat (length names) +:+ "</span>")].
Proof.
  intros Hgrade Hgrp Htbody Htotal p' names.
  exists (imap studentRow names).
  subst p'. rewrite (renderGroup_pageOf _ _ _ _ _ _ _ _ _ Hgrade Hgrp).
  cbv zeta. rewrite Htbody. split_and!.
  - group_cases p gradeKey; page_simpl; rewrite Htbody; reflexivity.
  - apply length_imap.
  - intros i student Hi. rewrite list_lookup_imap, Hi. simpl.
    unfold studentRow, createEl.
    rewrite (textNodes_nonempty _ (string_of_nat_nonempty (i + 1))). reflexivity.
  - group_cases p gradeKey; page_simpl; rewrite Htotal; simpl;
      rewrite (htmlNodes_nonempty _ (groupTotalHtml_nonempty _)); reflexivity.
Qed.

(** The example scenario: the group page for [g=z&group=z_a]. *)
Lemma renderGroup_table_witness :
  exists rows,
    kids <$> qs "#students"
               (pageOf (renderGroup sampleEnv Plain sampleConfig sampleData "z" "z_a" samplePage))
    = Some rows
    /\ length rows = 3
    /\ (forall i student,
          ["א"; "ב"; "ג"] !! i = Some student ->
          rows !! i
          = Some (El "tr" "" []
                     [El "td" "rowNum" [] [Text (string_of_nat (i + 1))];
                      El "td" "" [] (textNodes student)]))
    /\ kids <$> qs "#group-total"
                  (pageOf (renderGroup sampleEnv Plain sampleConfig sampleData "z" "z_a" samplePage))
       = Some [Html ("סה״כ תלמידים בהקבצה: <span class=" +:+ dq +:+ "num" +:+ dq +:+ ">"
                     +:+ "3" +:+ "</span>")].
Proof.
  apply (renderGroup_table sampleEnv Plain sampleConfig sampleData "z" "z_a" samplePage
           sampleGrade sampleGroup blank blank); reflexivity.
Defined.

(** The same scenario, evaluated: the call returns, with three rows
    numbered 1, 2, 3. *)
Example renderGroup_z_a_rows (v : Variant) :
  exists p',
    renderGroup sampleEnv v sampleConfig sampleData "z" "z_a" samplePage = Returns p'
    /\ kids <$> qs "#students" p'
       = Some [El "tr" "" [] [El "td" "rowNum" [] [Text "1"]; El "td" "" [] [Text "א"]];
               El "tr" "" [] [El "td" "rowNum" [] [Text "2"]; El "td" "" [] [Text "ב"]];
               El "tr" "" [] [El "td" "rowNum" [] [Text "3"]; El "td" "" [] [Text "ג"]]].
Proof.
  exists (pageOf (renderGroup sampleEnv v sampleConfig sampleData "z" "z_a" samplePage)).
  destruct v; split; vm_compute; reflexivity.
Qed.

Lemma showError_page (message : string) (p : Page) :
  message <> "" ->
  (forall err, qs "#error" p = Some err ->
               qs "#error" (showError message p)
               = Some (mkElement false (href err) [Text message]))
  /\ (forall sel, sel <> "#error" -> qs sel (showError message p) = qs sel p)
  /\ dataGrade (showError message p) = dataGrade p
  /\ prefetchLinks (showError message p) = prefetchLinks p
  /\ docTitle (showError message p) = docTitle p.
Proof.
  intros Hm. unfold showError. split_and!.
  - intros err Herr. rewrite qs_updateElement_eq, Herr. simpl.
    rewrite (textNodes_nonempty _ Hm). reflexivity.
  - intros sel Hsel. apply qs_updateElement_ne. congruence.
  - apply rest_updateElement.
  - apply rest_updateElement.
  - apply rest_updateElement.
Qed.

(** C4.  When no grade of the roster has the key, [renderGrade] sets the
    accent, shows the error "grade not found" in the error region and
    returns without doing anything else: every other element, the
    groups region among them, the prefetch links and the title are as
    they were. *)
Theorem renderGrade_unknown_grade (env : JsEnv) (v : Variant) (cfg : Config)
        (data : Data) (gradeKey : string) (p : Page) :
  (forall g, g ∈ orEmpty (grades data) -> key g <> gradeKey) ->
  let p' := pageOf (renderGrade env v cfg data gradeKey p) in
  renderGrade env v cfg data gradeKey p
  = Returns (showError "שכבה לא נמצאה" (setGradeAccent gradeKey p))
  /\ (forall err, qs "#error" p = Some err ->
                  qs "#error" p' = Some (mkElement false (href err) [Text "שכבה לא נמצאה"]))
  /\ qs "#groups" p' = qs "#groups" p
  /\ (forall sel, sel <> "#error" -> qs sel p' = qs sel p)
  /\ prefetchLinks p' = prefetchLinks p
  /\ docTitle p' = docTitle p.
Proof.
  intros Habsent p'. apply findGrade_None in Habsent.
  assert (Hr : renderGrade env v cfg data gradeKey p
               = Returns (showError "שכבה לא נמצאה" (setGradeAccent gradeKey p))).
  { unfold renderGrade. rewrite Habsent. reflexivity. }
  destruct (showError_page "שכבה לא נמצאה" (setGradeAccent gradeKey p))
    as (Herr & Hother & _ & Hlinks & Htitle); [discriminate |].
  subst p'. rewrite Hr. simpl pageOf. split_and!.
  - reflexivity.
  - intros err He. apply Herr. exact He.
  - apply Hother. discriminate.
  - intros sel Hsel. apply Hother. exact Hsel.
  - exact Hlinks.
  - exact Htitle.
Qed.

(** The grade page for [g=x] on the sample roster, which has no grade [x]. *)
Lemma renderGrade_unknown_grade_witness :
  let p' := pageOf (renderGrade sampleEnv TtlCache sampleConfig sampleData "x" samplePage) in
  renderGrade sampleEnv TtlCache sampleConfig sampleData "x" samplePage
  = Returns (showError "שכבה לא נמצאה" (setGradeAccent "x" samplePage))
  /\ (forall err, qs "#error" samplePage = Some err ->
                  qs "#error" p' = Some (mkElement false (href err) [Text "שכבה לא נמצאה"]))
  /\ qs "#groups" p' = qs "#groups" samplePage
  /\ (forall sel, sel <> "#error" -> qs sel p' = qs sel samplePage)
  /\ prefetchLinks p' = prefetchLinks samplePage
  /\ docTitle p' = docTitle samplePage.
Proof.
  apply (renderGrade_unknown_grade sampleEnv TtlCache sampleConfig sampleData "x" samplePage).
  intros g Hg. apply list_elem_of_singleton in Hg. subst g. discriminate.
Defined.

(** C5.  When the grade resolves and no group of the resolved grade has
    the id, [renderGroup] shows the error "group not found", not the one
    for the grade, and returns before the table: every element but the
    error region, the table body and the total among them, is as it was. *)
Theorem renderGroup_unknown_group (env : JsEnv) (v : Variant) (cfg : Config)
        (data : Data) (gradeKey groupId : string) (p : Page) (grade : Grade) :
  findGrade data gradeKey = Some grade ->
  (forall gr, gr ∈ orEmpty (groups grade) -> id gr <> groupId) ->
  let p' := pageOf (renderGroup env v cfg data gradeKey groupId p) in
  renderGroup env v cfg data gradeKey groupId p
  = Returns (showError "הקבצה לא נמצאה" (setGradeAccent gradeKey p))
  /\ (forall err,
         qs "#error" p = Some err ->
         qs "#error" p' = Some (mkElement false (href err) [Text "הקבצה לא נמצאה"])
         /\ qs "#error" p' <> qs "#error" (showError "שכבה לא נמצאה" (setGradeAccent gradeKey p)))
  /\ qs "#students" p' = qs "#students" p
  /\ qs "#group-total" p' = qs "#group-total" p
  /\ (forall sel, sel <> "#error" -> qs sel p' = qs sel p)
  /\ prefetchLinks p' = prefetchLinks p
  /\ docTitle p' = docTitle p.
Proof.
  intros Hgrade Habsent p'. apply findGroup_None in Habsent.
  assert (Hr : renderGroup env v cfg data gradeKey groupId p
               = Returns (showError "הקבצה לא נמצאה" (setGradeAccent gradeKey p))).
  { unfold renderGroup. rewrite Hgrade, Habsent. reflexivity. }
  destruct (showError_page "הקבצה לא נמצאה" (setGradeAccent gradeKey p))
    as (Herr & Hother & _ & Hlinks & Htitle); [discriminate |].
  destruct (showError_page "שכבה לא נמצאה" (setGradeAccent gradeKey p))
    as (Herr' & _); [discriminate |].
  subst p'. rewrite Hr. simpl pageOf. split_and!.
  - reflexivity.
  - intros err He. split.
    + apply Herr. exact He.
    + rewrite (Herr err He), (Herr' err He). discriminate.
  - apply Hother. discriminate.
  - apply Hother. discriminate.
  - intros sel Hsel. apply Hother. exact Hsel.
  - exact Hlinks.
  - exact Htitle.
Qed.

(** The group page for [g=z&group=z_b]: the sample grade [z] has no group [z_b]. *)
Lemma renderGroup_unknown_group_witness :
  let p' := pageOf (renderGroup sampleEnv Plain sampleConfig sampleData "z" "z_b" samplePage) in
  renderGroup sampleEnv Plain sampleConfig sampleData "z" "z_b" samplePage
  = Returns (showError "הקבצה לא נמצאה" (setGradeAccent "z" samplePage))
  /\ (forall err,
         qs "#error" samplePage = Some err ->
         qs "#error" p' = Some (mkElement false (href err) [Text "הקבצה לא נמצאה"])
         /\ qs "#error" p' <> qs "#error" (showError "שכבה לא נמצאה" (setGradeAccent "z" samplePage)))
  /\ qs "#students" p' = qs "#students" samplePage
  /\ qs "#group-total" p' = qs "#group-total" samplePage
  /\ (forall sel, sel <> "#error" -> qs sel p' = qs sel samplePage)
  /\ prefetchLinks p' = prefetchLinks samplePage
  /\ docTitle p' = docTitle samplePage.
Proof.
  apply (renderGroup_unknown_group sampleEnv Plain sampleConfig sampleData "z" "z_b"
           samplePage sampleGrade).
  - reflexivity.
  - intros gr Hgr. apply list_elem_of_singleton in Hgr. subst gr. discriminate.
Defined.

(** The anchor of a key that encodes is the entry of the grade that
    [findGrade] finds for it, and the entry of a placeholder grade when
    it finds none. *)
Lemma gradeButton_entry (env : JsEnv) (v : Variant) (data : Data) (k : string) :
  isWellFormed k = true -> gradeButton env v data k = Ok (homeEntry env v data k).
Proof.
  intros Hk. unfold gradeButton, homeEntry, gradeEntry. rewrite (gradeUrl_Ok _ _ Hk).
  destruct (findGrade data k) as [g|] eqn:Hg; simpl.
  - apply findGrade_Some in Hg as [_ <-]. reflexivity.
  - reflexivity.
Qed.

(** [renderHome] returns, and both variants put the same three anchors
    into the container: the keys of the loop are literals that encode. *)
Lemma renderHome_page (env : JsEnv) (v : Variant) (cfg : Config) (data : Data) (p : Page) :
  renderHome env v cfg data p
  = Returns
      (let p1 := safeText "#cfg-managed" (managedBy cfg)
                   (safeText "#cfg-subtitle" (subtitle cfg)
                      (safeText "#cfg-title" (title cfg) (setGradeAccent "" p))) in
       match qs "#grade-buttons" p with
       | None => p1
       | Some _ =>
           appendFragment "#grade-buttons" (homeEntry env v data <$> gradeKeys)
             (prefetch (gradeHref env <$> gradeKeys)
                (setInnerHTML "#school-total" (schoolTotalHtml v (sumAllStudents data))
                   (setInnerHTML "#grade-buttons" "" p1)))
       end).
Proof.
  unfold renderHome. cbv zeta.
  replace (qs "#grade-buttons"
             (safeText "#cfg-managed" (managedBy cfg)
                (safeText "#cfg-subtitle" (subtitle cfg)
                   (safeText "#cfg-title" (title cfg) (setGradeAccent "" p)))))
    with (qs "#grade-buttons" p) by (page_simpl; reflexivity).
  destruct (qs "#grade-buttons" p); [| reflexivity].
  rewrite (mapOrThrow_Ok (gradeUrl env) (gradeHref env))
    by (intros k Hk; apply gradeUrl_Ok, isWellFormed_gradeKeys, Hk).
  assert (Hbuilt : completed (gradeButton env v data) gradeKeys
                   = (homeEntry env v data <$> gradeKeys, None)).
  { apply completed_Ok. intros k Hk. apply gradeButton_entry, isWellFormed_gradeKeys, Hk. }
  destruct v.
  - rewrite (forOf_completed (gradeButton env Plain data)
               (fun p a => appendChild "#grade-buttons" a p)) by reflexivity.
    rewrite Hbuilt. simpl fst. simpl snd. rewrite fold_appendChild. reflexivity.
  - rewrite (forOf_completed (gradeButton env TtlCache data) (fun frag a => frag ++ [a]))
      by reflexivity.
    rewrite Hbuilt. simpl fst. simpl snd. rewrite fold_snoc. reflexivity.
  - rewrite (forOf_completed (gradeButton env TwoKey data)
               (fun p a => appendChild "#grade-buttons" a p)) by reflexivity.
    rewrite Hbuilt. simpl fst. simpl snd. rewrite fold_appendChild. reflexivity.
Qed.

Lemma renderHome_pageOf (env : JsEnv) (v : Variant) (cfg : Config) (data : Data) (p : Page) :
  pageOf (renderHome env v cfg data p)
  = let p1 := safeText "#cfg-managed" (managedBy cfg)
                (safeText "#cfg-subtitle" (subtitle cfg)
                   (safeText "#cfg-title" (title cfg) (setGradeAccent "" p))) in
    match qs "#grade-buttons" p with
    | None => p1
    | Some _ =>
        appendFragment "#grade-buttons" (homeEntry env v data <$> gradeKeys)
          (prefetch (gradeHref env <$> gradeKeys)
             (setInnerHTML "#school-total" (schoolTotalHtml v (sumAllStudents data))
                (setInnerHTML "#grade-buttons" "" p1)))
    end.
Proof. rewrite renderHome_page. reflexivity. Qed.

(** What [renderGrade] does once the grade is resolved: the loop builds
    the cards of the groups up to the first id that does not encode.
    When it throws there, the plain and the two-key variant have
    appended the cards built so far, the TTL variant none, and nothing
    that follows the loop has happened. *)
Lemma renderGrade_resolved (env : JsEnv) (v : Variant) (cfg : Config) (data : Data)
      (gradeKey : string) (p : Page) (grade : Grade) :
  findGrade data gradeKey = Some grade ->
  renderGrade env v cfg data gradeKey p
  = let p1 := setInnerHTML "#grade-subtitle"
                (gradeSubtitleHtml env v (sumStudentsInGrade grade) (label grade))
                (safeText "#grade-title" (label grade) (setGradeAccent gradeKey p)) in
    match qs "#groups" p with
    | None => Returns p1
    | Some _ =>
        let built := completed (cardOf env v gradeKey) (orEmpty (groups grade)) in
        let filled := appendFragment "#groups" (fst <$> built.1) (setInnerHTML "#groups" "" p1) in
        match built.2 with
        | Some e =>
            Throws e match v with
                     | TtlCache => setInnerHTML "#groups" "" p1
                     | _ => filled
                     end
        | None =>
            Returns (setTitle (title cfg)
                       (setHref "#back" "index.html" (prefetch (snd <$> built.1) filled)))
        end
    end.
Proof.
  intros Hgrade. unfold renderGrade. rewrite Hgrade. cbv zeta.
  replace (qs "#groups"
             (setInnerHTML "#grade-subtitle"
                (gradeSubtitleHtml env v (sumStudentsInGrade grade) (label grade))
                (safeText "#grade-title" (label grade) (setGradeAccent gradeKey p))))
    with (qs "#groups" p) by (page_simpl; reflexivity).
  destruct (qs "#groups" p); [| reflexivity].
  assert (Hplain : forall w q,
             forOf (fun '(p, urls) grp =>
                      match groupUrl env gradeKey (id grp) with
                      | Throw e => Throw e
                      | Ok url =>
                          Ok (appendChild "#groups" (groupCard env w url grp) p,
                              urls ++ [resolveHref env url])
                      end)
                   (orEmpty (groups grade)) (q, [])
             = (appendFragment "#groups"
                  (fst <$> (completed (cardOf env w gradeKey) (orEmpty (groups grade))).1) q,
                snd <$> (completed (cardOf env w gradeKey) (orEmpty (groups grade))).1,
                (completed (cardOf env w gradeKey) (orEmpty (groups grade))).2)).
  { intros w q.
    rewrite (forOf_completed (cardOf env w gradeKey)
               (fun '(p, urls) '(card, u) => (appendChild "#groups" card p, urls ++ [u]))).
    - rewrite fold_pairs_append. reflexivity.
    - intros [q' urls] grp. unfold cardOf.
      destruct (groupUrl env gradeKey (id grp)); reflexivity. }
  destruct v.
  - rewrite Hplain. destruct (completed _ _) as [ys [thrown|]]; reflexivity.
  - rewrite (forOf_completed (cardOf env TtlCache gradeKey)
               (fun '(frag, urls) '(card, u) => (frag ++ [card], urls ++ [u]))).
    + rewrite fold_pairs_fragment. destruct (completed _ _) as [ys [thrown|]]; reflexivity.
    + intros [frag urls] grp. unfold cardOf.
      destruct (groupUrl env gradeKey (id grp)); reflexivity.
  - rewrite Hplain. destruct (completed _ _) as [ys [thrown|]]; reflexivity.
Qed.

Lemma completed_cards (env : JsEnv) (v : Variant) (gradeKey : string) (grade : Grade) :
  wellFormedGroups gradeKey grade ->
  completed (cardOf env v gradeKey) (orEmpty (groups grade))
  = ((fun grp => (cardFor env v gradeKey grp, cardLink env gradeKey grp))
       <$> orEmpty (groups grade), None).
Proof.
  intros [Hk Hids]. apply completed_Ok. intros grp Hgrp.
  apply cardOf_Ok; [exact Hk | apply Hids, Hgrp].
Qed.

(** [renderGrade] returns when the grade key and the ids of the groups
    encode, and this is the page it leaves. *)
Lemma renderGrade_page (env : JsEnv) (v : Variant) (cfg : Config) (data : Data)
      (gradeKey : string) (p : Page) (grade : Grade) :
  findGrade data gradeKey = Some grade ->
  wellFormedGroups gradeKey grade ->
  renderGrade env v cfg data gradeKey p
  = Returns
      (let p1 := setInnerHTML "#grade-subtitle"
                   (gradeSubtitleHtml env v (sumStudentsInGrade grade) (label grade))
                   (safeText "#grade-title" (label grade) (setGradeAccent gradeKey p)) in
       match qs "#groups" p with
       | None => p1
       | Some _ =>
           setTitle (title cfg)
             (setHref "#back" "index.html"
                (prefetch (cardLink env gradeKey <$> orEmpty (groups grade))
                   (appendFragment "#groups" (cardFor env v gradeKey <$> orEmpty (groups grade))
                      (setInnerHTML "#groups" "" p1))))
       end).
Proof.
  intros Hgrade Hwf. rewrite (renderGrade_resolved _ _ _ _ _ _ _ Hgrade). cbv zeta.
  destruct (qs "#groups" p); [| reflexivity].
  rewrite (completed_cards _ _ _ _ Hwf). simpl fst. simpl snd.
  rewrite <- !list_fmap_compose. reflexivity.
Qed.



Lemma schoolTotalHtml_nonempty (v : Variant) (n : nat) : schoolTotalHtml v n <> "".
Proof. destruct v; discriminate. Qed.

Lemma gradeMetaHtml_nonempty (v : Variant) (n : nat) (l : string) : gradeMetaHtml v n l <> "".
Proof. destruct v; discriminate. Qed.

Lemma gradeSubtitleHtml_nonempty (env : JsEnv) (v : Variant) (n : nat) (l : string) :
  gradeSubtitleHtml env v n l <> "".
Proof. destruct v; discriminate. Qed.

Lemma groupCountHtml_nonempty (env : JsEnv) (v : Variant) (n : nat) (l : string) :
  groupCountHtml env v n l <> "".
Proof. destruct v; discriminate. Qed.

Lemma gradeHref_nonempty (env : JsEnv) (k : string) : gradeHref env k <> "".
Proof. discriminate. Qed.

(** What the home page shows, on a page that has the container. *)
Lemma renderHome_shows (env : JsEnv) (v : Variant) (cfg : Config) (data : Data)
      (p : Page) (container : Element) :
  qs "#grade-buttons" p = Some container ->
  let p' := pageOf (renderHome env v cfg data p) in
  kids <$> qs "#grade-buttons" p' = Some (homeEntry env v data <$> gradeKeys)
  /\ (forall totalEl, qs "#school-total" p = Some totalEl ->
         kids <$> qs "#school-total" p' = Some [Html (schoolTotalHtml v (sumAllStudents data))])
  /\ (forall k, k ∈ gradeKeys -> gradeHref env k ∈ prefetchLinks p')
  /\ (forall u, u ∈ prefetchLinks p' ->
                u ∈ prefetchLinks p \/ exists k, k ∈ gradeKeys /\ u = gradeHref env k).
Proof.
  intros Hc p'. subst p'. rewrite renderHome_pageOf. cbv zeta. rewrite Hc. split_and!.
  - page_simpl. rewrite Hc. reflexivity.
  - intros totalEl Ht. page_simpl. rewrite Ht. simpl.
    rewrite (htmlNodes_nonempty _ (schoolTotalHtml_nonempty _ _)). reflexivity.
  - intros k Hk. unfold appendFragment.
    rewrite prefetchLinks_updateElement, prefetchLinks_prefetch.
    apply fold_prefetchStep_adds; [| apply gradeHref_nonempty].
    apply list_elem_of_fmap. exists k. split; [reflexivity | exact Hk].
  - intros u. unfold appendFragment, setInnerHTML, safeText, setTextContent.
    rewrite prefetchLinks_updateElement, prefetchLinks_prefetch.
    intros Hu. apply fold_prefetchStep_only in Hu as [Hu | Hu].
    + left. rewrite !prefetchLinks_updateElement in Hu. exact Hu.
    + right. apply list_elem_of_fmap in Hu as (k & -> & Hk). eauto.
Qed.

Lemma findGrade_three (g1 g2 g3 : Grade) :
  key g1 = "z" -> key g2 = "h" -> key g3 = "t" ->
  let data := mkData (Some [g1; g2; g3]) in
  findGrade data "z" = Some g1 /\ findGrade data "h" = Some g2 /\ findGrade data "t" = Some g3.
Proof.
  intros H1 H2 H3. unfold findGrade; simpl. rewrite H1, H2, H3. simpl. repeat split.
Qed.

(** C3, as the code has it.  On a page that has the container and the
    total, [renderHome] leaves exactly three entries, one for each of
    the fixed keys [z], [h], [t] in that order: the entry of the first
    grade of the roster that has the key, with its label and computed
    size, or an entry with the label "שכבה" and the size 0 when the
    roster has no such grade.  The total shows the school size, and the
    head has a prefetch hint for the grade page of each of the three
    keys, and no other new hint.  When the keys of the roster are
    exactly [z], [h], [t], this is one entry per grade of the roster. *)
Theorem renderHome_fixed_keys (env : JsEnv) (v : Variant) (cfg : Config) (data : Data)
        (p : Page) (container totalEl : Element) :
  qs "#grade-buttons" p = Some container ->
  qs "#school-total" p = Some totalEl ->
  let p' := pageOf (renderHome env v cfg data p) in
  exists entries,
    kids <$> qs "#grade-buttons" p' = Some entries
    /\ entries
       = (fun k => gradeEntry env v (default (mkGrade k "שכבה" None) (findGrade data k)))
           <$> ["z"; "h"; "t"]
    /\ kids <$> qs "#school-total" p' = Some [Html (schoolTotalHtml v (sumAllStudents data))]
    /\ (forall k, k ∈ ["z"; "h"; "t"] ->
                  ("grade.html?g=" +:+ encodeURIComponent env k) ∈ prefetchLinks p')
    /\ (forall u, u ∈ prefetchLinks p' ->
                  u ∈ prefetchLinks p
                  \/ exists k, k ∈ ["z"; "h"; "t"]
                               /\ u = "grade.html?g=" +:+ encodeURIComponent env k)
    /\ (key <$> orEmpty (grades data) = ["z"; "h"; "t"] ->
        entries = gradeEntry env v <$> orEmpty (grades data)).
Proof.
  intros Hc Ht p'.
  destruct (renderHome_shows env v cfg data p container Hc)
    as (Hentries & Htotal & Hlinks & Honly).
  fold p' in Hentries, Htotal, Hlinks, Honly.
  exists (homeEntry env v data <$> gradeKeys). split_and!.
  - exact Hentries.
  - reflexivity.
  - apply (Htotal totalEl Ht).
  - intros k Hk. apply (Hlinks k Hk).
  - intros u Hu. apply (Honly u Hu).
  - intros Hkeys. destruct data as [[gs|]]; simpl in Hkeys; [| discriminate].
    destruct gs as [|g1 [|g2 [|g3 [|g4 gs]]]]; try discriminate.
    injection Hkeys as H1 H2 H3.
    destruct (findGrade_three g1 g2 g3 H1 H2 H3) as (F1 & F2 & F3).
    unfold gradeKeys, homeEntry. simpl. rewrite F1, F2, F3. reflexivity.
Qed.

Lemma renderHome_fixed_keys_witness :
  let p' := pageOf (renderHome sampleEnv TtlCache sampleConfig sampleData samplePage) in
  exists entries,
    kids <$> qs "#grade-buttons" p' = Some entries
    /\ entries
       = (fun k => gradeEntry sampleEnv TtlCache
                     (default (mkGrade k "שכבה" None) (findGrade sampleData k)))
           <$> ["z"; "h"; "t"]
    /\ kids <$> qs "#school-total" p'
       = Some [Html (schoolTotalHtml TtlCache (sumAllStudents sampleData))]
    /\ (forall k, k ∈ ["z"; "h"; "t"] ->
                  ("grade.html?g=" +:+ encodeURIComponent sampleEnv k) ∈ prefetchLinks p')
    /\ (forall u, u ∈ prefetchLinks p' ->
                  u ∈ prefetchLinks samplePage
                  \/ exists k, k ∈ ["z"; "h"; "t"]
                               /\ u = "grade.html?g=" +:+ encodeURIComponent sampleEnv k)
    /\ (key <$> orEmpty (grades sampleData) = ["z"; "h"; "t"] ->
        entries = gradeEntry sampleEnv TtlCache <$> orEmpty (grades sampleData)).
Proof.
  apply (renderHome_fixed_keys sampleEnv TtlCache sampleConfig sampleData samplePage
           blank blank); reflexivity.
Defined.

(** C3, as the specification words it, fails: for a roster whose only
    grade has the key [y], the home page has three entries and none for
    that grade, and no prefetch hint for its page. *)
Lemma renderHome_not_per_roster_grade :
  let p' := pageOf (renderHome sampleEnv Plain sampleConfig otherData samplePage) in
  kids <$> qs "#grade-buttons" p'
  <> Some (gradeEntry sampleEnv Plain <$> orEmpty (grades otherData))
  /\ length <$> (kids <$> qs "#grade-buttons" p') = Some 3
  /\ length (orEmpty (grades otherData)) = 1
  /\ prefetchLinks p' = ["grade.html?g=z"; "grade.html?g=h"; "grade.html?g=t"].
Proof.
  cbv zeta. split_and!.
  - intros H. vm_compute in H. discriminate H.
  - vm_compute. reflexivity.
  - reflexivity.
  - vm_compute. reflexivity.
Qed.

(** ** A roster without students *)









(** Outside the data model: a group whose id is a surrogate without its
    partner is no identifier, and [encodeURIComponent] throws on it,
    with or without students.  The plain variant has then appended the
    card of the group before it and no other, the TTL variant none;
    neither has set the back link or the document title. *)
Example renderGrade_id_that_does_not_encode :
  (exists p',
      renderGrade sampleEnv Plain sampleConfig brokenIdData "z" samplePage = Throws URIError p'
      /\ length <$> (kids <$> qs "#groups" p') = Some 1
      /\ href <$> qs "#back" p' = Some ""
      /\ docTitle p' = "")
  /\ (exists p',
         renderGrade sampleEnv TtlCache sampleConfig brokenIdData "z" samplePage
         = Throws URIError p'
         /\ kids <$> qs "#groups" p' = Some []).
Proof.
  split.
  - exists (pageOf (renderGrade sampleEnv Plain sampleConfig brokenIdData "z" samplePage)).
    split_and!; vm_compute; reflexivity.
  - exists (pageOf (renderGrade sampleEnv TtlCache sampleConfig brokenIdData "z" samplePage)).
    split_and!; vm_compute; reflexivity.
Qed.

(** ** The data fetcher *)

Lemma ttl_entry_read (env : LoadEnv) (st : Storage) (ts : Z) (cfg data : JSON) :
  ttlEntry env st ts cfg data ->
  exists props,
    TtlLoader.readSessionJSON env TtlLoader.SESSION_CACHE_KEY st = JObj props
    /\ props !! "ts" = Some (JNum ts)
    /\ props !! "cfg" = Some cfg
    /\ props !! "data" = Some data
    /\ truthy cfg = true
    /\ truthy data = true.
Proof.
  intros (Hacc & raw & props & Hraw & Hne & Hparse & Hts & Hcfg & Hdata & Tcfg & Tdata).
  exists props. split; [| repeat split; assumption].
  unfold TtlLoader.readSessionJSON, getItem. rewrite Hacc, Hraw.
  destruct (String.eqb_spec raw ""); [contradiction |].
  rewrite Hparse. reflexivity.
Qed.

Lemma ttl_cachedPair_fresh (now ts : Z) (props : gmap string JSON) (cfg data : JSON) :
  props !! "ts" = Some (JNum ts) ->
  props !! "cfg" = Some cfg ->
  props !! "data" = Some data ->
  truthy cfg = true ->
  truthy data = true ->
  TtlLoader.cachedPair now (JObj props)
  = if (now - ts <=? TtlLoader.SESSION_CACHE_TTL_MS)%Z then Some (cfg, data) else None.
Proof.
  intros Hts Hcfg Hdata Tcfg Tdata.
  unfold TtlLoader.cachedPair, numberProp, truthyProp, getProp. simpl.
  rewrite Hts, Hcfg, Hdata, Tcfg, Tdata. simpl.
  destruct (now - ts <=? TtlLoader.SESSION_CACHE_TTL_MS)%Z; reflexivity.
Qed.

Lemma ttl_absent_read (env : LoadEnv) (st : Storage) :
  items st !! TtlLoader.SESSION_CACHE_KEY = None ->
  TtlLoader.readSessionJSON env TtlLoader.SESSION_CACHE_KEY st = JNull.
Proof.
  intros Habsent. unfold TtlLoader.readSessionJSON, getItem.
  destruct (accessible st); [rewrite Habsent |]; reflexivity.
Qed.

(** On a miss the TTL variant sends the two requests, whatever follows. *)
Lemma ttl_miss_requests (env : LoadEnv) (clock : Clock) (st : Storage) :
  TtlLoader.cachedPair (loadTime clock)
    (TtlLoader.readSessionJSON env TtlLoader.SESSION_CACHE_KEY st) = None ->
  let bust := "?v=" +:+ Number_toString env (fst (TtlLoader.getSessionBust env (bustTime clock) st)) in
  requests (TtlLoader.loadAll env clock st)
  = [mkRequest ("data/config.json" +:+ bust) (Some "no-cache");
     mkRequest ("data/data.json" +:+ bust) (Some "no-cache")].
Proof.
  intros Hmiss. unfold TtlLoader.loadAll. cbv zeta. rewrite Hmiss.
  destruct (TtlLoader.getSessionBust env (bustTime clock) st) as [token st'].
  simpl fst.
  destruct (promiseAll2 _ _) as [[cfgRes dataRes]|e]; [| reflexivity].
  destruct (negb (ok cfgRes)); [reflexivity |].
  destruct (negb (ok dataRes)); [reflexivity |].
  destruct (json env cfgRes); [| reflexivity].
  destruct (json env dataRes); reflexivity.
Qed.

Lemma twoKey_miss_requests (env : LoadEnv) (st : Storage) :
  TwoKeyLoader.cachedPair env st = None ->
  requests (TwoKeyLoader.loadAll env st)
  = [mkRequest "data/config.json" (Some "force-cache");
     mkRequest "data/data.json" (Some "force-cache")].
Proof.
  intros Hmiss. unfold TwoKeyLoader.loadAll. rewrite Hmiss.
  destruct (promiseAll2 _ _) as [[cfgRes dataRes]|e]; [| reflexivity].
  destruct (negb (ok cfgRes) || negb (ok dataRes)); [reflexivity |].
  destruct (json env cfgRes); [| reflexivity].
  destruct (json env dataRes); reflexivity.
Qed.

(** C6.  In the TTL variant, when the session cache holds an entry with
    both documents whose time stamp is at most 90 seconds before the
    current time, [loadAll] returns the cached pair, sends no request and
    leaves the storage as it is; when the entry is absent, or older than
    90 seconds, it sends the two requests.  In the two-key variant, when
    the cache holds both documents, [loadAll] returns them and sends no
    request; when one of them is absent, it sends the two requests. *)
Theorem loadAll_cache (env : LoadEnv) (st : Storage) :
  (forall clock ts cfg data,
      ttlEntry env st ts cfg data ->
      (loadTime clock - ts <= 90 * 1000)%Z ->
      TtlLoader.loadAll env clock st = mkLoaded (Ok (cfg, data)) st [])
  /\ (forall clock,
         items st !! TtlLoader.SESSION_CACHE_KEY = None
         \/ (exists ts cfg data,
                ttlEntry env st ts cfg data /\ (loadTime clock - ts > 90 * 1000)%Z) ->
         let bust :=
           "?v=" +:+ Number_toString env (fst (TtlLoader.getSessionBust env (bustTime clock) st)) in
         requests (TtlLoader.loadAll env clock st)
         = [mkRequest ("data/config.json" +:+ bust) (Some "no-cache");
            mkRequest ("data/data.json" +:+ bust) (Some "no-cache")])
  /\ (forall cfg data,
         twoKeyEntry env st cfg data ->
         TwoKeyLoader.loadAll env st = mkLoaded (Ok (cfg, data)) st [])
  /\ (items st !! TwoKeyLoader.CACHE_CFG_KEY = None
      \/ items st !! TwoKeyLoader.CACHE_DATA_KEY = None ->
      requests (TwoKeyLoader.loadAll env st)
      = [mkRequest "data/config.json" (Some "force-cache");
         mkRequest "data/data.json" (Some "force-cache")]).
Proof.
  split_and!.
  - intros clock ts cfg data Hentry Hfresh.
    destruct (ttl_entry_read env st ts cfg data Hentry)
      as (props & Hread & Hts & Hcfg & Hdata & Tcfg & Tdata).
    unfold TtlLoader.loadAll. cbv zeta. rewrite Hread.
    rewrite (ttl_cachedPair_fresh _ ts props cfg data Hts Hcfg Hdata Tcfg Tdata).
    replace (loadTime clock - ts <=? TtlLoader.SESSION_CACHE_TTL_MS)%Z with true; [reflexivity |].
    symmetry. apply Z.leb_le. exact Hfresh.
  - intros clock Hmiss. apply ttl_miss_requests.
    destruct Hmiss as [Habsent | (ts & cfg & data & Hentry & Hold)].
    + rewrite (ttl_absent_read env st Habsent). reflexivity.
    + destruct (ttl_entry_read env st ts cfg data Hentry)
        as (props & Hread & Hts & Hcfg & Hdata & Tcfg & Tdata).
      rewrite Hread.
      rewrite (ttl_cachedPair_fresh _ ts props cfg data Hts Hcfg Hdata Tcfg Tdata).
      replace (loadTime clock - ts <=? TtlLoader.SESSION_CACHE_TTL_MS)%Z with false;
        [reflexivity |].
      symmetry. apply Z.leb_gt. unfold TtlLoader.SESSION_CACHE_TTL_MS. lia.
  - intros cfg data (Hacc & rawCfg & rawData & Hc & Hd & Hcne & Hdne & Pc & Pd).
    unfold TwoKeyLoader.loadAll, TwoKeyLoader.cachedPair, getItem.
    rewrite Hacc, Hc, Hd.
    destruct (String.eqb_spec rawCfg ""); [contradiction |].
    destruct (String.eqb_spec rawData ""); [contradiction |].
    simpl. rewrite Pc, Pd. reflexivity.
  - intros Habsent. apply twoKey_miss_requests.
    unfold TwoKeyLoader.cachedPair, getItem.
    destruct (accessible st); [| reflexivity].
    destruct Habsent as [H | H]; rewrite H; [reflexivity |].
    destruct (items st !! TwoKeyLoader.CACHE_CFG_KEY); reflexivity.
Qed.

(** The cache of each variant as an earlier load at time 1000 left it,
    read back at time 60000 and at time 100000, and the empty cache. *)
Lemma loadAll_cache_witness :
  let env := sampleLoadEnv (mkResponse true 200 "{data}") in
  TtlLoader.loadAll env (mkClock 60000 60001) ttlStorage
  = mkLoaded (Ok (sampleCfgJSON, sampleDataJSON)) ttlStorage []
  /\ requests (TtlLoader.loadAll env (mkClock 100000 100002) ttlStorage)
     = [mkRequest "data/config.json?v=100002" (Some "no-cache");
        mkRequest "data/data.json?v=100002" (Some "no-cache")]
  /\ TwoKeyLoader.loadAll env twoKeyStorage
     = mkLoaded (Ok (sampleCfgJSON, sampleDataJSON)) twoKeyStorage []
  /\ requests (TwoKeyLoader.loadAll env emptyStorage)
     = [mkRequest "data/config.json" (Some "force-cache");
        mkRequest "data/data.json" (Some "force-cache")].
Proof.
  intros env.
  assert (Hentry : ttlEntry env ttlStorage 1000 sampleCfgJSON sampleDataJSON).
  { split; [reflexivity |].
    exists "{entry}", (<["ts" := JNum 1000]> (<["cfg" := sampleCfgJSON]> (<["data" := sampleDataJSON]> ∅))).
    split_and!; try reflexivity. discriminate. }
  destruct (loadAll_cache env ttlStorage) as (Hhit & Hmiss & _ & _).
  destruct (loadAll_cache env twoKeyStorage) as (_ & _ & Hboth & _).
  destruct (loadAll_cache env emptyStorage) as (_ & _ & _ & Hnone).
  split_and!.
  - apply (Hhit (mkClock 60000 60001) 1000%Z sampleCfgJSON sampleDataJSON Hentry). simpl. lia.
  - rewrite (Hmiss (mkClock 100000 100002)).
    + reflexivity.
    + right. exists 1000%Z, sampleCfgJSON, sampleDataJSON. split; [exact Hentry | simpl; lia].
  - apply Hboth. split; [reflexivity |].
    exists "{cfg}", "{data}". split_and!; try reflexivity; discriminate.
  - apply Hnone. left. reflexivity.
Defined.

Lemma plain_requests (env : LoadEnv) (st : Storage) :
  requests (PlainLoader.loadAll env st)
  = [mkRequest "data/config.json" None; mkRequest "data/data.json" None].
Proof.
  unfold PlainLoader.loadAll. cbv zeta.
  destruct (promiseAll2 _ _) as [[cfgRes dataRes]|e]; [| reflexivity].
  destruct (negb (ok cfgRes) || negb (ok dataRes)); [reflexivity |].
  destruct (json env cfgRes); [| reflexivity].
  destruct (json env dataRes); reflexivity.
Qed.

(** A variant that sent requests did not find its documents in the cache. *)
Lemma ttl_sent_miss (env : LoadEnv) (clock : Clock) (st : Storage) :
  requests (TtlLoader.loadAll env clock st) <> [] ->
  TtlLoader.cachedPair (loadTime clock)
    (TtlLoader.readSessionJSON env TtlLoader.SESSION_CACHE_KEY st) = None.
Proof.
  unfold TtlLoader.loadAll. cbv zeta.
  destruct (TtlLoader.cachedPair _ _); [simpl; congruence | reflexivity].
Qed.

Lemma twoKey_sent_miss (env : LoadEnv) (st : Storage) :
  requests (TwoKeyLoader.loadAll env st) <> [] -> TwoKeyLoader.cachedPair env st = None.
Proof.
  unfold TwoKeyLoader.loadAll.
  destruct (TwoKeyLoader.cachedPair _ _); [simpl; congruence | reflexivity].
Qed.

(** Settles the outcome of a load once the two responses are known. *)
Ltac settle_load :=
  unfold json;
  repeat match goal with
         | H : ok _ = _ |- _ => rewrite H
         | H : JSON_parse _ _ = None |- _ => rewrite H
         end;
  simpl;
  repeat match goal with
         | |- context [negb (ok ?r)] => destruct (ok r); simpl
         | |- context [JSON_parse ?e ?b] => destruct (JSON_parse e b); simpl
         end;
  try discriminate;
  eexists; split_and!; reflexivity.

(** C7.  In every variant, once the two requests of a load are answered:
    if one of the two responses is not successful, the load fails with a
    "fetch failed" error and returns no document; if both are successful
    and one of the bodies does not parse, the load fails with a "parse
    failed" error, which is not a "fetch failed" error. *)
Theorem loadAll_failures (v : Variant) (env : LoadEnv) (clock : Clock) (st : Storage)
        (reqCfg reqData : Request) (t1 t2 : Z) (cfgRes dataRes : Response) :
  requests (loadAll v env clock st) = [reqCfg; reqData] ->
  network env reqCfg = Answers t1 cfgRes ->
  network env reqData = Answers t2 dataRes ->
  (v = TtlCache -> (t1 <= 12000)%Z /\ (t2 <= 12000)%Z) ->
  let r := result (loadAll v env clock st) in
  (ok cfgRes = false \/ ok dataRes = false ->
   exists e, r = Throw e /\ fetchFailed e = true)
  /\ (ok cfgRes = true -> ok dataRes = true ->
      JSON_parse env (body cfgRes) = None \/ JSON_parse env (body dataRes) = None ->
      exists e, r = Throw e /\ parseFailed e = true /\ fetchFailed e = false).
Proof.
  intros Hsent Hcfg Hdata Htime r. subst r. destruct v; simpl in *.
  - rewrite plain_requests in Hsent. injection Hsent as <- <-.
    unfold PlainLoader.loadAll, fetch, CONFIG_URL, DATA_URL.
    rewrite Hcfg, Hdata. cbv zeta. simpl promiseAll2.
    split; [intros [Hok | Hok] | intros Hok1 Hok2 [Hp | Hp]]; settle_load.
  - assert (Hmiss := ttl_sent_miss env clock st ltac:(rewrite Hsent; discriminate)).
    rewrite (ttl_miss_requests env clock st Hmiss) in Hsent. cbv zeta in Hsent.
    injection Hsent as <- <-.
    destruct (Htime eq_refl) as [Ht1 Ht2].
    apply Z.leb_le in Ht1, Ht2.
    unfold TtlLoader.loadAll. cbv zeta. rewrite Hmiss.
    destruct (TtlLoader.getSessionBust env (bustTime clock) st) as [token st'].
    simpl fst in *. unfold TtlLoader.fetchWithTimeout, CONFIG_URL, DATA_URL.
    rewrite Hcfg, Hdata. unfold TtlLoader.FETCH_TIMEOUT_MS. rewrite Ht1, Ht2.
    simpl promiseAll2.
    split; [intros [Hok | Hok] | intros Hok1 Hok2 [Hp | Hp]]; settle_load.
  - assert (Hmiss := twoKey_sent_miss env st ltac:(rewrite Hsent; discriminate)).
    rewrite (twoKey_miss_requests env st Hmiss) in Hsent. injection Hsent as <- <-.
    unfold TwoKeyLoader.loadAll, fetch, CONFIG_URL, DATA_URL.
    rewrite Hmiss, Hcfg, Hdata. cbv zeta.
    simpl promiseAll2.
    split; [intros [Hok | Hok] | intros Hok1 Hok2 [Hp | Hp]]; settle_load.
Qed.

(** The roster is refused with status 404 while the configuration is
    served, in the TTL variant with an empty cache at time 5000. *)
Lemma loadAll_failures_witness :
  let env := sampleLoadEnv (mkResponse false 404 "") in
  let r := result (loadAll TtlCache env (mkClock 5000 5000) emptyStorage) in
  (ok (mkResponse true 200 "{cfg}") = false \/ ok (mkResponse false 404 "") = false ->
   exists e, r = Throw e /\ fetchFailed e = true)
  /\ (ok (mkResponse true 200 "{cfg}") = true -> ok (mkResponse false 404 "") = true ->
      JSON_parse env (body (mkResponse true 200 "{cfg}")) = None
      \/ JSON_parse env (body (mkResponse false 404 "")) = None ->
      exists e, r = Throw e /\ parseFailed e = true /\ fetchFailed e = false).
Proof.
  apply (loadAll_failures TtlCache (sampleLoadEnv (mkResponse false 404 ""))
           (mkClock 5000 5000) emptyStorage
           (mkRequest "data/config.json?v=5000" (Some "no-cache"))
           (mkRequest "data/data.json?v=5000" (Some "no-cache"))
           20 30 (mkResponse true 200 "{cfg}") (mkResponse false 404 "")).
  - reflexivity.
  - reflexivity.
  - reflexivity.
  - intros _. split; lia.
Defined.

(** The errors of the three variants, evaluated: a refused roster, and a
    roster whose body is not JSON. *)
Example loadAll_failures_sample :
  result (loadAll Plain (sampleLoadEnv (mkResponse false 404 "")) (mkClock 5000 5000) emptyStorage)
  = Throw (JsError "fetch failed")
  /\ result (loadAll TtlCache (sampleLoadEnv (mkResponse false 404 "")) (mkClock 5000 5000) emptyStorage)
     = Throw (JsError "data fetch failed (404)")
  /\ result (loadAll TwoKey (sampleLoadEnv (mkResponse false 404 "")) (mkClock 5000 5000) emptyStorage)
     = Throw (JsError "fetch failed")
  /\ result (loadAll Plain (sampleLoadEnv (mkResponse true 200 "<html>")) (mkClock 5000 5000) emptyStorage)
     = Throw SyntaxError
  /\ result (loadAll TtlCache (sampleLoadEnv (mkResponse true 200 "<html>")) (mkClock 5000 5000) emptyStorage)
     = Throw (JsError "data json parse failed")
  /\ result (loadAll TwoKey (sampleLoadEnv (mkResponse true 200 "<html>")) (mkClock 5000 5000) emptyStorage)
     = Throw SyntaxError.
Proof. vm_compute. repeat split. Qed.

(** ** The navigation helper *)

Lemma fastNavListener_Leave (d : Z) (loc : Location) (ev : ClickEvent) (d' : Z) (dest : string) :
  fastNavListener d loc ev = Leave d' dest
  <-> d' = d
      /\ exists a url,
          anchor ev = Some a
          /\ defaultPrevented ev = false
          /\ button ev = 0%Z
          /\ metaKey ev = false /\ ctrlKey ev = false
          /\ shiftKey ev = false /\ altKey ev = false
          /\ (target a = "" \/ target a = "_self")
          /\ download a = false
          /\ hrefAttr a <> ""
          /\ startsWith "#" (hrefAttr a) = false
          /\ parseURL loc (hrefAttr a) = Some url
          /\ origin url = locationOrigin loc
          /\ endsWith ".html" (pathname url) = true
          /\ dest = urlHref url.
Proof.
  unfold fastNavListener. split.
  - destruct (anchor ev) as [a|]; [| discriminate].
    destruct (defaultPrevented ev); [discriminate |].
    destruct (Z.eqb_spec (button ev) 0); [| discriminate]. simpl.
    destruct (metaKey ev); [discriminate |].
    destruct (ctrlKey ev); [discriminate |].
    destruct (shiftKey ev); [discriminate |].
    destruct (altKey ev); [discriminate |]. simpl.
    destruct (negb (String.eqb (target a) "") && negb (String.eqb (target a) "_self"))
      eqn:Htarget; [discriminate |].
    destruct (download a) eqn:Hdown; [discriminate |].
    destruct (String.eqb_spec (hrefAttr a) ""); [discriminate |]. simpl.
    destruct (startsWith "#" (hrefAttr a)) eqn:Hfrag; [discriminate |].
    destruct (parseURL loc (hrefAttr a)) as [url|] eqn:Hurl; [| discriminate].
    destruct (String.eqb_spec (origin url) (locationOrigin loc)); [| discriminate]. simpl.
    destruct (endsWith ".html" (pathname url)) eqn:Hpath; [| discriminate]. simpl.
    intros [= <- <-]. split; [reflexivity |].
    exists a, url. split_and!; try reflexivity; try assumption.
    apply andb_false_iff in Htarget as [H | H]; apply negb_false_iff, String.eqb_eq in H; auto.
  - intros (-> & a & url & Ha & Hp & Hb & Hm & Hc & Hs & Hal & Ht & Hd & Hne & Hfrag
            & Hurl & Ho & Hpath & ->).
    rewrite Ha, Hp, Hb, Hm, Hc, Hs, Hal, Hd. simpl.
    replace (negb (String.eqb (target a) "") && negb (String.eqb (target a) "_self"))
      with false by (destruct Ht as [-> | ->]; reflexivity).
    destruct (String.eqb_spec (hrefAttr a) ""); [contradiction |]. simpl.
    rewrite Hfrag, Hurl, Ho, String.eqb_refl, Hpath. reflexivity.
Qed.

(** C8.  The listener leaves the page by itself (default navigation
    suppressed, programmatic navigation after the delay of the variant,
    60 ms or 120 ms) exactly when the click has the primary button and no
    modifier key, is not already handled, and its anchor has no target
    other than [_self], no download attribute, and an href that is not
    empty, not a fragment, and resolves to an [.html] page of the origin
    of the site.  Clicks on anchors with another target, on download
    links, on fragment links and on links to another origin pass
    through. *)
Theorem installFastNav_intercepts (loc : Location) (ev : ClickEvent) :
  installFastNav TtlCache loc ev = fastNavListener 60 loc ev
  /\ installFastNav TwoKey loc ev = fastNavListener 120 loc ev
  /\ (forall d d' dest,
         fastNavListener d loc ev = Leave d' dest
         <-> d' = d
             /\ exists a url,
                 anchor ev = Some a
                 /\ defaultPrevented ev = false
                 /\ button ev = 0%Z
                 /\ metaKey ev = false /\ ctrlKey ev = false
                 /\ shiftKey ev = false /\ altKey ev = false
                 /\ (target a = "" \/ target a = "_self")
                 /\ download a = false
                 /\ hrefAttr a <> ""
                 /\ startsWith "#" (hrefAttr a) = false
                 /\ parseURL loc (hrefAttr a) = Some url
                 /\ origin url = locationOrigin loc
                 /\ endsWith ".html" (pathname url) = true
                 /\ dest = urlHref url)
  /\ (forall d a,
         anchor ev = Some a ->
         (target a <> "" /\ target a <> "_self")
         \/ download a = true
         \/ startsWith "#" (hrefAttr a) = true
         \/ (exists url, parseURL loc (hrefAttr a) = Some url
                         /\ origin url <> locationOrigin loc) ->
         fastNavListener d loc ev = PassThrough).
Proof.
  split_and!.
  - reflexivity.
  - reflexivity.
  - intros d d' dest. apply fastNavListener_Leave.
  - intros d a Ha Hpass.
    destruct (fastNavListener d loc ev) as [| d' dest] eqn:Hact; [reflexivity |].
    apply fastNavListener_Leave in Hact
      as (_ & a' & url & Ha' & _ & _ & _ & _ & _ & _ & Ht & Hd & _ & Hfrag & Hurl & Ho & _).
    rewrite Ha in Ha'. injection Ha' as <-.
    destruct Hpass as [[H1 H2] | [H | [H | (url' & Hurl' & Ho')]]].
    + destruct Ht; contradiction.
    + congruence.
    + congruence.
    + rewrite Hurl in Hurl'. injection Hurl' as <-. contradiction.
Qed.

(** Clicks on the sample site: a plain click on a link to a grade page
    leaves after 60 ms, or 120 ms; a download link, a fragment and a
    link to another origin pass through. *)
Lemma installFastNav_intercepts_witness :
  let internal := mkAnchor "" false "grade.html?g=z" in
  installFastNav TtlCache sampleLocation (plainClick internal)
  = Leave 60 "http://localhost:8000/grade.html?g=z"
  /\ installFastNav TwoKey sampleLocation (plainClick internal)
     = Leave 120 "http://localhost:8000/grade.html?g=z"
  /\ installFastNav TwoKey sampleLocation
       (plainClick (mkAnchor "" true "grade.html?g=z")) = PassThrough
  /\ installFastNav TwoKey sampleLocation (plainClick (mkAnchor "" false "#top")) = PassThrough
  /\ installFastNav TtlCache sampleLocation
       (plainClick (mkAnchor "" false "https://example.org/a.html")) = PassThrough.
Proof.
  intros internal.
  assert (Hleave : forall d,
             fastNavListener d sampleLocation (plainClick internal)
             = Leave d "http://localhost:8000/grade.html?g=z").
  { intros d.
    apply (proj1 (proj2 (proj2 (installFastNav_intercepts sampleLocation (plainClick internal))))).
    split; [reflexivity |].
    exists internal,
      (mkURL "http://localhost:8000" "/grade.html" "http://localhost:8000/grade.html?g=z").
    split_and!; try reflexivity; [left; reflexivity | discriminate]. }
  split_and!.
  - rewrite (proj1 (installFastNav_intercepts sampleLocation (plainClick internal))).
    apply Hleave.
  - rewrite (proj1 (proj2 (installFastNav_intercepts sampleLocation (plainClick internal)))).
    apply Hleave.
  - set (ev := plainClick (mkAnchor "" true "grade.html?g=z")).
    destruct (installFastNav_intercepts sampleLocation ev) as (_ & -> & _ & Hpass).
    apply (Hpass 120%Z (mkAnchor "" true "grade.html?g=z") eq_refl).
    right. left. reflexivity.
  - set (ev := plainClick (mkAnchor "" false "#top")).
    destruct (installFastNav_intercepts sampleLocation ev) as (_ & -> & _ & Hpass).
    apply (Hpass 120%Z (mkAnchor "" false "#top") eq_refl).
    right. right. left. reflexivity.
  - set (ev := plainClick (mkAnchor "" false "https://example.org/a.html")).
    destruct (installFastNav_intercepts sampleLocation ev) as (-> & _ & _ & Hpass).
    apply (Hpass 60%Z (mkAnchor "" false "https://example.org/a.html") eq_refl).
    right. right. right.
    exists (mkURL "https://example.org" "/a.html" "https://example.org/a.html").
    split; [reflexivity | discriminate].
Defined.

(** More clicks, evaluated: the plain variant installs no listener; a
    click with the control key, with the middle button, or on a link
    that opens a new tab passes through. *)
Example installFastNav_sample :
  let internal := mkAnchor "" false "grade.html?g=z" in
  installFastNav Plain sampleLocation (plainClick internal) = PassThrough
  /\ installFastNav TtlCache sampleLocation
       (mkClickEvent (Some internal) false 0 false true false false) = PassThrough
  /\ installFastNav TtlCache sampleLocation
       (mkClickEvent (Some internal) false 1 false false false false) = PassThrough
  /\ installFastNav TtlCache sampleLocation
       (plainClick (mkAnchor "_blank" false "grade.html?g=z")) = PassThrough.
Proof. vm_compute. repeat split. Qed.

(** * Further properties of the code *)

(** ** Lookups: first match and unique keys *)

Lemma js_find_first {A : Type} (p : A -> bool) (xs : list A) (x : A) :
  js_find p xs = Some x
  <-> exists pre post, xs = pre ++ x :: post /\ p x = true /\ Forall (fun y => p y = false) pre.
Proof.
  split.
  - induction xs as [|y xs IH]; simpl; [discriminate |].
    destruct (p y) eqn:Hy.
    + intros [= ->]. exists [], xs. repeat split; [assumption | constructor].
    + intros H. destruct (IH H) as (pre & post & -> & Hx & Hpre).
      exists (y :: pre), post. repeat split; [assumption | constructor; assumption].
  - intros (pre & post & -> & Hx & Hpre).
    induction Hpre as [|y pre Hy _ IH]; simpl.
    + rewrite Hx. reflexivity.
    + rewrite Hy. exact IH.
Qed.

Lemma js_find_unique {A : Type} (f : A -> string) (xs : list A) (x : A) :
  NoDup (f <$> xs) -> x ∈ xs -> js_find (fun y => String.eqb (f y) (f x)) xs = Some x.
Proof.
  induction xs as [|y xs IH]; intros Hnd Hin; [inversion Hin |].
  rewrite fmap_cons in Hnd. apply NoDup_cons in Hnd as [Hy Hnd]. simpl.
  apply elem_of_cons in Hin as [-> | Hin].
  - rewrite String.eqb_refl. reflexivity.
  - destruct (String.eqb_spec (f y) (f x)) as [Heq | _].
    + exfalso. apply Hy. rewrite Heq. apply list_elem_of_fmap. eauto.
    + apply IH; assumption.
Qed.

(** X1.  In a roster whose grade keys are pairwise different, every
    grade is the one [findGrade] returns for its key; in a grade whose
    group ids are pairwise different, every group is the one [findGroup]
    returns for its id. *)
Theorem lookup_by_own_key (data : Data) :
  NoDup (key <$> orEmpty (grades data)) ->
  forall g, g ∈ orEmpty (grades data) ->
    findGrade data (key g) = Some g
    /\ (NoDup (id <$> orEmpty (groups g)) ->
        forall gr, gr ∈ orEmpty (groups g) -> findGroup g (id gr) = Some gr).
Proof.
  intros Hkeys g Hg. split.
  - apply (js_find_unique key); assumption.
  - intros Hids gr Hgr. apply (js_find_unique id); assumption.
Qed.

Lemma lookup_by_own_key_witness :
  let gr := mkGroup "h_a" "ח הקבצה א" "" None in
  let g := mkGrade "h" "שכבת ח" (Some [gr]) in
  findGrade emptyData (key g) = Some g
  /\ (NoDup (id <$> orEmpty (groups g)) ->
      forall gr', gr' ∈ orEmpty (groups g) -> findGroup g (id gr') = Some gr').
Proof.
  apply (lookup_by_own_key emptyData).
  - apply (bool_decide_unpack _). vm_compute. exact I.
  - right. left.
Defined.

(** X2.  [findGrade] and [findGroup] return the first element that has
    the key: an element is returned exactly when it has the key and no
    element before it has.  A later element with the same key is never
    returned. *)
Theorem lookup_first_match :
  (forall data gradeKey g,
      findGrade data gradeKey = Some g
      <-> exists pre post,
          orEmpty (grades data) = pre ++ g :: post
          /\ key g = gradeKey
          /\ forall x, x ∈ pre -> key x <> gradeKey)
  /\ (forall grade groupId gr,
         findGroup grade groupId = Some gr
         <-> exists pre post,
             orEmpty (groups grade) = pre ++ gr :: post
             /\ id gr = groupId
             /\ forall x, x ∈ pre -> id x <> groupId).
Proof.
  split.
  - intros data gradeKey g. unfold findGrade. rewrite js_find_first.
    split; intros (pre & post & Heq & Hk & Hpre); exists pre, post;
      (split; [exact Heq |]); rewrite Forall_forall in *.
    + split; [apply String.eqb_eq, Hk |]. intros x Hx. apply String.eqb_neq, Hpre, Hx.
    + split; [apply String.eqb_eq, Hk |]. intros x Hx. apply String.eqb_neq, Hpre, Hx.
  - intros grade groupId gr. unfold findGroup. rewrite js_find_first.
    split; intros (pre & post & Heq & Hk & Hpre); exists pre, post;
      (split; [exact Heq |]); rewrite Forall_forall in *.
    + split; [apply String.eqb_eq, Hk |]. intros x Hx. apply String.eqb_neq, Hpre, Hx.
    + split; [apply String.eqb_eq, Hk |]. intros x Hx. apply String.eqb_neq, Hpre, Hx.
Qed.

(** ** Prefetch hints *)

Lemma existsb_eqb_elem (u : string) (links : list string) :
  existsb (String.eqb u) links = true <-> u ∈ links.
Proof.
  rewrite existsb_exists, list_elem_of_In. split.
  - intros (y & Hy & Heq). apply String.eqb_eq in Heq. subst. exact Hy.
  - intros Hu. exists u. split; [exact Hu | apply String.eqb_refl].
Qed.

Lemma prefetchStep_cases (links : list string) (u : string) :
  (prefetchStep links u = links /\ (u = "" \/ u ∈ links))
  \/ (prefetchStep links u = links ++ [u] /\ u <> "" /\ u ∉ links).
Proof.
  unfold prefetchStep. destruct (String.eqb_spec u "") as [-> | Hu]; simpl.
  - left. split; [reflexivity | left; reflexivity].
  - destruct (existsb (String.eqb u) links) eqn:Hex.
    + left. split; [reflexivity | right; apply existsb_eqb_elem, Hex].
    + right. repeat split; [exact Hu |].
      intros Hin. apply existsb_eqb_elem in Hin. congruence.
Qed.

Lemma fold_prefetchStep_added (urls links : list string) :
  exists added,
    fold_left prefetchStep urls links = links ++ added
    /\ NoDup added
    /\ forall x, x ∈ added <-> x ∈ urls /\ x <> "" /\ x ∉ links.
Proof.
  revert links. induction urls as [|u urls IH]; intros links; simpl.
  - exists []. rewrite app_nil_r. split_and!; [reflexivity | constructor |].
    intros x. split; [intros H; inversion H | intros (H & _); inversion H].
  - destruct (prefetchStep_cases links u) as [(-> & Hskip) | (-> & Hu & Hnew)].
    + destruct (IH links) as (added & Heq & Hnd & Hiff).
      exists added. split_and!; [exact Heq | exact Hnd |].
      intros x. rewrite Hiff, elem_of_cons. split.
      * intros (Hx & Hne & Hnl). auto.
      * intros ([-> | Hx] & Hne & Hnl); [destruct Hskip; contradiction | auto].
    + destruct (IH (links ++ [u])) as (added & Heq & Hnd & Hiff).
      exists (u :: added). split_and!.
      * rewrite Heq, <- app_assoc. reflexivity.
      * apply NoDup_cons. split; [| exact Hnd].
        intros Hin. apply Hiff in Hin as (_ & _ & Hnot). apply Hnot.
        apply elem_of_app. right. left.
      * intros x. rewrite !elem_of_cons, Hiff, elem_of_app, list_elem_of_singleton.
        split.
        -- intros [-> | (Hx & Hne & Hnot)]; [auto |].
           split_and!; [right; exact Hx | exact Hne | intros H; apply Hnot; left; exact H].
        -- intros ([-> | Hx] & Hne & Hnl); [left; reflexivity |].
           destruct (decide (x = u)) as [-> | Hxu]; [left; reflexivity |].
           right. split_and!; [exact Hx | exact Hne |]. intros [H | H]; contradiction.
Qed.

(** X3.  [prefetch] keeps the links of the head in place and adds, after
    them, one link for each URL of the list that is not empty and not
    yet linked, each once: no link is added twice, none with an empty
    href, and the elements and the title of the page are not touched. *)
Theorem prefetch_adds_new_links_once (urls : list string) (p : Page) :
  exists added,
    prefetchLinks (prefetch urls p) = prefetchLinks p ++ added
    /\ NoDup added
    /\ (forall x, x ∈ added <-> x ∈ urls /\ x <> "" /\ x ∉ prefetchLinks p)
    /\ (NoDup (prefetchLinks p) -> NoDup (prefetchLinks (prefetch urls p)))
    /\ elements (prefetch urls p) = elements p
    /\ docTitle (prefetch urls p) = docTitle p
    /\ dataGrade (prefetch urls p) = dataGrade p.
Proof.
  destruct (fold_prefetchStep_added urls (prefetchLinks p)) as (added & Heq & Hnd & Hiff).
  exists added. rewrite prefetchLinks_prefetch. split_and!; try reflexivity; try assumption.
  intros Hold. rewrite Heq. apply NoDup_app. split_and!; [exact Hold | | exact Hnd].
  intros x Hx Hadded. apply Hiff in Hadded as (_ & _ & Hnot). contradiction.
Qed.

Lemma fold_prefetchStep_noop (urls links : list string) :
  (forall u, u ∈ urls -> u = "" \/ u ∈ links) -> fold_left prefetchStep urls links = links.
Proof.
  induction urls as [|u urls IH]; intros Hall; simpl; [reflexivity |].
  destruct (prefetchStep_cases links u) as [(-> & _) | (_ & Hu & Hnew)].
  - apply IH. intros x Hx. apply Hall. right. exact Hx.
  - destruct (Hall u) as [H | H]; [left | contradiction ..].
Qed.

Lemma fold_prefetchStep_twice (urls links : list string) :
  fold_left prefetchStep urls (fold_left prefetchStep urls links)
  = fold_left prefetchStep urls links.
Proof.
  apply fold_prefetchStep_noop. intros u Hu.
  destruct (decide (u = "")) as [-> | Hne]; [left; reflexivity | right].
  apply fold_prefetchStep_adds; assumption.
Qed.

(** X4.  Prefetching the same URLs again adds nothing: [prefetch] is
    idempotent. *)
Theorem prefetch_idempotent (urls : list string) (p : Page) :
  prefetch urls (prefetch urls p) = prefetch urls p.
Proof.
  unfold prefetch. simpl. rewrite fold_prefetchStep_twice. reflexivity.
Qed.

(** ** The grade page and the group page *)

Lemma dataGrade_updateElement (sel : string) (f : Element -> Element) (p : Page) :
  dataGrade (updateElement sel f p) = dataGrade p.
Proof. apply rest_updateElement. Qed.

Lemma docTitle_updateElement (sel : string) (f : Element -> Element) (p : Page) :
  docTitle (updateElement sel f p) = docTitle p.
Proof. apply rest_updateElement. Qed.

Lemma rest_setTitle (t : string) (p : Page) :
  prefetchLinks (setTitle t p) = prefetchLinks p
  /\ dataGrade (setTitle t p) = dataGrade p
  /\ docTitle (setTitle t p) = t.
Proof. repeat split. Qed.

Lemma rest_setGradeAccent (gradeKey : string) (p : Page) :
  prefetchLinks (setGradeAccent gradeKey p) = prefetchLinks p
  /\ dataGrade (setGradeAccent gradeKey p) = Some gradeKey
  /\ docTitle (setGradeAccent gradeKey p) = docTitle p.
Proof. repeat split. Qed.

Lemma rest_prefetch (urls : list string) (p : Page) :
  dataGrade (prefetch urls p) = dataGrade p /\ docTitle (prefetch urls p) = docTitle p.
Proof. repeat split. Qed.

(** Reads the parts of the page that are not elements. *)
Ltac rest_simpl :=
  unfold safeText, setTextContent, setInnerHTML, appendFragment, appendChild,
    setHref, showError, hideError;
  repeat first
    [ rewrite prefetchLinks_updateElement
    | rewrite dataGrade_updateElement
    | rewrite docTitle_updateElement
    | rewrite prefetchLinks_prefetch
    | rewrite (proj1 (rest_prefetch _ _))
    | rewrite (proj2 (rest_prefetch _ _))
    | rewrite (proj1 (rest_setTitle _ _))
    | rewrite (proj1 (proj2 (rest_setTitle _ _)))
    | rewrite (proj2 (proj2 (rest_setTitle _ _)))
    | rewrite (proj1 (rest_setGradeAccent _ _))
    | rewrite (proj1 (proj2 (rest_setGradeAccent _ _)))
    | rewrite (proj2 (proj2 (rest_setGradeAccent _ _))) ].
(** X5.  Once the grade is resolved, on a page that has the groups
    region, for a grade key and group ids that encode, [renderGrade]
    returns and leaves one card per group of the grade, in input order,
    each linking to the group page of its id and showing the name, the
    teacher and the length of the students sequence; the title and the
    subtitle, where the page has them, show the label and the grade
    size; the back link goes to [index.html]; the head gets the
    prefetch hints of the resolved card links; the document title is
    that of the configuration.  In the TTL variant, which writes the
    label and the names as markup before it looks up the groups region
    and the back link, this is stated for labels and names without a
    tag. *)
Theorem renderGrade_cards (env : JsEnv) (v : Variant) (cfg : Config) (data : Data)
        (gradeKey : string) (p : Page) (grade : Grade) (groupsEl : Element) :
  findGrade data gradeKey = Some grade ->
  qs "#groups" p = Some groupsEl ->
  wellFormedGroups gradeKey grade ->
  plainLabels v grade ->
  let gs := orEmpty (groups grade) in
  exists p' cards,
    renderGrade env v cfg data gradeKey p = Returns p'
    /\ kids <$> qs "#groups" p' = Some cards
    /\ length cards = length gs
    /\ (forall i grp,
          gs !! i = Some grp ->
          cards !! i
          = Some (El "a" "groupCard"
                     [("href", "group.html?g=" +:+ encodeURIComponent env gradeKey
                               +:+ "&group=" +:+ encodeURIComponent env (id grp))]
                     [El "p" "groupCard__name" [] (textNodes (name grp));
                      El "p" "groupCard__teacher" [] (textNodes (teacher grp));
                      El "p" "groupCard__count" []
                         [Html (groupCountHtml env v (length (orEmpty (students grp)))
                                               (name grp))]]))
    /\ kids <$> qs "#grade-title" p' = (fun _ => textNodes (label grade)) <$> qs "#grade-title" p
    /\ kids <$> qs "#grade-subtitle" p'
       = (fun _ => [Html (gradeSubtitleHtml env v (sumStudentsInGrade grade) (label grade))])
           <$> qs "#grade-subtitle" p
    /\ href <$> qs "#back" p' = (fun _ => "index.html") <$> qs "#back" p
    /\ prefetchLinks p'
       = prefetchLinks
           (prefetch ((fun grp => resolveHref env (groupHref env gradeKey (id grp))) <$> gs) p)
    /\ docTitle p' = title cfg
    /\ dataGrade p' = Some gradeKey.
Proof.
  intros Hgrade Hg Hwf _ gs.
  rewrite (renderGrade_page _ _ _ _ _ _ _ Hgrade Hwf). cbv zeta. rewrite Hg.
  eexists. exists (cardFor env v gradeKey <$> gs). split; [reflexivity |]. split_and!.
  - page_simpl. rewrite Hg. reflexivity.
  - apply length_fmap.
  - intros i grp Hi. rewrite list_lookup_fmap, Hi. simpl. unfold cardFor, groupCard, createEl.
    rewrite (htmlNodes_nonempty _ (groupCountHtml_nonempty _ _ _ _)). reflexivity.
  - page_simpl. destruct (qs "#grade-title" p); reflexivity.
  - page_simpl. destruct (qs "#grade-subtitle" p); [| reflexivity]. simpl.
    rewrite (htmlNodes_nonempty _ (gradeSubtitleHtml_nonempty _ _ _ _)). reflexivity.
  - page_simpl. destruct (qs "#back" p); reflexivity.
  - rest_simpl. reflexivity.
  - reflexivity.
  - rest_simpl. reflexivity.
Qed.

Lemma renderGrade_cards_witness :
  let gs := orEmpty (groups sampleGrade) in
  exists p' cards,
    renderGrade sampleEnv TtlCache sampleConfig sampleData "z" samplePage = Returns p'
    /\ kids <$> qs "#groups" p' = Some cards
    /\ length cards = length gs
    /\ (forall i grp,
          gs !! i = Some grp ->
          cards !! i
          = Some (El "a" "groupCard"
                     [("href", "group.html?g=" +:+ encodeURIComponent sampleEnv "z"
                               +:+ "&group=" +:+ encodeURIComponent sampleEnv (id grp))]
                     [El "p" "groupCard__name" [] (textNodes (name grp));
                      El "p" "groupCard__teacher" [] (textNodes (teacher grp));
                      El "p" "groupCard__count" []
                         [Html (groupCountHtml sampleEnv TtlCache
                                               (length (orEmpty (students grp))) (name grp))]]))
    /\ kids <$> qs "#grade-title" p'
       = (fun _ => textNodes (label sampleGrade)) <$> qs "#grade-title" samplePage
    /\ kids <$> qs "#grade-subtitle" p'
       = (fun _ => [Html (gradeSubtitleHtml sampleEnv TtlCache
                                            (sumStudentsInGrade sampleGrade) (label sampleGrade))])
           <$> qs "#grade-subtitle" samplePage
    /\ href <$> qs "#back" p' = (fun _ => "index.html") <$> qs "#back" samplePage
    /\ prefetchLinks p'
       = prefetchLinks
           (prefetch ((fun grp => resolveHref sampleEnv (groupHref sampleEnv "z" (id grp))) <$> gs)
                     samplePage)
    /\ docTitle p' = title sampleConfig
    /\ dataGrade p' = Some "z".
Proof.
  apply (renderGrade_cards sampleEnv TtlCache sampleConfig sampleData "z" samplePage
           sampleGrade blank).
  - reflexivity.
  - reflexivity.
  - split; [reflexivity |].
    intros grp Hgrp. apply list_elem_of_singleton in Hgrp. subst grp. reflexivity.
  - intros _. split; [reflexivity |].
    intros grp Hgrp. apply list_elem_of_singleton in Hgrp. subst grp. reflexivity.
Defined.

(** The card of the example scenario in the TTL variant, evaluated: the
    count line drops the grade letter of the name. *)
Example renderGrade_z_card :
  kids <$> qs "#groups"
             (pageOf (renderGrade sampleEnv TtlCache sampleConfig sampleData "z" samplePage))
  = Some [El "a" "groupCard" [("href", "group.html?g=z&group=z_a")]
             [El "p" "groupCard__name" [] [Text "ז הקבצה א"];
              El "p" "groupCard__teacher" [] [Text "אילנית רז"];
              El "p" "groupCard__count" []
                 [Html ("<span class=" +:+ dq +:+ "num" +:+ dq +:+ ">3</span>"
                        +:+ " תלמידים לומדים בהקבצה א")]]]
  /\ prefetchLinks
       (pageOf (renderGrade sampleEnv TtlCache sampleConfig sampleData "z" samplePage))
     = ["http://localhost:8000/group.html?g=z&group=z_a"].
Proof. split; vm_compute; reflexivity. Qed.

(** X6.  Once grade and group are resolved, on a page that has the table
    body, [renderGroup] shows the name of the group in the title and the
    teacher in the subtitle (where the page has them), sets the accent
    to the grade key and leaves the prefetch hints as they were.  When
    the grade key encodes, or the page has no back link, it returns,
    with the back link pointing to the grade page of the grade key and
    the document title that of the configuration.  When the page has a
    back link and the grade key does not encode, it throws a URIError
    with the table and the total filled, the back link and the
    document title as they were. *)
Theorem renderGroup_headings (env : JsEnv) (v : Variant) (cfg : Config) (data : Data)
        (gradeKey groupId : string) (p : Page) (grade : Grade) (grp : Group)
        (tbody : Element) :
  findGrade data gradeKey = Some grade ->
  findGroup grade groupId = Some grp ->
  qs "#students" p = Some tbody ->
  let r := renderGroup env v cfg data gradeKey groupId p in
  let p' := pageOf r in
  kids <$> qs "#group-title" p' = (fun _ => textNodes (name grp)) <$> qs "#group-title" p
  /\ kids <$> qs "#group-subtitle" p'
     = (fun _ => textNodes (teacher grp)) <$> qs "#group-subtitle" p
  /\ dataGrade p' = Some gradeKey
  /\ prefetchLinks p' = prefetchLinks p
  /\ (isWellFormed gradeKey = true \/ qs "#back" p = None ->
      r = Returns p'
      /\ href <$> qs "#back" p'
         = (fun _ => "grade.html?g=" +:+ encodeURIComponent env gradeKey) <$> qs "#back" p
      /\ docTitle p' = title cfg)
  /\ (isWellFormed gradeKey = false -> qs "#back" p <> None ->
      r = Throws URIError p'
      /\ qs "#back" p' = qs "#back" p
      /\ docTitle p' = docTitle p
      /\ kids <$> qs "#students" p' = Some (imap studentRow (orEmpty (students grp)))).
Proof.
  intros Hgrade Hgrp Htbody r p'. subst p' r.
  rewrite (renderGroup_resolved _ _ _ _ _ _ _ _ _ Hgrade Hgrp). cbv zeta. rewrite Htbody.
  split_and!.
  - group_cases p gradeKey; simpl pageOf; page_simpl; destruct (qs "#group-title" p); reflexivity.
  - group_cases p gradeKey; simpl pageOf; page_simpl;
      destruct (qs "#group-subtitle" p); reflexivity.
  - group_cases p gradeKey; simpl pageOf; rest_simpl; reflexivity.
  - group_cases p gradeKey; simpl pageOf; rest_simpl; reflexivity.
  - intros Hok. destruct (qs "#back" p) as [back|] eqn:Hback.
    + destruct Hok as [-> | ?]; [| discriminate]. simpl pageOf. split_and!.
      * reflexivity.
      * page_simpl. rewrite Hback. reflexivity.
      * reflexivity.
    + simpl pageOf. split_and!.
      * reflexivity.
      * page_simpl. rewrite Hback. reflexivity.
      * reflexivity.
  - intros Hwf Hback. destruct (qs "#back" p) as [back|] eqn:Hb; [| congruence].
    rewrite Hwf. simpl pageOf. split_and!.
    + reflexivity.
    + page_simpl. exact Hb.
    + rest_simpl. reflexivity.
    + page_simpl. rewrite Htbody. reflexivity.
Qed.

Lemma renderGroup_headings_witness :
  let r := renderGroup sampleEnv TwoKey sampleConfig sampleData "z" "z_a" samplePage in
  let p' := pageOf r in
  kids <$> qs "#group-title" p'
  = (fun _ => textNodes (name sampleGroup)) <$> qs "#group-title" samplePage
  /\ kids <$> qs "#group-subtitle" p'
     = (fun _ => textNodes (teacher sampleGroup)) <$> qs "#group-subtitle" samplePage
  /\ dataGrade p' = Some "z"
  /\ prefetchLinks p' = prefetchLinks samplePage
  /\ (isWellFormed "z" = true \/ qs "#back" samplePage = None ->
      r = Returns p'
      /\ href <$> qs "#back" p'
         = (fun _ => "grade.html?g=" +:+ encodeURIComponent sampleEnv "z") <$> qs "#back" samplePage
      /\ docTitle p' = title sampleConfig)
  /\ (isWellFormed "z" = false -> qs "#back" samplePage <> None ->
      r = Throws URIError p'
      /\ qs "#back" p' = qs "#back" samplePage
      /\ docTitle p' = docTitle samplePage
      /\ kids <$> qs "#students" p' = Some (imap studentRow (orEmpty (students sampleGroup)))).
Proof.
  apply (renderGroup_headings sampleEnv TwoKey sampleConfig sampleData "z" "z_a" samplePage
           sampleGrade sampleGroup blank); reflexivity.
Defined.

(** A grade key that does not encode, on the group page: the table is
    filled, the back link is not set. *)
Example renderGroup_key_that_does_not_encode :
  let data := mkData (Some [mkGrade loneSurrogate "שכבה"
                              (Some [mkGroup "a" "א" "" (Some ["א"; "ב"])])]) in
  exists p',
    renderGroup sampleEnv Plain sampleConfig data loneSurrogate "a" samplePage
    = Throws URIError p'
    /\ length <$> (kids <$> qs "#students" p') = Some 2
    /\ href <$> qs "#back" p' = Some "".
Proof.
  intros data.
  exists (pageOf (renderGroup sampleEnv Plain sampleConfig data loneSurrogate "a" samplePage)).
  split_and!; vm_compute; reflexivity.
Qed.

(** X7.  A page without the container of a view gets the headings only,
    and the view returns.  Without the entries container [renderHome]
    writes the three texts of the configuration and leaves the school
    total and the prefetch hints as they were; without the groups
    region [renderGrade] writes the title and the subtitle and sets
    neither the back link nor the document title nor any hint; without
    the table body [renderGroup] writes the title and the subtitle and
    sets neither the total nor the back link nor the document title.
    For [renderGrade] of the TTL variant, which writes the label as
    markup before it looks up the groups region, this is stated for a
    label without a tag. *)
Theorem render_without_container (env : JsEnv) (v : Variant) (cfg : Config) (data : Data)
        (p : Page) :
  (qs "#grade-buttons" p = None ->
   exists p',
     renderHome env v cfg data p = Returns p'
     /\ qs "#school-total" p' = qs "#school-total" p
     /\ prefetchLinks p' = prefetchLinks p
     /\ docTitle p' = docTitle p
     /\ kids <$> qs "#cfg-title" p' = (fun _ => textNodes (title cfg)) <$> qs "#cfg-title" p
     /\ kids <$> qs "#cfg-subtitle" p'
        = (fun _ => textNodes (subtitle cfg)) <$> qs "#cfg-subtitle" p
     /\ kids <$> qs "#cfg-managed" p'
        = (fun _ => textNodes (managedBy cfg)) <$> qs "#cfg-managed" p)
  /\ (forall gradeKey grade,
         findGrade data gradeKey = Some grade ->
         qs "#groups" p = None ->
         (v = TtlCache -> textOnly (label grade) = true) ->
         exists p',
           renderGrade env v cfg data gradeKey p = Returns p'
           /\ qs "#back" p' = qs "#back" p
           /\ docTitle p' = docTitle p
           /\ prefetchLinks p' = prefetchLinks p
           /\ kids <$> qs "#grade-title" p'
              = (fun _ => textNodes (label grade)) <$> qs "#grade-title" p
           /\ kids <$> qs "#grade-subtitle" p'
              = (fun _ => [Html (gradeSubtitleHtml env v (sumStudentsInGrade grade) (label grade))])
                  <$> qs "#grade-subtitle" p)
  /\ (forall gradeKey groupId grade grp,
         findGrade data gradeKey = Some grade ->
         findGroup grade groupId = Some grp ->
         qs "#students" p = None ->
         exists p',
           renderGroup env v cfg data gradeKey groupId p = Returns p'
           /\ qs "#group-total" p' = qs "#group-total" p
           /\ qs "#back" p' = qs "#back" p
           /\ docTitle p' = docTitle p
           /\ kids <$> qs "#group-title" p'
              = (fun _ => textNodes (name grp)) <$> qs "#group-title" p
           /\ kids <$> qs "#group-subtitle" p'
              = (fun _ => textNodes (teacher grp)) <$> qs "#group-subtitle" p).
Proof.
  split_and!.
  - intros Hnone. rewrite renderHome_page. cbv zeta. rewrite Hnone.
    eexists. split; [reflexivity |]. split_and!.
    + page_simpl. reflexivity.
    + rest_simpl. reflexivity.
    + rest_simpl. reflexivity.
    + page_simpl. destruct (qs "#cfg-title" p); reflexivity.
    + page_simpl. destruct (qs "#cfg-subtitle" p); reflexivity.
    + page_simpl. destruct (qs "#cfg-managed" p); reflexivity.
  - intros gradeKey grade Hgrade Hnone _.
    rewrite (renderGrade_resolved _ _ _ _ _ _ _ Hgrade). cbv zeta. rewrite Hnone.
    eexists. split; [reflexivity |]. split_and!.
    + page_simpl. reflexivity.
    + rest_simpl. reflexivity.
    + rest_simpl. reflexivity.
    + page_simpl. destruct (qs "#grade-title" p); reflexivity.
    + page_simpl. destruct (qs "#grade-subtitle" p); [| reflexivity]. simpl.
      rewrite (htmlNodes_nonempty _ (gradeSubtitleHtml_nonempty _ _ _ _)). reflexivity.
  - intros gradeKey groupId grade grp Hgrade Hgrp Hnone.
    rewrite (renderGroup_resolved _ _ _ _ _ _ _ _ _ Hgrade Hgrp). cbv zeta. rewrite Hnone.
    eexists. split; [reflexivity |]. split_and!.
    + page_simpl. reflexivity.
    + page_simpl. reflexivity.
    + rest_simpl. reflexivity.
    + page_simpl. destruct (qs "#group-title" p); reflexivity.
    + page_simpl. destruct (qs "#group-subtitle" p); reflexivity.
Qed.

(** A page with no element at all: the three views return and leave the
    document title and the prefetch hints as they were. *)
Example render_without_container_sample (v : Variant) :
  let bare := mkPage ∅ None [] "old" in
  renderHome sampleEnv v sampleConfig sampleData bare = Returns (mkPage ∅ (Some "") [] "old")
  /\ renderGrade sampleEnv v sampleConfig sampleData "z" bare
     = Returns (mkPage ∅ (Some "z") [] "old")
  /\ renderGroup sampleEnv v sampleConfig sampleData "z" "z_a" bare
     = Returns (mkPage ∅ (Some "z") [] "old").
Proof. destruct v; vm_compute; repeat split. Qed.

(** ** Rendering again *)











(** ** The counts of the home page *)

Lemma homeCount_cons (g : Grade) (gs : list Grade) (k : string) :
  homeCount (mkData (Some (g :: gs))) k
  = if String.eqb (key g) k then sumStudentsInGrade g else homeCount (mkData (Some gs)) k.
Proof.
  unfold homeCount, findGrade. simpl. destruct (String.eqb (key g) k); reflexivity.
Qed.

Lemma homeCount_absent (gs : list Grade) (k : string) :
  k ∉ key <$> gs -> homeCount (mkData (Some gs)) k = 0.
Proof.
  intros Hk. unfold homeCount.
  replace (findGrade (mkData (Some gs)) k) with (@None Grade); [reflexivity |].
  symmetry. apply findGrade_None. simpl. intros g Hg Heq. apply Hk.
  apply list_elem_of_fmap. exists g. split; [symmetry; exact Heq | exact Hg].
Qed.

Lemma homeCounts_le (gs : list Grade) :
  homeCount (mkData (Some gs)) "z" + homeCount (mkData (Some gs)) "h"
  + homeCount (mkData (Some gs)) "t"
  <= sum_list (sumStudentsInGrade <$> gs).
Proof.
  induction gs as [|g gs IH]; [reflexivity |].
  rewrite !homeCount_cons, fmap_cons. simpl sum_list.
  destruct (String.eqb_spec (key g) "z") as [Hz | _];
    destruct (String.eqb_spec (key g) "h") as [Hh | _];
    destruct (String.eqb_spec (key g) "t") as [Ht | _];
    try (rewrite Hz in *; discriminate); try (rewrite Hh in *; discriminate); lia.
Qed.

Lemma homeCounts_eq (gs : list Grade) :
  NoDup (key <$> gs) ->
  (forall g, g ∈ gs -> key g ∈ gradeKeys) ->
  homeCount (mkData (Some gs)) "z" + homeCount (mkData (Some gs)) "h"
  + homeCount (mkData (Some gs)) "t"
  = sum_list (sumStudentsInGrade <$> gs).
Proof.
  induction gs as [|g gs IH]; intros Hnd Hkeys; [reflexivity |].
  rewrite fmap_cons in Hnd. apply NoDup_cons in Hnd as [Hg Hnd].
  rewrite fmap_cons. simpl sum_list.
  rewrite <- IH by (try assumption; intros x Hx; apply Hkeys; right; exact Hx).
  rewrite !homeCount_cons.
  assert (Hk : key g ∈ gradeKeys) by (apply Hkeys; left).
  unfold gradeKeys in Hk.
  apply elem_of_cons in Hk as [Hk | Hk]; [| apply elem_of_cons in Hk as [Hk | Hk]];
    [| | apply list_elem_of_singleton in Hk];
    rewrite Hk in *; simpl; rewrite (homeCount_absent gs _ Hg); lia.
Qed.

(** X10.  The three counts that the home page shows never add up to more
    than the school total it shows: a grade with a key other than [z],
    [h], [t], or a second grade with one of these keys, counts in the
    total only.  When the grade keys of the roster are pairwise
    different and all among [z], [h], [t], the three counts add up to
    the total. *)
Theorem home_counts_and_total (env : JsEnv) (v : Variant) (data : Data) :
  (forall k, isWellFormed k = true ->
      exists attrs title,
        gradeButton env v data k
        = Ok (El "a" "btn" attrs
                 [title; El "div" "btn__meta" []
                            [Html (gradeMetaHtml v (homeCount data k)
                                                 (label (default (mkGrade k "שכבה" None)
                                                                 (findGrade data k))))]]))
  /\ homeCount data "z" + homeCount data "h" + homeCount data "t" <= sumAllStudents data
  /\ (NoDup (key <$> orEmpty (grades data)) ->
      (forall g, g ∈ orEmpty (grades data) -> key g ∈ ["z"; "h"; "t"]) ->
      homeCount data "z" + homeCount data "h" + homeCount data "t" = sumAllStudents data).
Proof.
  split_and!.
  - intros k Hk. unfold gradeButton, homeCount. rewrite (gradeUrl_Ok _ _ Hk).
    rewrite (htmlNodes_nonempty _ (gradeMetaHtml_nonempty _ _ _)).
    destruct (findGrade data k); simpl; eauto.
  - rewrite sumAllStudents_sum. destruct data as [[gs|]]; simpl.
    + apply homeCounts_le.
    + reflexivity.
  - rewrite sumAllStudents_sum. destruct data as [[gs|]]; simpl.
    + apply homeCounts_eq.
    + reflexivity.
Qed.

(** A roster with a fourth grade: the counts of the home page add up to
    3, the total is 4. *)
Example home_counts_below_total :
  let data := mkData (Some [sampleGrade;
                            mkGrade "y" "שכבת י" (Some [mkGroup "y_a" "י הקבצה א" "" (Some ["א"])])]) in
  homeCount data "z" + homeCount data "h" + homeCount data "t" = 3
  /\ sumAllStudents data = 4.
Proof. split; reflexivity. Qed.

(** ** The session storage *)

Lemma setItem_ok (key value : string) (st : Storage) :
  accessible st = true -> hasRoom st (<[key := value]> (items st)) = true ->
  setItem key value st = Ok (mkStorage (<[key := value]> (items st)) true (hasRoom st)).
Proof. intros Ha Hr. unfold setItem. cbv zeta. rewrite Ha, Hr. reflexivity. Qed.

Lemma setItem_no_room (key value : string) (st : Storage) :
  hasRoom st (<[key := value]> (items st)) = false -> exists e, setItem key value st = Throw e.
Proof. intros Hr. unfold setItem. cbv zeta. rewrite Hr, andb_false_r. eauto. Qed.

Lemma writeSessionJSON_ok (env : LoadEnv) (key : string) (value : JSON) (st : Storage) :
  accessible st = true ->
  hasRoom st (<[key := JSON_stringify env value]> (items st)) = true ->
  TtlLoader.writeSessionJSON env key value st
  = mkStorage (<[key := JSON_stringify env value]> (items st)) true (hasRoom st).
Proof.
  intros Ha Hr. unfold TtlLoader.writeSessionJSON. rewrite (setItem_ok _ _ _ Ha Hr). reflexivity.
Qed.

Lemma writeSessionJSON_no_room (env : LoadEnv) (key : string) (value : JSON) (st : Storage) :
  hasRoom st (<[key := JSON_stringify env value]> (items st)) = false ->
  TtlLoader.writeSessionJSON env key value st = st.
Proof.
  intros Hr. unfold TtlLoader.writeSessionJSON.
  destruct (setItem_no_room key (JSON_stringify env value) st Hr) as [e ->]. reflexivity.
Qed.

(** A write changes the item of its key at most, and no flag. *)
Lemma writeSessionJSON_frame (env : LoadEnv) (key : string) (value : JSON) (st : Storage) :
  accessible (TtlLoader.writeSessionJSON env key value st) = accessible st
  /\ hasRoom (TtlLoader.writeSessionJSON env key value st) = hasRoom st
  /\ forall k, k <> key ->
       items (TtlLoader.writeSessionJSON env key value st) !! k = items st !! k.
Proof.
  unfold TtlLoader.writeSessionJSON, setItem. cbv zeta.
  destruct (accessible st && hasRoom st _); simpl; split_and!; try reflexivity.
  intros k Hk. apply lookup_insert_ne. congruence.
Qed.

Lemma readSessionJSON_items (env : LoadEnv) (key : string) (st st' : Storage) :
  accessible st' = accessible st ->
  items st' !! key = items st !! key ->
  TtlLoader.readSessionJSON env key st' = TtlLoader.readSessionJSON env key st.
Proof.
  intros Ha Hi. unfold TtlLoader.readSessionJSON, getItem. rewrite Ha, Hi. reflexivity.
Qed.

(** X11.  What [writeSessionJSON] stores under a key, [readSessionJSON]
    reads back from that key, when the storage has room for the write
    and the text parses back to the value; the items of the other keys
    read as before.  When the storage has no room for it, nothing changes and no
    exception leaves [writeSessionJSON]; when the item is missing, empty
    or not JSON, or the storage is not accessible, the read is [null]. *)
Theorem session_write_then_read (env : LoadEnv) (key : string) (value : JSON) (st : Storage) :
  (accessible st = true ->
   hasRoom st (<[key := JSON_stringify env value]> (items st)) = true ->
   JSON_stringify env value <> "" ->
   JSON_parse env (JSON_stringify env value) = Some value ->
   TtlLoader.readSessionJSON env key (TtlLoader.writeSessionJSON env key value st) = value)
  /\ (forall k, k <> key ->
         TtlLoader.readSessionJSON env k (TtlLoader.writeSessionJSON env key value st)
         = TtlLoader.readSessionJSON env k st)
  /\ (hasRoom st (<[key := JSON_stringify env value]> (items st)) = false
      \/ accessible st = false ->
      TtlLoader.writeSessionJSON env key value st = st)
  /\ (accessible st = false \/ items st !! key = None \/ items st !! key = Some EmptyString
      \/ (exists raw, items st !! key = Some raw /\ JSON_parse env raw = None) ->
      TtlLoader.readSessionJSON env key st = JNull).
Proof.
  split_and!.
  - intros Ha Hr Hne Hparse. rewrite (writeSessionJSON_ok _ _ _ _ Ha Hr).
    unfold TtlLoader.readSessionJSON, getItem. simpl. rewrite lookup_insert_eq.
    destruct (String.eqb_spec (JSON_stringify env value) ""); [contradiction |].
    rewrite Hparse. reflexivity.
  - intros k Hk. destruct (writeSessionJSON_frame env key value st) as (Ha & _ & Hi).
    apply readSessionJSON_items; [exact Ha | apply Hi, Hk].
  - intros [Hr | Ha]; [apply writeSessionJSON_no_room, Hr |].
    unfold TtlLoader.writeSessionJSON, setItem. cbv zeta. rewrite Ha. reflexivity.
  - unfold TtlLoader.readSessionJSON, getItem.
    intros [Ha | [Hi | [Hi | (raw & Hi & Hp)]]].
    + rewrite Ha. reflexivity.
    + destruct (accessible st); [rewrite Hi |]; reflexivity.
    + destruct (accessible st); [rewrite Hi |]; reflexivity.
    + destruct (accessible st); [rewrite Hi |]; [| reflexivity].
      destruct (String.eqb raw ""); [reflexivity |]. rewrite Hp. reflexivity.
Qed.

Example session_write_then_read_sample :
  TtlLoader.readSessionJSON roundTripEnv "k"
    (TtlLoader.writeSessionJSON roundTripEnv "k" sampleEntryJSON emptyStorage)
  = sampleEntryJSON
  /\ TtlLoader.readSessionJSON roundTripEnv "k"
       (TtlLoader.writeSessionJSON roundTripEnv "k" sampleEntryJSON fullStorage)
     = JNull.
Proof. split; vm_compute; reflexivity. Qed.

(** ** The cache-bust token *)

Lemma getSessionBust_cases (env : LoadEnv) (now : Z) (st : Storage) :
  (exists props v ts,
      TtlLoader.readSessionJSON env TtlLoader.SESSION_BUST_KEY st = JObj props
      /\ props !! "v" = Some (JNum v) /\ props !! "ts" = Some (JNum ts)
      /\ (now - ts <= TtlLoader.SESSION_BUST_TTL_MS)%Z
      /\ TtlLoader.getSessionBust env now st = (v, st))
  \/ TtlLoader.getSessionBust env now st
     = (now, TtlLoader.writeSessionJSON env TtlLoader.SESSION_BUST_KEY
               (JObj (<["v" := JNum now]> (<["ts" := JNum now]> ∅))) st).
Proof.
  unfold TtlLoader.getSessionBust.
  destruct (TtlLoader.readSessionJSON env TtlLoader.SESSION_BUST_KEY st) as [| b | z | s | l | props] eqn:Hread;
    simpl; try (right; reflexivity);
    try (destruct b; right; reflexivity);
    try (destruct (negb _); right; reflexivity).
  unfold numberProp, getProp.
  destruct (props !! "v") as [[| | v | | |]|] eqn:Hv; try (right; reflexivity).
  destruct (props !! "ts") as [[| | ts | | |]|] eqn:Hts; try (right; reflexivity).
  destruct (Z.leb_spec (now - ts) TtlLoader.SESSION_BUST_TTL_MS); [| right; reflexivity].
  left. exists props, v, ts. split_and!; try reflexivity; assumption.
Qed.

Lemma getSessionBust_frame (env : LoadEnv) (now : Z) (st : Storage) :
  accessible (TtlLoader.getSessionBust env now st).2 = accessible st
  /\ hasRoom (TtlLoader.getSessionBust env now st).2 = hasRoom st
  /\ forall k, k <> TtlLoader.SESSION_BUST_KEY ->
       items (TtlLoader.getSessionBust env now st).2 !! k = items st !! k.
Proof.
  destruct (getSessionBust_cases env now st) as [(props & v & ts & _ & _ & _ & _ & ->) | ->];
    simpl.
  - split_and!; reflexivity.
  - apply writeSessionJSON_frame.
Qed.

Lemma read_back_written (env : LoadEnv) (key : string) (value : JSON) (st : Storage) :
  accessible st = true ->
  hasRoom st (<[key := JSON_stringify env value]> (items st)) = true ->
  JSON_stringify env value <> "" ->
  JSON_parse env (JSON_stringify env value) = Some value ->
  TtlLoader.readSessionJSON env key (TtlLoader.writeSessionJSON env key value st) = value.
Proof.
  intros Ha Hr Hne Hparse. rewrite (writeSessionJSON_ok _ _ _ _ Ha Hr).
  unfold TtlLoader.readSessionJSON, getItem. simpl. rewrite lookup_insert_eq.
  destruct (String.eqb_spec (JSON_stringify env value) ""); [contradiction |].
  rewrite Hparse. reflexivity.
Qed.

Lemma getSessionBust_read (env : LoadEnv) (later now : Z) (st : Storage) :
  TtlLoader.readSessionJSON env TtlLoader.SESSION_BUST_KEY st
  = JObj (<["v" := JNum now]> (<["ts" := JNum now]> ∅)) ->
  TtlLoader.getSessionBust env later st
  = if (later - now <=? TtlLoader.SESSION_BUST_TTL_MS)%Z then (now, st)
    else (later, TtlLoader.writeSessionJSON env TtlLoader.SESSION_BUST_KEY
                   (JObj (<["v" := JNum later]> (<["ts" := JNum later]> ∅))) st).
Proof.
  intros Hread. unfold TtlLoader.getSessionBust. rewrite Hread. simpl.
  unfold numberProp, getProp.
  rewrite lookup_insert_eq, lookup_insert_ne, lookup_insert_eq by discriminate.
  reflexivity.
Qed.

(** X12.  The cache-bust token lasts ten minutes.  Starting without a
    token, in a storage that has room for the token and gives back what
    was written, [getSessionBust] returns the current time and stores it;
    every later call within 600000 ms of that time returns the same
    token and writes nothing, and the first call after that returns its
    own current time as the new token. *)
Theorem bust_token_lasts_ten_minutes (env : LoadEnv) (now later : Z) (st : Storage) :
  accessible st = true ->
  hasRoom st (<[TtlLoader.SESSION_BUST_KEY
                := JSON_stringify env (JObj (<["v" := JNum now]> (<["ts" := JNum now]> ∅)))]>
                (items st)) = true ->
  TtlLoader.readSessionJSON env TtlLoader.SESSION_BUST_KEY st = JNull ->
  JSON_stringify env (JObj (<["v" := JNum now]> (<["ts" := JNum now]> ∅))) <> "" ->
  JSON_parse env (JSON_stringify env (JObj (<["v" := JNum now]> (<["ts" := JNum now]> ∅))))
  = Some (JObj (<["v" := JNum now]> (<["ts" := JNum now]> ∅))) ->
  let first := TtlLoader.getSessionBust env now st in
  first.1 = now
  /\ ((later - now <= 10 * 60 * 1000)%Z ->
      TtlLoader.getSessionBust env later first.2 = (now, first.2))
  /\ ((later - now > 10 * 60 * 1000)%Z ->
      (TtlLoader.getSessionBust env later first.2).1 = later).
Proof.
  intros Ha Hr Hnull Hne Hparse first.
  assert (Hfirst : first
                   = (now, TtlLoader.writeSessionJSON env TtlLoader.SESSION_BUST_KEY
                             (JObj (<["v" := JNum now]> (<["ts" := JNum now]> ∅))) st)).
  { subst first.
    destruct (getSessionBust_cases env now st) as [(props & v & ts & Hread & _) | ->];
      [congruence | reflexivity]. }
  rewrite Hfirst. simpl.
  assert (Hback := read_back_written env TtlLoader.SESSION_BUST_KEY _ st Ha Hr Hne Hparse).
  rewrite (getSessionBust_read env later now _ Hback).
  split_and!.
  - reflexivity.
  - intros Hin. replace (later - now <=? TtlLoader.SESSION_BUST_TTL_MS)%Z with true;
      [reflexivity |].
    symmetry. apply Z.leb_le. unfold TtlLoader.SESSION_BUST_TTL_MS. lia.
  - intros Hout. replace (later - now <=? TtlLoader.SESSION_BUST_TTL_MS)%Z with false;
      [reflexivity |].
    symmetry. apply Z.leb_gt. unfold TtlLoader.SESSION_BUST_TTL_MS. lia.
Qed.

Lemma bust_token_lasts_ten_minutes_witness :
  let first := TtlLoader.getSessionBust roundTripEnv 1000 emptyStorage in
  first.1 = 1000%Z
  /\ ((200000 - 1000 <= 10 * 60 * 1000)%Z ->
      TtlLoader.getSessionBust roundTripEnv 200000 first.2 = (1000%Z, first.2))
  /\ ((200000 - 1000 > 10 * 60 * 1000)%Z ->
      (TtlLoader.getSessionBust roundTripEnv 200000 first.2).1 = 200000%Z).
Proof.
  apply (bust_token_lasts_ten_minutes roundTripEnv 1000 200000 emptyStorage);
    try reflexivity.
  vm_compute. discriminate.
Defined.

(** ** What a load returns and what it stores *)

(** A TTL load that missed the cache and returned the documents got them
    from two successful responses, in time, and stored them. *)
Lemma ttl_loadAll_Ok (env : LoadEnv) (clock : Clock) (st : Storage) (cfg data : JSON) :
  TtlLoader.cachedPair (loadTime clock)
    (TtlLoader.readSessionJSON env TtlLoader.SESSION_CACHE_KEY st) = None ->
  result (TtlLoader.loadAll env clock st) = Ok (cfg, data) ->
  let bust := "?v=" +:+ Number_toString env (TtlLoader.getSessionBust env (bustTime clock) st).1 in
  exists t1 t2 r1 r2,
    network env (mkRequest ("data/config.json" +:+ bust) (Some "no-cache")) = Answers t1 r1
    /\ network env (mkRequest ("data/data.json" +:+ bust) (Some "no-cache")) = Answers t2 r2
    /\ (t1 <= 12000)%Z /\ (t2 <= 12000)%Z
    /\ ok r1 = true /\ ok r2 = true
    /\ JSON_parse env (body r1) = Some cfg
    /\ JSON_parse env (body r2) = Some data
    /\ storage (TtlLoader.loadAll env clock st)
       = TtlLoader.writeSessionJSON env TtlLoader.SESSION_CACHE_KEY
           (JObj (<["ts" := JNum (loadTime clock)]> (<["cfg" := cfg]> (<["data" := data]> ∅))))
           (TtlLoader.getSessionBust env (bustTime clock) st).2.
Proof.
  intros Hmiss. unfold TtlLoader.loadAll. cbv zeta. rewrite Hmiss.
  destruct (TtlLoader.getSessionBust env (bustTime clock) st) as [token st1]. simpl fst. simpl snd.
  unfold TtlLoader.fetchWithTimeout, CONFIG_URL, DATA_URL, TtlLoader.FETCH_TIMEOUT_MS.
  destruct (network env (mkRequest ("data/config.json" +:+ "?v=" +:+ Number_toString env token) _))
    as [|t1 r1] eqn:Hn1; [simpl; discriminate |].
  destruct (Z.leb_spec t1 12000); [| simpl; discriminate].
  destruct (network env (mkRequest ("data/data.json" +:+ "?v=" +:+ Number_toString env token) _))
    as [|t2 r2] eqn:Hn2; [simpl; discriminate |].
  destruct (Z.leb_spec t2 12000); [| simpl; discriminate].
  simpl promiseAll2. cbv iota beta.
  destruct (ok r1) eqn:Hok1; [| simpl; discriminate].
  destruct (ok r2) eqn:Hok2; [| simpl; discriminate]. simpl negb. cbv iota.
  unfold json.
  destruct (JSON_parse env (body r1)) as [c|] eqn:Hp1; [| simpl; discriminate].
  destruct (JSON_parse env (body r2)) as [d|] eqn:Hp2; [| simpl; discriminate].
  simpl. intros [= <- <-].
  exists t1, t2, r1, r2. split_and!; try reflexivity; assumption.
Qed.

(** A TTL load that fails stores no documents: the storage is the one
    [getSessionBust] left. *)
Lemma ttl_loadAll_Throw (env : LoadEnv) (clock : Clock) (st : Storage) (e : Exn) :
  result (TtlLoader.loadAll env clock st) = Throw e ->
  storage (TtlLoader.loadAll env clock st)
  = (TtlLoader.getSessionBust env (bustTime clock) st).2.
Proof.
  unfold TtlLoader.loadAll. cbv zeta.
  destruct (TtlLoader.cachedPair _ _); [simpl; discriminate |].
  destruct (TtlLoader.getSessionBust env (bustTime clock) st) as [token st1]. simpl snd.
  destruct (promiseAll2 _ _) as [[r1 r2]|]; [| reflexivity].
  destruct (negb (ok r1)); [reflexivity |].
  destruct (negb (ok r2)); [reflexivity |].
  destruct (json env r1); [| reflexivity].
  destruct (json env r2); [simpl; discriminate | reflexivity].
Qed.

Lemma twoKey_loadAll_Ok (env : LoadEnv) (st : Storage) (cfg data : JSON) :
  TwoKeyLoader.cachedPair env st = None ->
  result (TwoKeyLoader.loadAll env st) = Ok (cfg, data) ->
  exists t1 t2 r1 r2,
    network env (mkRequest "data/config.json" (Some "force-cache")) = Answers t1 r1
    /\ network env (mkRequest "data/data.json" (Some "force-cache")) = Answers t2 r2
    /\ ok r1 = true /\ ok r2 = true
    /\ JSON_parse env (body r1) = Some cfg
    /\ JSON_parse env (body r2) = Some data
    /\ storage (TwoKeyLoader.loadAll env st) = TwoKeyLoader.storePair env cfg data st.
Proof.
  intros Hmiss. unfold TwoKeyLoader.loadAll. rewrite Hmiss. cbv zeta.
  unfold fetch, CONFIG_URL, DATA_URL.
  destruct (network env (mkRequest "data/config.json" _)) as [|t1 r1] eqn:Hn1; [simpl; discriminate |].
  destruct (network env (mkRequest "data/data.json" _)) as [|t2 r2] eqn:Hn2; [simpl; discriminate |].
  simpl promiseAll2. cbv iota beta.
  destruct (ok r1) eqn:Hok1; [| simpl; discriminate].
  destruct (ok r2) eqn:Hok2; [| simpl; discriminate]. simpl negb. simpl orb. cbv iota.
  unfold json.
  destruct (JSON_parse env (body r1)) as [c|] eqn:Hp1; [| simpl; discriminate].
  destruct (JSON_parse env (body r2)) as [d|] eqn:Hp2; [| simpl; discriminate].
  simpl. intros [= <- <-].
  exists t1, t2, r1, r2. split_and!; try reflexivity; assumption.
Qed.

Lemma twoKey_loadAll_Throw (env : LoadEnv) (st : Storage) (e : Exn) :
  result (TwoKeyLoader.loadAll env st) = Throw e ->
  storage (TwoKeyLoader.loadAll env st) = st.
Proof.
  unfold TwoKeyLoader.loadAll. cbv zeta.
  destruct (TwoKeyLoader.cachedPair env st); [simpl; discriminate |].
  destruct (promiseAll2 _ _) as [[r1 r2]|]; [| reflexivity].
  destruct (negb (ok r1) || negb (ok r2)); [reflexivity |].
  destruct (json env r1); [| reflexivity].
  destruct (json env r2); [simpl; discriminate | reflexivity].
Qed.

Lemma plain_loadAll_Ok (env : LoadEnv) (st : Storage) (cfg data : JSON) :
  result (PlainLoader.loadAll env st) = Ok (cfg, data) ->
  exists t1 t2 r1 r2,
    network env (mkRequest "data/config.json" None) = Answers t1 r1
    /\ network env (mkRequest "data/data.json" None) = Answers t2 r2
    /\ ok r1 = true /\ ok r2 = true
    /\ JSON_parse env (body r1) = Some cfg
    /\ JSON_parse env (body r2) = Some data.
Proof.
  unfold PlainLoader.loadAll. cbv zeta. unfold fetch, CONFIG_URL, DATA_URL.
  destruct (network env (mkRequest "data/config.json" _)) as [|t1 r1] eqn:Hn1; [simpl; discriminate |].
  destruct (network env (mkRequest "data/data.json" _)) as [|t2 r2] eqn:Hn2; [simpl; discriminate |].
  simpl promiseAll2. cbv iota beta.
  destruct (ok r1) eqn:Hok1; [| simpl; discriminate].
  destruct (ok r2) eqn:Hok2; [| simpl; discriminate]. simpl negb. simpl orb. cbv iota.
  unfold json.
  destruct (JSON_parse env (body r1)) as [c|] eqn:Hp1; [| simpl; discriminate].
  destruct (JSON_parse env (body r2)) as [d|] eqn:Hp2; [| simpl; discriminate].
  simpl. intros [= <- <-].
  exists t1, t2, r1, r2. split_and!; try reflexivity; assumption.
Qed.

Lemma plain_storage (env : LoadEnv) (st : Storage) :
  storage (PlainLoader.loadAll env st) = st.
Proof.
  unfold PlainLoader.loadAll. cbv zeta.
  destruct (promiseAll2 _ _) as [[r1 r2]|]; [| reflexivity].
  destruct (negb (ok r1) || negb (ok r2)); [reflexivity |].
  destruct (json env r1); [| reflexivity].
  destruct (json env r2); reflexivity.
Qed.

(** X13.  The TTL cache round trip.  After a load that fetched the two
    documents, in a storage that has room for every write and gives back what was
    written, a second load at most 90 seconds after the start of the
    first returns the same pair from the cache, sends no request and
    writes nothing.  The time that counts is the start of the first
    load, not the arrival of its responses. *)
Theorem ttl_cache_round_trip (env : LoadEnv) (clock clock' : Clock) (st : Storage)
        (cfg data : JSON) :
  accessible st = true ->
  (forall written, hasRoom st written = true) ->
  requests (TtlLoader.loadAll env clock st) <> [] ->
  result (TtlLoader.loadAll env clock st) = Ok (cfg, data) ->
  truthy cfg = true ->
  truthy data = true ->
  JSON_stringify env
    (JObj (<["ts" := JNum (loadTime clock)]> (<["cfg" := cfg]> (<["data" := data]> ∅)))) <> "" ->
  JSON_parse env
    (JSON_stringify env
       (JObj (<["ts" := JNum (loadTime clock)]> (<["cfg" := cfg]> (<["data" := data]> ∅)))))
  = Some (JObj (<["ts" := JNum (loadTime clock)]> (<["cfg" := cfg]> (<["data" := data]> ∅)))) ->
  (loadTime clock' - loadTime clock <= 90 * 1000)%Z ->
  let st' := storage (TtlLoader.loadAll env clock st) in
  TtlLoader.loadAll env clock' st' = mkLoaded (Ok (cfg, data)) st' [].
Proof.
  intros Ha Hr Hsent Hok Tcfg Tdata Hne Hparse Hfresh st'.
  assert (Hmiss := ttl_sent_miss env clock st Hsent).
  destruct (ttl_loadAll_Ok env clock st cfg data Hmiss Hok)
    as (_ & _ & _ & _ & _ & _ & _ & _ & _ & _ & _ & _ & Hst).
  destruct (getSessionBust_frame env (bustTime clock) st) as (Ha1 & Hr1 & _).
  rewrite Ha in Ha1.
  assert (Hread : TtlLoader.readSessionJSON env TtlLoader.SESSION_CACHE_KEY st'
                  = JObj (<["ts" := JNum (loadTime clock)]>
                            (<["cfg" := cfg]> (<["data" := data]> ∅)))).
  { subst st'. rewrite Hst. apply read_back_written; try assumption. rewrite Hr1. apply Hr. }
  unfold TtlLoader.loadAll. cbv zeta. rewrite Hread.
  rewrite (ttl_cachedPair_fresh (loadTime clock') (loadTime clock) _ cfg data);
    try assumption.
  - replace (loadTime clock' - loadTime clock <=? TtlLoader.SESSION_CACHE_TTL_MS)%Z with true;
      [reflexivity |].
    symmetry. apply Z.leb_le. exact Hfresh.
  - apply lookup_insert_eq.
  - rewrite lookup_insert_ne by discriminate. apply lookup_insert_eq.
  - rewrite !lookup_insert_ne by discriminate. apply lookup_insert_eq.
Qed.

Lemma ttl_cache_round_trip_witness :
  let st' := storage (TtlLoader.loadAll roundTripEnv (mkClock 1000 1001) emptyStorage) in
  TtlLoader.loadAll roundTripEnv (mkClock 90000 90001) st'
  = mkLoaded (Ok (sampleCfgJSON, sampleDataJSON)) st' [].
Proof.
  apply (ttl_cache_round_trip roundTripEnv (mkClock 1000 1001) (mkClock 90000 90001)
           emptyStorage sampleCfgJSON sampleDataJSON); try reflexivity.
  - vm_compute. discriminate.
  - vm_compute. discriminate.
  - vm_compute. discriminate.
Defined.

Lemma twoKey_cachedPair_stored (env : LoadEnv) (st : Storage) (cfg data : JSON) :
  accessible st = true ->
  (forall written, hasRoom st written = true) ->
  JSON_stringify env cfg <> "" ->
  JSON_stringify env data <> "" ->
  JSON_parse env (JSON_stringify env cfg) = Some cfg ->
  JSON_parse env (JSON_stringify env data) = Some data ->
  TwoKeyLoader.cachedPair env (TwoKeyLoader.storePair env cfg data st) = Some (cfg, data).
Proof.
  intros Ha Hr Hc Hd Pc Pd. unfold TwoKeyLoader.storePair.
  rewrite (setItem_ok _ _ _ Ha (Hr _)).
  rewrite (setItem_ok _ _ (mkStorage _ true (hasRoom st)) eq_refl (Hr _)). simpl.
  unfold TwoKeyLoader.cachedPair, getItem. simpl.
  rewrite lookup_insert_ne by discriminate. rewrite !lookup_insert_eq.
  destruct (String.eqb_spec (JSON_stringify env cfg) ""); [contradiction |].
  destruct (String.eqb_spec (JSON_stringify env data) ""); [contradiction |].
  simpl. rewrite Pc, Pd. reflexivity.
Qed.

(** X14.  The two-key cache round trip.  After a load that returned the
    two documents, in a storage that has room for every write and gives back what
    was written, every later load returns the same pair from the cache
    and sends no request: this cache has no expiry. *)
Theorem twoKey_cache_round_trip (env : LoadEnv) (st : Storage) (cfg data : JSON) :
  accessible st = true ->
  (forall written, hasRoom st written = true) ->
  result (TwoKeyLoader.loadAll env st) = Ok (cfg, data) ->
  JSON_stringify env cfg <> "" ->
  JSON_stringify env data <> "" ->
  JSON_parse env (JSON_stringify env cfg) = Some cfg ->
  JSON_parse env (JSON_stringify env data) = Some data ->
  let st' := storage (TwoKeyLoader.loadAll env st) in
  TwoKeyLoader.loadAll env st' = mkLoaded (Ok (cfg, data)) st' [].
Proof.
  intros Ha Hr Hok Hc Hd Pc Pd st'. subst st'.
  destruct (TwoKeyLoader.cachedPair env st) as [hit|] eqn:Hhit.
  - unfold TwoKeyLoader.loadAll in Hok |- *. rewrite Hhit in Hok |- *. simpl in Hok |- *.
    rewrite Hhit. injection Hok as ->. reflexivity.
  - destruct (twoKey_loadAll_Ok env st cfg data Hhit Hok)
      as (_ & _ & _ & _ & _ & _ & _ & _ & _ & _ & Hst).
    rewrite Hst. unfold TwoKeyLoader.loadAll at 1.
    rewrite (twoKey_cachedPair_stored env st cfg data Ha Hr Hc Hd Pc Pd). reflexivity.
Qed.

Lemma twoKey_cache_round_trip_witness :
  let st' := storage (TwoKeyLoader.loadAll roundTripEnv emptyStorage) in
  TwoKeyLoader.loadAll roundTripEnv st'
  = mkLoaded (Ok (sampleCfgJSON, sampleDataJSON)) st' [].
Proof.
  apply (twoKey_cache_round_trip roundTripEnv emptyStorage sampleCfgJSON sampleDataJSON);
    try reflexivity.
  - vm_compute. discriminate.
  - vm_compute. discriminate.
Defined.

(** X15.  A load that fails stores no document: in every variant, when
    [loadAll] throws, every item of the storage but the cache-bust token
    is as it was, and so are the flags. *)
Theorem failed_load_stores_nothing (v : Variant) (env : LoadEnv) (clock : Clock)
        (st : Storage) (e : Exn) :
  result (loadAll v env clock st) = Throw e ->
  let st' := storage (loadAll v env clock st) in
  accessible st' = accessible st
  /\ hasRoom st' = hasRoom st
  /\ (forall k, k <> TtlLoader.SESSION_BUST_KEY -> items st' !! k = items st !! k)
  /\ (v <> TtlCache -> st' = st).
Proof.
  intros Hthrow st'. subst st'. destruct v; simpl in *.
  - rewrite plain_storage. split_and!; reflexivity.
  - rewrite (ttl_loadAll_Throw env clock st e Hthrow).
    destruct (getSessionBust_frame env (bustTime clock) st) as (Ha & Hr & Hi).
    split_and!; [exact Ha | exact Hr | exact Hi | congruence].
  - rewrite (twoKey_loadAll_Throw env st e Hthrow). split_and!; reflexivity.
Qed.

Lemma failed_load_stores_nothing_witness :
  let env := sampleLoadEnv (mkResponse false 404 "") in
  let st' := storage (loadAll TtlCache env (mkClock 5000 5000) emptyStorage) in
  accessible st' = accessible emptyStorage
  /\ hasRoom st' = hasRoom emptyStorage
  /\ (forall k, k <> TtlLoader.SESSION_BUST_KEY -> items st' !! k = items emptyStorage !! k)
  /\ (TtlCache <> TtlCache -> st' = emptyStorage).
Proof.
  apply (failed_load_stores_nothing TtlCache (sampleLoadEnv (mkResponse false 404 ""))
           (mkClock 5000 5000) emptyStorage (JsError "data fetch failed (404)")).
  reflexivity.
Defined.

Lemma getSessionBust_withRoom (env : LoadEnv) (now : Z) (st : Storage) :
  (exists token,
      TtlLoader.getSessionBust env now st = (token, st)
      /\ TtlLoader.getSessionBust env now (withRoom st) = (token, withRoom st))
  \/ (TtlLoader.getSessionBust env now st
      = (now, TtlLoader.writeSessionJSON env TtlLoader.SESSION_BUST_KEY
                (JObj (<["v" := JNum now]> (<["ts" := JNum now]> ∅))) st)
      /\ TtlLoader.getSessionBust env now (withRoom st)
         = (now, TtlLoader.writeSessionJSON env TtlLoader.SESSION_BUST_KEY
                   (JObj (<["v" := JNum now]> (<["ts" := JNum now]> ∅))) (withRoom st))).
Proof.
  unfold TtlLoader.getSessionBust.
  rewrite (readSessionJSON_items env TtlLoader.SESSION_BUST_KEY st (withRoom st) eq_refl eq_refl).
  destruct (truthy _); [| right; split; reflexivity].
  destruct (numberProp _ "v") as [token|]; [| right; split; reflexivity].
  destruct (numberProp _ "ts"); [| right; split; reflexivity].
  destruct (_ <=? _)%Z; [left; exists token; split; reflexivity | right; split; reflexivity].
Qed.

(** The items after a write, with and without room. *)
Lemma writeSessionJSON_items (env : LoadEnv) (key : string) (value : JSON) (st : Storage) :
  TtlLoader.writeSessionJSON env key value st = st
  \/ (accessible st = true
      /\ TtlLoader.writeSessionJSON env key value st
         = mkStorage (<[key := JSON_stringify env value]> (items st)) true (hasRoom st)).
Proof.
  unfold TtlLoader.writeSessionJSON, setItem. cbv zeta.
  destruct (accessible st); [| left; reflexivity].
  destruct (hasRoom st _); [right; split; reflexivity | left; reflexivity].
Qed.

Lemma writeSessionJSON_withRoom (env : LoadEnv) (key : string) (value : JSON) (st : Storage) :
  TtlLoader.writeSessionJSON env key value (withRoom st)
  = if accessible st
    then mkStorage (<[key := JSON_stringify env value]> (items st)) true (fun _ => true)
    else withRoom st.
Proof.
  unfold TtlLoader.writeSessionJSON, setItem, withRoom. cbv zeta. simpl.
  destruct (accessible st); reflexivity.
Qed.

Lemma getSessionBust_no_room (env : LoadEnv) (now : Z) (st : Storage) :
  (forall written, hasRoom st written = false) ->
  (TtlLoader.getSessionBust env now st).2 = st.
Proof.
  intros Hr.
  destruct (getSessionBust_cases env now st) as [(props & v & ts & _ & _ & _ & _ & ->) | ->].
  - reflexivity.
  - apply writeSessionJSON_no_room, Hr.
Qed.

Lemma ttl_loadAll_withRoom (env : LoadEnv) (clock : Clock) (st : Storage) :
  result (TtlLoader.loadAll env clock (withRoom st)) = result (TtlLoader.loadAll env clock st)
  /\ requests (TtlLoader.loadAll env clock (withRoom st))
     = requests (TtlLoader.loadAll env clock st).
Proof.
  unfold TtlLoader.loadAll. cbv zeta.
  rewrite (readSessionJSON_items env TtlLoader.SESSION_CACHE_KEY st (withRoom st) eq_refl eq_refl).
  destruct (TtlLoader.cachedPair _ _); [split; reflexivity |].
  destruct (getSessionBust_withRoom env (bustTime clock) st) as [(token & -> & ->) | [-> ->]];
    (destruct (promiseAll2 _ _) as [[r1 r2]|]; [| split; reflexivity]);
    (destruct (negb (ok r1)); [split; reflexivity |]);
    (destruct (negb (ok r2)); [split; reflexivity |]);
    (destruct (json env r1); [| split; reflexivity]);
    destruct (json env r2); split; reflexivity.
Qed.

Lemma ttl_storage_no_room (env : LoadEnv) (clock : Clock) (st : Storage) :
  (forall written, hasRoom st written = false) ->
  storage (TtlLoader.loadAll env clock st) = st.
Proof.
  intros Hr. unfold TtlLoader.loadAll. cbv zeta.
  destruct (TtlLoader.cachedPair _ _); [reflexivity |].
  assert (Hst := getSessionBust_no_room env (bustTime clock) st Hr).
  destruct (TtlLoader.getSessionBust env (bustTime clock) st) as [tok s1].
  simpl in Hst. subst s1.
  destruct (promiseAll2 _ _) as [[r1 r2]|]; [| reflexivity].
  destruct (negb (ok r1)); [reflexivity |].
  destruct (negb (ok r2)); [reflexivity |].
  destruct (json env r1); [| reflexivity].
  destruct (json env r2); [| reflexivity].
  simpl. apply writeSessionJSON_no_room, Hr.
Qed.

Lemma twoKey_storage_no_room (env : LoadEnv) (st : Storage) :
  (forall written, hasRoom st written = false) ->
  storage (TwoKeyLoader.loadAll env st) = st.
Proof.
  intros Hr. unfold TwoKeyLoader.loadAll. cbv zeta.
  destruct (TwoKeyLoader.cachedPair env st); [reflexivity |].
  destruct (promiseAll2 _ _) as [[r1 r2]|]; [| reflexivity].
  destruct (negb (ok r1) || negb (ok r2)); [reflexivity |].
  destruct (json env r1) as [c|]; [| reflexivity].
  destruct (json env r2) as [d|]; [| reflexivity].
  simpl. unfold TwoKeyLoader.storePair.
  destruct (setItem_no_room TwoKeyLoader.CACHE_CFG_KEY (JSON_stringify env c) st (Hr _))
    as [e ->].
  reflexivity.
Qed.

Lemma twoKey_loadAll_withRoom (env : LoadEnv) (st : Storage) :
  result (TwoKeyLoader.loadAll env (withRoom st)) = result (TwoKeyLoader.loadAll env st)
  /\ requests (TwoKeyLoader.loadAll env (withRoom st)) = requests (TwoKeyLoader.loadAll env st).
Proof.
  unfold TwoKeyLoader.loadAll. cbv zeta.
  replace (TwoKeyLoader.cachedPair env (withRoom st)) with (TwoKeyLoader.cachedPair env st)
    by reflexivity.
  destruct (TwoKeyLoader.cachedPair env st); [split; reflexivity |].
  destruct (promiseAll2 _ _) as [[r1 r2]|]; [| split; reflexivity].
  destruct (negb (ok r1) || negb (ok r2)); [split; reflexivity |].
  destruct (json env r1); [| split; reflexivity].
  destruct (json env r2); split; reflexivity.
Qed.

Lemma plain_loadAll_withRoom (env : LoadEnv) (st : Storage) :
  result (PlainLoader.loadAll env (withRoom st)) = result (PlainLoader.loadAll env st)
  /\ requests (PlainLoader.loadAll env (withRoom st)) = requests (PlainLoader.loadAll env st).
Proof.
  unfold PlainLoader.loadAll. cbv zeta.
  destruct (promiseAll2 _ _) as [[r1 r2]|]; [| split; reflexivity].
  destruct (negb (ok r1) || negb (ok r2)); [split; reflexivity |].
  destruct (json env r1); [| split; reflexivity].
  destruct (json env r2); split; reflexivity.
Qed.

(** Settles from which of two maps an item comes, for maps made by
    insertions under the keys of the caches. *)
Ltac item_cases k :=
  cbn [items];
  (destruct (decide (k = TtlLoader.SESSION_CACHE_KEY)) as [-> | ?];
   [| destruct (decide (k = TtlLoader.SESSION_BUST_KEY)) as [-> | ?];
      [| destruct (decide (k = TwoKeyLoader.CACHE_CFG_KEY)) as [-> | ?];
         [| destruct (decide (k = TwoKeyLoader.CACHE_DATA_KEY)) as [-> | ?]]]]);
  repeat first [rewrite lookup_insert_eq | rewrite lookup_insert_ne by (done || congruence)];
  first [left; reflexivity | right; reflexivity].

(** The writes of a load, one by one. *)
Ltac each_write st :=
  unfold TtlLoader.writeSessionJSON, TwoKeyLoader.storePair, setItem, withRoom; cbv zeta;
  cbn [items accessible hasRoom];
  let Ha := fresh "Ha" in
  destruct (accessible st) eqn:Ha;
  repeat (cbn [andb items accessible hasRoom]; rewrite ?Ha;
          match goal with
          | |- context [hasRoom st ?written] => destruct (hasRoom st written)
          end);
  cbn [andb items accessible hasRoom]; rewrite ?Ha; cbn [andb items accessible hasRoom].

(** Every item that a load leaves is the one of before, or the one that
    the load leaves in a storage with room. *)
Lemma ttl_storage_items (env : LoadEnv) (clock : Clock) (st : Storage) (k : string) :
  items (storage (TtlLoader.loadAll env clock st)) !! k = items st !! k
  \/ items (storage (TtlLoader.loadAll env clock st)) !! k
     = items (storage (TtlLoader.loadAll env clock (withRoom st))) !! k.
Proof.
  unfold TtlLoader.loadAll. cbv zeta.
  rewrite (readSessionJSON_items env TtlLoader.SESSION_CACHE_KEY st (withRoom st) eq_refl eq_refl).
  destruct (TtlLoader.cachedPair _ _); [left; reflexivity |].
  destruct (getSessionBust_withRoom env (bustTime clock) st) as [(token & -> & ->) | [-> ->]];
    (destruct (promiseAll2 _ _) as [[r1 r2]|]; [| cbn [storage]; each_write st; item_cases k]);
    (destruct (negb (ok r1)); [cbn [storage]; each_write st; item_cases k |]);
    (destruct (negb (ok r2)); [cbn [storage]; each_write st; item_cases k |]);
    (destruct (json env r1) as [cfg|]; [| cbn [storage]; each_write st; item_cases k]);
    (destruct (json env r2) as [data|]; [| cbn [storage]; each_write st; item_cases k]);
    cbn [storage]; each_write st; item_cases k.
Qed.

Lemma twoKey_storage_items (env : LoadEnv) (st : Storage) (k : string) :
  items (storage (TwoKeyLoader.loadAll env st)) !! k = items st !! k
  \/ items (storage (TwoKeyLoader.loadAll env st)) !! k
     = items (storage (TwoKeyLoader.loadAll env (withRoom st))) !! k.
Proof.
  unfold TwoKeyLoader.loadAll. cbv zeta.
  replace (TwoKeyLoader.cachedPair env (withRoom st)) with (TwoKeyLoader.cachedPair env st)
    by reflexivity.
  destruct (TwoKeyLoader.cachedPair env st); [left; reflexivity |].
  destruct (promiseAll2 _ _) as [[r1 r2]|]; [| left; reflexivity].
  destruct (negb (ok r1) || negb (ok r2)); [left; reflexivity |].
  destruct (json env r1) as [cfg|]; [| left; reflexivity].
  destruct (json env r2) as [data|]; [| left; reflexivity].
  cbn [storage]. each_write st; item_cases k.
Qed.

Lemma loadAll_flags (v : Variant) (env : LoadEnv) (clock : Clock) (st : Storage) :
  accessible (storage (loadAll v env clock st)) = accessible st
  /\ hasRoom (storage (loadAll v env clock st)) = hasRoom st.
Proof.
  destruct v; simpl.
  - rewrite plain_storage. split; reflexivity.
  - unfold TtlLoader.loadAll. cbv zeta.
    destruct (TtlLoader.cachedPair _ _); [split; reflexivity |].
    destruct (getSessionBust_frame env (bustTime clock) st) as (Ha & Hr & _).
    destruct (TtlLoader.getSessionBust env (bustTime clock) st) as [token st1].
    simpl in Ha, Hr.
    destruct (promiseAll2 _ _) as [[r1 r2]|]; [| split; assumption].
    destruct (negb (ok r1)); [split; assumption |].
    destruct (negb (ok r2)); [split; assumption |].
    destruct (json env r1) as [cfg|]; [| split; assumption].
    destruct (json env r2) as [data|]; [| split; assumption].
    cbn [storage].
    destruct (writeSessionJSON_frame env TtlLoader.SESSION_CACHE_KEY
                (JObj (<["ts" := JNum (loadTime clock)]> (<["cfg" := cfg]> (<["data" := data]> ∅))))
                st1) as (Ha' & Hr' & _).
    split; congruence.
  - unfold TwoKeyLoader.loadAll. cbv zeta.
    destruct (TwoKeyLoader.cachedPair env st); [split; reflexivity |].
    destruct (promiseAll2 _ _) as [[r1 r2]|]; [| split; reflexivity].
    destruct (negb (ok r1) || negb (ok r2)); [split; reflexivity |].
    destruct (json env r1) as [cfg|]; [| split; reflexivity].
    destruct (json env r2) as [data|]; [| split; reflexivity].
    cbn [storage]. unfold TwoKeyLoader.storePair, setItem. cbv zeta.
    destruct (accessible st) eqn:Ha; cbn [andb]; [| split; [exact Ha | reflexivity]].
    destruct (hasRoom st _); cbn [andb accessible items hasRoom]; [| split; [exact Ha | reflexivity]].
    destruct (hasRoom st _); split; reflexivity.
Qed.

(** X16.  A write that the storage refuses changes nothing for the
    caller.  In every variant and for every storage, whichever writes
    it has room for, [loadAll] returns the same value, after the same
    requests, as with a storage that has room for all of them; the
    flags of the storage stay as they were; every item that the load
    leaves is either the item of before or the item that the load
    leaves in the storage with room, so a refused write leaves no item
    of its own (of two writes, the first may be stored and the second
    refused); and a storage with no room at all is left as it was. *)
Theorem storage_without_room_is_harmless (v : Variant) (env : LoadEnv) (clock : Clock)
        (st : Storage) :
  let run := loadAll v env clock st in
  let roomy := loadAll v env clock (withRoom st) in
  result run = result roomy
  /\ requests run = requests roomy
  /\ accessible (storage run) = accessible st
  /\ hasRoom (storage run) = hasRoom st
  /\ (forall k, items (storage run) !! k = items st !! k
                \/ items (storage run) !! k = items (storage roomy) !! k)
  /\ ((forall written, hasRoom st written = false) -> storage run = st).
Proof.
  intros run roomy. subst run roomy.
  destruct (loadAll_flags v env clock st) as [Ha Hr].
  split_and!; try assumption.
  - destruct v; simpl; symmetry;
      [apply plain_loadAll_withRoom | apply ttl_loadAll_withRoom | apply twoKey_loadAll_withRoom].
  - destruct v; simpl; symmetry;
      [apply plain_loadAll_withRoom | apply ttl_loadAll_withRoom | apply twoKey_loadAll_withRoom].
  - intros k. destruct v; simpl.
    + left. rewrite plain_storage. reflexivity.
    + apply ttl_storage_items.
    + apply twoKey_storage_items.
  - intros Hno. destruct v; simpl.
    + apply plain_storage.
    + apply ttl_storage_no_room, Hno.
    + apply twoKey_storage_no_room, Hno.
Qed.

(** A storage with room for one item, in the two-key variant: the
    configuration is stored and the roster is refused; the load returns
    the documents all the same, and the next load finds half a cache
    and fetches again.  In the TTL variant the one item is the
    cache-bust token, and the documents are not stored.  A storage with
    no room is left empty. *)
Example storage_with_room_for_one_item :
  let first := loadAll TwoKey roundTripEnv (mkClock 1000 1001) oneItemStorage in
  result first = Ok (sampleCfgJSON, sampleDataJSON)
  /\ items (storage first) = {[TwoKeyLoader.CACHE_CFG_KEY := "{cfg}"]}
  /\ requests (loadAll TwoKey roundTripEnv (mkClock 2000 2001) (storage first))
     = [mkRequest "data/config.json" (Some "force-cache");
        mkRequest "data/data.json" (Some "force-cache")]
  /\ items (storage (loadAll TtlCache roundTripEnv (mkClock 1000 1001) oneItemStorage))
     = {[TtlLoader.SESSION_BUST_KEY := "{bust}"]}
  /\ (forall v, storage (loadAll v roundTripEnv (mkClock 1000 1001) fullStorage) = fullStorage).
Proof.
  split_and!; try (vm_compute; reflexivity).
  intros v. destruct v; vm_compute; reflexivity.
Qed.

(** X17.  The watchdog of the TTL variant: when one of the two requests
    of a load fails or is answered after more than 12000 ms, the load is
    rejected, whatever the other response and the late response are.
    The plain variant has no watchdog: it returns the documents of two
    successful responses however late they come. *)
Theorem watchdog_rejects_late_answers (env : LoadEnv) (clock : Clock) (st : Storage) :
  (forall reqCfg reqData,
      requests (TtlLoader.loadAll env clock st) = [reqCfg; reqData] ->
      timedOut env reqCfg \/ timedOut env reqData ->
      result (TtlLoader.loadAll env clock st) = Throw FetchRejected)
  /\ (forall t1 t2 r1 r2 cfg data,
         network env (mkRequest "data/config.json" None) = Answers t1 r1 ->
         network env (mkRequest "data/data.json" None) = Answers t2 r2 ->
         ok r1 = true -> ok r2 = true ->
         JSON_parse env (body r1) = Some cfg ->
         JSON_parse env (body r2) = Some data ->
         result (PlainLoader.loadAll env st) = Ok (cfg, data)).
Proof.
  split.
  - intros reqCfg reqData Hsent Hlate.
    assert (Hmiss := ttl_sent_miss env clock st ltac:(rewrite Hsent; discriminate)).
    rewrite (ttl_miss_requests env clock st Hmiss) in Hsent. cbv zeta in Hsent.
    injection Hsent as <- <-.
    unfold TtlLoader.loadAll. cbv zeta. rewrite Hmiss.
    destruct (TtlLoader.getSessionBust env (bustTime clock) st) as [token st1].
    simpl fst in *. unfold timedOut in Hlate.
    unfold TtlLoader.fetchWithTimeout, CONFIG_URL, DATA_URL.
    destruct (network env (mkRequest ("data/config.json" +:+ "?v=" +:+ Number_toString env token) _))
      as [|t1 r1]; [reflexivity |].
    destruct (network env (mkRequest ("data/data.json" +:+ "?v=" +:+ Number_toString env token) _))
      as [|t2 r2].
    + destruct (t1 <=? TtlLoader.FETCH_TIMEOUT_MS)%Z; reflexivity.
    + destruct (Z.leb_spec t1 TtlLoader.FETCH_TIMEOUT_MS); [| reflexivity].
      destruct (Z.leb_spec t2 TtlLoader.FETCH_TIMEOUT_MS); [| reflexivity].
      destruct Hlate; lia.
  - intros t1 t2 r1 r2 cfg data Hn1 Hn2 Hok1 Hok2 Hp1 Hp2.
    unfold PlainLoader.loadAll, fetch, json, CONFIG_URL, DATA_URL. cbv zeta.
    rewrite Hn1, Hn2. simpl. rewrite Hok1, Hok2. simpl. rewrite Hp1, Hp2. reflexivity.
Qed.

(** A roster that takes 15 seconds: rejected by the TTL variant, used by
    the plain variant. *)
Example watchdog_sample :
  let env := mkLoadEnv sampleParse (fun _ => "{}")
               (fun req => if startsWith "data/config.json" (url req)
                           then Answers 20 (mkResponse true 200 "{cfg}")
                           else Answers 15000 (mkResponse true 200 "{data}"))
               string_of_Z in
  result (loadAll TtlCache env (mkClock 0 0) emptyStorage) = Throw FetchRejected
  /\ result (loadAll Plain env (mkClock 0 0) emptyStorage) = Ok (sampleCfgJSON, sampleDataJSON).
Proof. split; vm_compute; reflexivity. Qed.

(** The token goes into the URL as the platform writes a number: a
    stored token of ten to the 21st, which it writes with an exponent,
    is sent as it writes it. *)
Example bust_token_as_the_platform_writes_it :
  let env := mkLoadEnv (fun text => if String.eqb text "{bust}"
                                    then Some (JObj (<["v" := JNum (10 ^ 21)]>
                                                       (<["ts" := JNum 1000]> ∅)))
                                    else sampleParse text)
                       (fun _ => "{}")
                       (sampleNetwork (mkResponse true 200 "{data}"))
                       (fun z => if (z =? 10 ^ 21)%Z then "1e+21" else string_of_Z z) in
  let st := mkStorage (<[TtlLoader.SESSION_BUST_KEY := "{bust}"]> ∅) true (fun _ => true) in
  requests (loadAll TtlCache env (mkClock 2000 2000) st)
  = [mkRequest "data/config.json?v=1e+21" (Some "no-cache");
     mkRequest "data/data.json?v=1e+21" (Some "no-cache")].
Proof. vm_compute. reflexivity. Qed.

(** X18.  No partial result.  In every variant, when [loadAll] returns a
    pair of documents, either it sent no request and the pair comes from
    the cache (never in the plain variant), or it sent exactly the two
    requests, both were answered successfully, and the pair is what the
    two bodies parse to. *)
Theorem loaded_pair_is_whole (v : Variant) (env : LoadEnv) (clock : Clock) (st : Storage)
        (cfg data : JSON) :
  result (loadAll v env clock st) = Ok (cfg, data) ->
  (requests (loadAll v env clock st) = [] /\ v <> Plain
   /\ storage (loadAll v env clock st) = st)
  \/ (exists reqCfg reqData t1 t2 r1 r2,
         requests (loadAll v env clock st) = [reqCfg; reqData]
         /\ network env reqCfg = Answers t1 r1
         /\ network env reqData = Answers t2 r2
         /\ ok r1 = true /\ ok r2 = true
         /\ JSON_parse env (body r1) = Some cfg
         /\ JSON_parse env (body r2) = Some data).
Proof.
  intros Hok. destruct v; simpl in *.
  - right. destruct (plain_loadAll_Ok env st cfg data Hok)
      as (t1 & t2 & r1 & r2 & Hn1 & Hn2 & H1 & H2 & P1 & P2).
    exists (mkRequest "data/config.json" None), (mkRequest "data/data.json" None), t1, t2, r1, r2.
    rewrite plain_requests. split_and!; try reflexivity; assumption.
  - destruct (TtlLoader.cachedPair (loadTime clock)
                (TtlLoader.readSessionJSON env TtlLoader.SESSION_CACHE_KEY st)) as [hit|] eqn:Hhit.
    + left. unfold TtlLoader.loadAll. cbv zeta. rewrite Hhit. simpl.
      split_and!; [reflexivity | discriminate | reflexivity].
    + right. destruct (ttl_loadAll_Ok env clock st cfg data Hhit Hok)
        as (t1 & t2 & r1 & r2 & Hn1 & Hn2 & _ & _ & H1 & H2 & P1 & P2 & _).
      rewrite (ttl_miss_requests env clock st Hhit). cbv zeta.
      do 2 eexists. exists t1, t2, r1, r2.
      split_and!; [reflexivity | exact Hn1 | exact Hn2 | | | |]; assumption.
  - destruct (TwoKeyLoader.cachedPair env st) as [hit|] eqn:Hhit.
    + left. unfold TwoKeyLoader.loadAll. rewrite Hhit. simpl.
      split_and!; [reflexivity | discriminate | reflexivity].
    + right. destruct (twoKey_loadAll_Ok env st cfg data Hhit Hok)
        as (t1 & t2 & r1 & r2 & Hn1 & Hn2 & H1 & H2 & P1 & P2 & _).
      rewrite (twoKey_miss_requests env st Hhit).
      do 2 eexists. exists t1, t2, r1, r2.
      split_and!; [reflexivity | exact Hn1 | exact Hn2 | | | |]; assumption.
Qed.

Lemma loaded_pair_is_whole_witness :
  let env := sampleLoadEnv (mkResponse true 200 "{data}") in
  (requests (loadAll TwoKey env (mkClock 0 0) emptyStorage) = [] /\ TwoKey <> Plain
   /\ storage (loadAll TwoKey env (mkClock 0 0) emptyStorage) = emptyStorage)
  \/ (exists reqCfg reqData t1 t2 r1 r2,
         requests (loadAll TwoKey env (mkClock 0 0) emptyStorage) = [reqCfg; reqData]
         /\ network env reqCfg = Answers t1 r1
         /\ network env reqData = Answers t2 r2
         /\ ok r1 = true /\ ok r2 = true
         /\ JSON_parse env (body r1) = Some sampleCfgJSON
         /\ JSON_parse env (body r2) = Some sampleDataJSON).
Proof.
  apply (loaded_pair_is_whole TwoKey (sampleLoadEnv (mkResponse true 200 "{data}"))
           (mkClock 0 0) emptyStorage sampleCfgJSON sampleDataJSON).
  reflexivity.
Defined.

(** ** The entry point *)

Lemma hideError_page (p : Page) :
  qs "#error" (hideError p) = cleared <$> qs "#error" p
  /\ (forall sel, sel <> "#error" -> qs sel (hideError p) = qs sel p)
  /\ dataGrade (hideError p) = dataGrade p
  /\ prefetchLinks (hideError p) = prefetchLinks p
  /\ docTitle (hideError p) = docTitle p.
Proof.
  unfold hideError. split_and!.
  - rewrite qs_updateElement_eq. reflexivity.
  - intros sel Hsel. apply qs_updateElement_ne. congruence.
  - apply rest_updateElement.
  - apply rest_updateElement.
  - apply rest_updateElement.
Qed.

(** An error shown by [main]: the message in the error region, and the
    rest of the page as it was. *)
Lemma error_only (message : string) (p : Page) :
  message <> "" ->
  let p' := showError message (hideError p) in
  qs "#error" p' = (fun err => mkElement false (href err) [Text message]) <$> qs "#error" p
  /\ (forall sel, sel <> "#error" -> qs sel p' = qs sel p)
  /\ dataGrade p' = dataGrade p
  /\ prefetchLinks p' = prefetchLinks p
  /\ docTitle p' = docTitle p.
Proof.
  intros Hm p'. subst p'.
  destruct (hideError_page p) as (He & Ho & Hg & Hl & Ht).
  destruct (showError_page message (hideError p) Hm) as (He' & Ho' & Hg' & Hl' & Ht').
  split_and!.
  - destruct (qs "#error" p) as [err|] eqn:Herr.
    + simpl in *. rewrite (He' _ He). reflexivity.
    + unfold showError. rewrite qs_updateElement_eq, He. reflexivity.
  - intros sel Hsel. rewrite (Ho' sel Hsel). apply Ho, Hsel.
  - congruence.
  - congruence.
  - congruence.
Qed.

(** X19.  A missing parameter or an unknown page is an error and nothing
    is rendered.  After a successful load, on the grade page with no [g]
    in the query or an empty one, on the group page with [g] or [group]
    missing or empty, and on a page whose marker is none of [home],
    [grade], [group] (or is missing), [main] shows the message of the
    case in the error region and leaves every other element, the accent,
    the prefetch hints and the title as they were. *)
Theorem main_reports_bad_request (v : Variant) (env : JsEnv) (cenv : ClockEnv)
        (cfg : Config) (data : Data) (w : Window) :
  let doc' := document (main v env cenv (Ok (cfg, data)) w) in
  let shows message :=
    qs "#error" doc'
    = (fun err => mkElement false (href err) [Text message]) <$> qs "#error" (document w)
    /\ (forall sel, sel <> "#error" -> qs sel doc' = qs sel (document w))
    /\ dataGrade doc' = dataGrade (document w)
    /\ prefetchLinks doc' = prefetchLinks (document w)
    /\ docTitle doc' = docTitle (document w) in
  (dataPage w = Some "grade" ->
   searchGet "g" w = None \/ searchGet "g" w = Some EmptyString ->
   shows "חסרה שכבה בכתובת")
  /\ (dataPage w = Some "group" ->
      searchGet "g" w = None \/ searchGet "g" w = Some EmptyString
      \/ searchGet "group" w = None \/ searchGet "group" w = Some EmptyString ->
      shows "חסרים פרטים בכתובת")
  /\ (dataPage w <> Some "home" -> dataPage w <> Some "grade" -> dataPage w <> Some "group" ->
      shows "דף לא נתמך").
Proof.
  intros doc' shows. subst shows. cbv beta. split_and!.
  - intros Hpage Hg.
    assert (Hdoc : doc' = showError "חסרה שכבה בכתובת" (hideError (document w))).
    { subst doc'. unfold main, getParams, searchGet in *.
      destruct v; simpl; rewrite Hpage; simpl;
        destruct Hg as [-> | ->]; reflexivity. }
    rewrite Hdoc. apply error_only. discriminate.
  - intros Hpage Hg.
    assert (Hdoc : doc' = showError "חסרים פרטים בכתובת" (hideError (document w))).
    { subst doc'. unfold main, getParams, searchGet in *.
      destruct v; simpl; rewrite Hpage; simpl;
        destruct Hg as [-> | [-> | [-> | ->]]]; simpl;
        rewrite ?orb_true_r; try reflexivity;
        destruct (String.eqb _ ""); reflexivity. }
    rewrite Hdoc. apply error_only. discriminate.
  - intros Hhome Hgrade Hgroup.
    assert (Hdoc : doc' = showError "דף לא נתמך" (hideError (document w))).
    { subst doc'. unfold main, getParams.
      assert (Hp : default "" (dataPage w) <> "home" /\ default "" (dataPage w) <> "grade"
                   /\ default "" (dataPage w) <> "group")
        by (destruct (dataPage w); simpl; split_and!; congruence).
      destruct Hp as (H1 & H2 & H3). apply String.eqb_neq in H1, H2, H3.
      destruct v; simpl; rewrite H1, H2, H3; reflexivity. }
    rewrite Hdoc. apply error_only. discriminate.
Qed.

(** The grade page opened without a query, with an empty [g], and a page
    without marker. *)
Example main_reports_bad_request_sample (v : Variant) :
  kids <$> qs "#error" (document (main v sampleEnv sampleClock (Ok (sampleConfig, sampleData))
                                   (sampleWindow (Some "grade") [])))
  = Some [Text "חסרה שכבה בכתובת"]
  /\ kids <$> qs "#error" (document (main v sampleEnv sampleClock (Ok (sampleConfig, sampleData))
                                      (sampleWindow (Some "group") [("g", "z"); ("group", "")])))
     = Some [Text "חסרים פרטים בכתובת"]
  /\ kids <$> qs "#error" (document (main v sampleEnv sampleClock (Ok (sampleConfig, sampleData))
                                      (sampleWindow None [("g", "z")])))
     = Some [Text "דף לא נתמך"].
Proof. destruct v; vm_compute; repeat split. Qed.

(** X20.  When the load fails, [main] shows one message whatever the
    failure was (a refused request, a malformed body and a timeout look
    the same to the user) and renders nothing.  The plain and the
    two-key variant always show the local-files message; the TTL variant
    shows it under the [file:] protocol and the retry message
    otherwise. *)
Theorem main_reports_load_failure (v : Variant) (env : JsEnv) (cenv : ClockEnv)
        (e : Exn) (w : Window) :
  let doc' := document (main v env cenv (Throw e) w) in
  let message :=
    match v with
    | TtlCache => if String.eqb (protocol w) "file:" then LOCAL_ERROR else RETRY_ERROR
    | _ => LOCAL_ERROR
    end in
  qs "#error" doc'
  = (fun err => mkElement false (href err) [Text message]) <$> qs "#error" (document w)
  /\ (forall sel, sel <> "#error" -> qs sel doc' = qs sel (document w))
  /\ dataGrade doc' = dataGrade (document w)
  /\ prefetchLinks doc' = prefetchLinks (document w)
  /\ docTitle doc' = docTitle (document w).
Proof.
  intros doc' message.
  assert (Hdoc : doc' = showError message (hideError (document w))).
  { subst doc' message. unfold main. destruct v; reflexivity. }
  rewrite Hdoc. apply error_only.
  subst message. destruct v; try discriminate.
  destruct (String.eqb (protocol w) "file:"); discriminate.
Qed.

(** *** The ready state *)

Lemma classAdd_elem (c : string) (classes : list string) : c ∈ classAdd c classes.
Proof.
  unfold classAdd. destruct (existsb (String.eqb c) classes) eqn:Hex.
  - apply existsb_eqb_elem, Hex.
  - apply elem_of_app. right. left.
Qed.

Lemma classAdd_other (c x : string) (classes : list string) :
  x <> c -> x ∉ classes -> x ∉ classAdd c classes.
Proof.
  intros Hne Hx. unfold classAdd. destruct (existsb (String.eqb c) classes); [exact Hx |].
  intros Hin. apply elem_of_app in Hin as [Hin | Hin]; [contradiction |].
  apply list_elem_of_singleton in Hin. contradiction.
Qed.

Lemma classRemove_gone (c : string) (classes : list string) : c ∉ classRemove c classes.
Proof.
  unfold classRemove. rewrite list_elem_of_In, filter_In. intros [_ H].
  rewrite String.eqb_refl in H. discriminate.
Qed.

Lemma runFrame_ready (cb : FrameCallback) (w : Window) :
  "is-ready" ∈ bodyClasses (runFrame cb w)
  /\ ("is-entering" ∉ bodyClasses (runFrame cb w))
  /\ document (runFrame cb w) = document w
  /\ frames (runFrame cb w) = frames w.
Proof.
  destruct cb. simpl. split_and!; try reflexivity.
  - apply classAdd_elem.
  - apply classAdd_other; [discriminate | apply classRemove_gone].
Qed.

Lemma fold_runFrame (cbs : list FrameCallback) (w : Window) :
  document (fold_left (fun w cb => runFrame cb w) cbs w) = document w
  /\ frames (fold_left (fun w cb => runFrame cb w) cbs w) = frames w.
Proof.
  revert w. induction cbs as [|cb cbs IH]; intros w; simpl; [split; reflexivity |].
  destruct (IH (runFrame cb w)) as [-> ->]. destruct cb. split; reflexivity.
Qed.

Lemma nextFrame_ready (w : Window) :
  frames w <> [] ->
  "is-ready" ∈ bodyClasses (nextFrame w)
  /\ ("is-entering" ∉ bodyClasses (nextFrame w))
  /\ frames (nextFrame w) = []
  /\ document (nextFrame w) = document w.
Proof.
  intros Hne. unfold nextFrame.
  destruct (fold_runFrame (frames w)
              (mkWindow (document w) (bodyClasses w) (dataPage w) (search w) (protocol w)
                        (clickListeners w) [] (intervals w))) as [Hdoc Hfr].
  split_and!; [| | exact Hfr | exact Hdoc].
  - destruct (frames w) as [|cb cbs] using rev_ind; [congruence |].
    rewrite fold_left_app. simpl. apply runFrame_ready.
  - destruct (frames w) as [|cb cbs] using rev_ind; [congruence |].
    rewrite fold_left_app. simpl. apply runFrame_ready.
Qed.

(** What [main] does to the window besides the document. *)
Lemma main_window (v : Variant) (env : JsEnv) (cenv : ClockEnv)
      (loaded : Result (Config * Data)) (w : Window) :
  let w' := main v env cenv loaded w in
  match navDelay v with
  | Some d =>
      frames w' = frames w ++ [ReadyFrame]
      /\ bodyClasses w' = classAdd "is-entering" (bodyClasses w)
      /\ clickListeners w' = clickListeners w ++ [d]
  | None =>
      frames w' = frames w
      /\ bodyClasses w' = bodyClasses w
      /\ clickListeners w' = clickListeners w
  end.
Proof.
  unfold main, getParams.
  destruct v, loaded as [[cfg data]|e]; simpl;
    repeat match goal with
           | |- context [if ?b then _ else _] => destruct b
           end;
    repeat match goal with
           | |- context [match ?r with Returns _ => _ | Throws _ _ => _ end] => destruct r
           end;
    unfold startHomeClock; simpl;
    repeat match goal with
           | |- context [match qs ?s ?p with _ => _ end] => destruct (qs s p)
           end;
    split_and!; reflexivity.
Qed.

(** X21.  The page always becomes ready.  In the two variants with
    transition classes, whatever the load returned and whatever the page
    marker and the query are, [main] asks for exactly one animation
    frame, and once the frame has run the body has the class [is-ready]
    and not the class [is-entering], no callback is left waiting, and
    one fast-navigation listener with the delay of the variant is
    installed.  The plain variant touches neither classes nor frames nor
    listeners. *)
Theorem main_reaches_ready (v : Variant) (env : JsEnv) (cenv : ClockEnv)
        (loaded : Result (Config * Data)) (w : Window) :
  let w' := main v env cenv loaded w in
  (forall d, navDelay v = Some d ->
     frames w' = frames w ++ [ReadyFrame]
     /\ "is-ready" ∈ bodyClasses (nextFrame w')
     /\ ("is-entering" ∉ bodyClasses (nextFrame w'))
     /\ frames (nextFrame w') = []
     /\ document (nextFrame w') = document w'
     /\ clickListeners w' = clickListeners w ++ [d])
  /\ (v = Plain ->
      frames w' = frames w /\ bodyClasses w' = bodyClasses w
      /\ clickListeners w' = clickListeners w).
Proof.
  intros w'. assert (Hw := main_window v env cenv loaded w). fold w' in Hw. cbv zeta in Hw.
  split.
  - intros d Hd. rewrite Hd in Hw. destruct Hw as (Hfr & _ & Hl).
    destruct (nextFrame_ready w') as (H1 & H2 & H3 & H4).
    { rewrite Hfr. intros H. apply app_eq_nil in H as [_ H]. discriminate. }
    split_and!; assumption.
  - intros ->. exact Hw.
Qed.

Example main_reaches_ready_sample :
  bodyClasses (nextFrame (main TtlCache sampleEnv sampleClock (Throw SyntaxError)
                            (sampleWindow (Some "home") [])))
  = ["is-ready"]
  /\ bodyClasses (nextFrame (main TwoKey sampleEnv sampleClock (Ok (sampleConfig, sampleData))
                               (sampleWindow (Some "group") [("g", "z"); ("group", "z_a")])))
     = ["is-ready"].
Proof. split; vm_compute; reflexivity. Qed.

(** *** The views *)






Lemma main_group_page (v : Variant) (env : JsEnv) (cenv : ClockEnv) (cfg : Config)
      (data : Data) (w : Window) (gradeKey groupId : string) :
  dataPage w = Some "group" ->
  searchGet "g" w = Some gradeKey -> gradeKey <> "" ->
  searchGet "group" w = Some groupId -> groupId <> "" ->
  document (main v env cenv (Ok (cfg, data)) w)
  = caughtPage v w (renderGroup env v cfg data gradeKey groupId (hideError (document w))).
Proof.
  intros Hpage Hg Hne Hgr Hne'. unfold main, getParams, searchGet in *.
  apply String.eqb_neq in Hne, Hne'.
  destruct v; simpl; rewrite Hpage, Hg, Hgr; simpl; rewrite Hne, Hne';
    destruct (renderGroup _ _ _ _ _ _ _); reflexivity.
Qed.

Lemma main_group_page_missing (v : Variant) (env : JsEnv) (cenv : ClockEnv) (cfg : Config)
      (data : Data) (w : Window) :
  dataPage w = Some "group" ->
  default "" (searchGet "g" w) = "" \/ default "" (searchGet "group" w) = "" ->
  document (main v env cenv (Ok (cfg, data)) w)
  = showError "חסרים פרטים בכתובת" (hideError (document w)).
Proof.
  intros Hpage Hmissing. unfold main, getParams.
  replace (String.eqb (default "" (searchGet "g" w)) ""
           || String.eqb (default "" (searchGet "group" w)) "") with true
    by (destruct Hmissing as [-> | ->]; rewrite ?orb_true_r; reflexivity).
  unfold searchGet in *.
  destruct v; simpl; rewrite Hpage; simpl;
    match goal with
    | |- context [if ?b then _ else _] =>
        replace b with true
          by (destruct Hmissing as [-> | ->]; rewrite ?orb_true_r; reflexivity)
    end; reflexivity.
Qed.


(** The example scenario through [main]: the group page for
    [?g=z&group=z_a], on a page that still shows an old error. *)
Example main_renders_view_sample (v : Variant) :
  let stale := setElement "#error" (mkElement false "" [Text "old"]) samplePage in
  let w := mkWindow stale [] (Some "group") [("g", "z"); ("group", "z_a")] "http:" [] [] [] in
  let doc' := document (main v sampleEnv sampleClock (Ok (sampleConfig, sampleData)) w) in
  qs "#error" doc' = Some (mkElement true "" [])
  /\ length <$> (kids <$> qs "#students" doc') = Some 3
  /\ docTitle doc' = "TALMID".
Proof. destruct v; vm_compute; repeat split. Qed.

(** A view that throws, through [main]: the grade page of a grade with
    an id that does not encode ends with the load-error message, in the
    plain variant beside the card that was appended before. *)
Example main_catches_view (v : Variant) :
  let w := sampleWindow (Some "grade") [("g", "z")] in
  let doc' := document (main v sampleEnv sampleClock (Ok (sampleConfig, brokenIdData)) w) in
  kids <$> qs "#error" doc' = Some [Text (loadErrorMessage v w)]
  /\ length <$> (kids <$> qs "#groups" doc')
     = Some (match v with TtlCache => 0 | _ => 1 end)
  /\ docTitle doc' = "".
Proof. destruct v; vm_compute; repeat split. Qed.

(** ** From the grade page to the group page *)

Lemma hexDigit_unreserved (n : nat) : isUnreserved (hexDigit n) = true.
Proof. do 16 (destruct n as [|n]; [reflexivity |]). destruct n; reflexivity. Qed.

Lemma unreserved_differs (c sep : ascii) :
  isUnreserved c = true -> isUnreserved sep = false -> Ascii.eqb c sep = false.
Proof.
  intros Hc Hsep. destruct (Ascii.eqb_spec c sep) as [-> |]; [congruence | reflexivity].
Qed.

(** [URLSearchParams] decodes what [encodeURIComponent] encoded. *)
Lemma formDecode_percentEncode (s : string) : formDecode (percentEncode s) = s.
Proof.
  induction s as [|c s IH]; [reflexivity |].
  destruct c as [[] [] [] [] [] [] [] []]; simpl; rewrite IH; reflexivity.
Qed.

Lemma cutAt_cons (sep c : ascii) (s : string) :
  Ascii.eqb c sep = false ->
  cutAt sep (String c s) = (String c (cutAt sep s).1, (cutAt sep s).2).
Proof. intros Hc. simpl. rewrite Hc. destruct (cutAt sep s); reflexivity. Qed.

(** Encoded text holds none of the characters that separate the parts
    of a URL. *)
Lemma cutAt_percentEncode (sep : ascii) (s : string) :
  isUnreserved sep = false -> sep <> "%"%char ->
  cutAt sep (percentEncode s) = (percentEncode s, None).
Proof.
  intros Hsep Hpct. induction s as [|c s IH]; [reflexivity |].
  change (percentEncode (String c s))
    with (if isUnreserved c then String c (percentEncode s)
          else String "%" (String (hexDigit (nat_of_ascii c / 16))
                             (String (hexDigit (nat_of_ascii c mod 16)) (percentEncode s)))).
  destruct (isUnreserved c) eqn:Hc.
  - rewrite (cutAt_cons sep c _ (unreserved_differs c sep Hc Hsep)), IH. reflexivity.
  - rewrite (cutAt_cons sep "%") by (apply Ascii.eqb_neq; congruence).
    rewrite !(cutAt_cons sep (hexDigit _))
      by (apply unreserved_differs; [apply hexDigit_unreserved | exact Hsep]).
    rewrite IH. reflexivity.
Qed.

Lemma cutAt_app (sep : ascii) (a t : string) :
  cutAt sep a = (a, None) ->
  cutAt sep (a +:+ t) = (a +:+ (cutAt sep t).1, (cutAt sep t).2).
Proof.
  induction a as [|c a IH].
  - intros _. change ("" +:+ t) with t. destruct (cutAt sep t); reflexivity.
  - change (String c a +:+ t) with (String c (a +:+ t)).
    cbn [cutAt]. destruct (Ascii.eqb c sep); [discriminate |].
    destruct (cutAt sep a) as [before after] eqn:Ha. intros [= -> ->].
    rewrite (IH eq_refl). reflexivity.
Qed.

Lemma append_empty (a : string) : a +:+ "" = a.
Proof.
  induction a as [|c a IH]; [reflexivity |].
  change (String c a +:+ "") with (String c (a +:+ "")). rewrite IH. reflexivity.
Qed.

Lemma cutAt_clean_app (sep : ascii) (a b : string) :
  cutAt sep a = (a, None) -> cutAt sep b = (b, None) -> cutAt sep (a +:+ b) = (a +:+ b, None).
Proof. intros Ha Hb. rewrite (cutAt_app sep a b Ha), Hb. reflexivity. Qed.

Lemma cutAt_hit (sep : ascii) (a t : string) :
  cutAt sep a = (a, None) -> cutAt sep (a +:+ String sep t) = (a, Some t).
Proof.
  intros Ha. rewrite (cutAt_app sep a _ Ha). cbn [cutAt]. rewrite Ascii.eqb_refl.
  cbn [fst snd]. rewrite append_empty. reflexivity.
Qed.

Lemma splitOn_cutAt (sep : ascii) (s : string) :
  splitOn sep s
  = match cutAt sep s with
    | (piece, None) => [piece]
    | (piece, Some rest) => piece :: splitOn sep rest
    end.
Proof.
  induction s as [|c s IH]; [reflexivity |].
  simpl. destruct (Ascii.eqb c sep); [reflexivity |].
  rewrite IH. destruct (cutAt sep s) as [piece [rest|]]; reflexivity.
Qed.

(** The query of the link of a card, as the group page reads it. *)
Lemma searchParams_group_link (gradeKey groupId : string) :
  searchParams ("group.html?g=" +:+ percentEncode gradeKey
                +:+ "&group=" +:+ percentEncode groupId)
  = [("g", gradeKey); ("group", groupId)].
Proof.
  unfold searchParams.
  assert (Hclean : forall sep, isUnreserved sep = false -> sep <> "%"%char ->
                     forall a, cutAt sep a = (a, None) ->
                     forall s, cutAt sep (a +:+ percentEncode s) = (a +:+ percentEncode s, None)).
  { intros sep H1 H2 a Ha s. apply cutAt_clean_app; [exact Ha |].
    apply cutAt_percentEncode; assumption. }
  replace (cutAt "#" ("group.html?g=" +:+ percentEncode gradeKey
                      +:+ "&group=" +:+ percentEncode groupId))
    with ("group.html?g=" +:+ percentEncode gradeKey +:+ "&group=" +:+ percentEncode groupId,
          @None string).
  2:{ symmetry. apply cutAt_clean_app; [reflexivity |].
      apply cutAt_clean_app; [apply cutAt_percentEncode; [reflexivity | discriminate] |].
      apply Hclean; [reflexivity | discriminate | reflexivity]. }
  cbn [fst].
  change ("group.html?g=" +:+ percentEncode gradeKey +:+ "&group=" +:+ percentEncode groupId)
    with ("group.html"
          +:+ String "?" (("g=" +:+ percentEncode gradeKey)
                          +:+ String "&" ("group=" +:+ percentEncode groupId))).
  rewrite (cutAt_hit "?" "group.html" _ eq_refl). cbn [snd].
  rewrite splitOn_cutAt.
  rewrite (cutAt_hit "&" ("g=" +:+ percentEncode gradeKey))
    by (apply Hclean; [reflexivity | discriminate | reflexivity]).
  rewrite splitOn_cutAt.
  rewrite (Hclean "&"%char eq_refl ltac:(discriminate) "group=" eq_refl).
  cbn [List.filter String.eqb append negb fmap list_fmap].
  change ("g=" +:+ percentEncode gradeKey) with ("g" +:+ String "=" (percentEncode gradeKey)).
  change ("group=" +:+ percentEncode groupId)
    with ("group" +:+ String "=" (percentEncode groupId)).
  change (negb ("g" +:+ String "=" (percentEncode gradeKey) =? "")) with true.
  change (negb ("group" +:+ String "=" (percentEncode groupId) =? "")) with true.
  cbn [fmap list_fmap].
  rewrite !cutAt_hit by reflexivity. cbn [fst snd default]. unfold Datatypes.id.
  rewrite !formDecode_percentEncode. reflexivity.
Qed.

Lemma findGroup_of_member (grade : Grade) (grp : Group) :
  grp ∈ orEmpty (groups grade) ->
  exists shown,
    findGroup grade (id grp) = Some shown
    /\ (NoDup (id <$> orEmpty (groups grade)) -> shown = grp).
Proof.
  intros Hin.
  destruct (js_find_present (fun gr => String.eqb (id gr) (id grp)) _ grp Hin
              (String.eqb_refl _)) as [shown Hshown].
  exists shown. split; [exact Hshown |].
  intros Hnd. unfold findGroup in Hshown.
  rewrite (js_find_unique id _ grp Hnd Hin) in Hshown. congruence.
Qed.

(** X9.  The card of a group leads to the table of that group.  On the
    grade page, for a grade key and ids that encode, [renderGrade]
    returns, and the card it makes for the group at index [i] of the
    grade is an anchor whose href carries the grade key as [g] and the
    id of the group as [group], as [URLSearchParams] reads them from
    the link.  On the group page that this link opens, when the key
    and the id are not empty, [main] fills the table with the students
    and the title with the name of the first group of the grade that
    has this id (the group of the card, when the ids of the grade are
    pairwise different), and leaves the error region empty; when the
    key or the id is empty, [main] shows the missing-details message
    and leaves the table as it was: such a card leads to no table. *)
Theorem group_card_leads_to_its_table (env : JsEnv) (cenv : ClockEnv) (v : Variant)
        (cfg : Config) (data : Data) (gradeKey : string) (p : Page) (grade : Grade)
        (groupsEl : Element) (i : nat) (grp : Group) :
  (forall s, isWellFormed s = true -> encodeURIComponent env s = percentEncode s) ->
  findGrade data gradeKey = Some grade ->
  qs "#groups" p = Some groupsEl ->
  wellFormedGroups gradeKey grade ->
  plainLabels v grade ->
  orEmpty (groups grade) !! i = Some grp ->
  exists gradePage cards link children shown,
    renderGrade env v cfg data gradeKey p = Returns gradePage
    /\ kids <$> qs "#groups" gradePage = Some cards
    /\ cards !! i = Some (El "a" "groupCard" [("href", link)] children)
    /\ searchParams link = [("g", gradeKey); ("group", id grp)]
    /\ findGroup grade (id grp) = Some shown
    /\ (NoDup (id <$> orEmpty (groups grade)) -> shown = grp)
    /\ forall (w : Window) (tbody : Element),
         dataPage w = Some "group" ->
         search w = searchParams link ->
         qs "#students" (document w) = Some tbody ->
         let doc' := document (main v env cenv (Ok (cfg, data)) w) in
         (gradeKey <> "" -> id grp <> "" ->
          kids <$> qs "#students" doc' = Some (imap studentRow (orEmpty (students shown)))
          /\ kids <$> qs "#group-title" doc'
             = (fun _ => textNodes (name shown)) <$> qs "#group-title" (document w)
          /\ kids <$> qs "#error" doc' = (fun _ => []) <$> qs "#error" (document w))
         /\ (gradeKey = "" \/ id grp = "" ->
             kids <$> qs "#error" doc'
             = (fun _ => [Text "חסרים פרטים בכתובת"]) <$> qs "#error" (document w)
             /\ qs "#students" doc' = qs "#students" (document w)).
Proof.
  intros Henc Hgrade Hgroups Hwf _ Hi.
  assert (Hin : grp ∈ orEmpty (groups grade)) by (apply list_elem_of_lookup; eauto).
  destruct (findGroup_of_member grade grp Hin) as (shown & Hshown & Hsame).
  assert (Hlink : searchParams (groupHref env gradeKey (id grp))
                  = [("g", gradeKey); ("group", id grp)]).
  { unfold groupHref. rewrite (Henc gradeKey) by apply Hwf.
    rewrite (Henc (id grp)) by (apply Hwf, Hin). apply searchParams_group_link. }
  exists (pageOf (renderGrade env v cfg data gradeKey p)),
    (cardFor env v gradeKey <$> orEmpty (groups grade)),
    (groupHref env gradeKey (id grp)),
    [El "p" "groupCard__name" [] (textNodes (name grp));
     El "p" "groupCard__teacher" [] (textNodes (teacher grp));
     El "p" "groupCard__count" []
        (htmlNodes (groupCountHtml env v (length (orEmpty (students grp))) (name grp)))],
    shown.
  rewrite (renderGrade_page _ _ _ _ _ _ _ Hgrade Hwf). cbv zeta. rewrite Hgroups.
  split_and!.
  - reflexivity.
  - simpl pageOf. page_simpl. rewrite Hgroups. reflexivity.
  - rewrite list_lookup_fmap, Hi. reflexivity.
  - exact Hlink.
  - exact Hshown.
  - exact Hsame.
  - intros w tbody Hpage Hsearch Htbody. rewrite Hlink in Hsearch.
    set (doc' := document (main v env cenv (Ok (cfg, data)) w)).
    assert (Hg : searchGet "g" w = Some gradeKey)
      by (unfold searchGet; rewrite Hsearch; reflexivity).
    assert (Hgr : searchGet "group" w = Some (id grp))
      by (unfold searchGet; rewrite Hsearch; reflexivity).
    split.
    + intros Hne Hne'.
      assert (Hdoc := main_group_page v env cenv cfg data w gradeKey (id grp)
                        Hpage Hg Hne Hgr Hne').
      fold doc' in Hdoc.
      assert (Hstart : qs "#students" (hideError (document w)) = Some tbody)
        by (page_simpl; exact Htbody).
      rewrite (renderGroup_resolved _ _ _ _ _ _ _ _ _ Hgrade Hshown) in Hdoc.
      cbv zeta in Hdoc. rewrite Hstart in Hdoc.
      destruct Hwf as [Hkey _]. rewrite Hkey in Hdoc.
      rewrite Hdoc.
      destruct (qs "#back" (hideError (document w))); simpl caughtPage; split_and!.
      * page_simpl. rewrite Htbody. reflexivity.
      * page_simpl. destruct (qs "#group-title" (document w)); reflexivity.
      * page_simpl. destruct (qs "#error" (document w)); reflexivity.
      * page_simpl. rewrite Htbody. reflexivity.
      * page_simpl. destruct (qs "#group-title" (document w)); reflexivity.
      * page_simpl. destruct (qs "#error" (document w)); reflexivity.
    + intros Hempty.
      assert (Hdoc : doc' = showError "חסרים פרטים בכתובת" (hideError (document w))).
      { subst doc'. apply main_group_page_missing; [exact Hpage |].
        rewrite Hg, Hgr. exact Hempty. }
      rewrite Hdoc. split.
      * page_simpl. destruct (qs "#error" (document w)); reflexivity.
      * page_simpl. reflexivity.
Qed.

Lemma group_card_leads_to_its_table_witness :
  exists gradePage cards link children shown,
    renderGrade sampleEnv TtlCache sampleConfig sampleData "z" samplePage = Returns gradePage
    /\ kids <$> qs "#groups" gradePage = Some cards
    /\ cards !! 0 = Some (El "a" "groupCard" [("href", link)] children)
    /\ searchParams link = [("g", "z"); ("group", id sampleGroup)]
    /\ findGroup sampleGrade (id sampleGroup) = Some shown
    /\ (NoDup (id <$> orEmpty (groups sampleGrade)) -> shown = sampleGroup)
    /\ forall (w : Window) (tbody : Element),
         dataPage w = Some "group" ->
         search w = searchParams link ->
         qs "#students" (document w) = Some tbody ->
         let doc' := document (main TtlCache sampleEnv sampleClock
                                 (Ok (sampleConfig, sampleData)) w) in
         ("z" <> "" -> id sampleGroup <> "" ->
          kids <$> qs "#students" doc'
          = Some (imap studentRow (orEmpty (students shown)))
          /\ kids <$> qs "#group-title" doc'
             = (fun _ => textNodes (name shown)) <$> qs "#group-title" (document w)
          /\ kids <$> qs "#error" doc' = (fun _ => []) <$> qs "#error" (document w))
         /\ ("z" = "" \/ id sampleGroup = "" ->
             kids <$> qs "#error" doc'
             = (fun _ => [Text "חסרים פרטים בכתובת"]) <$> qs "#error" (document w)
             /\ qs "#students" doc' = qs "#students" (document w)).
Proof.
  apply (group_card_leads_to_its_table sampleEnv sampleClock TtlCache sampleConfig sampleData
           "z" samplePage sampleGrade blank 0 sampleGroup).
  - reflexivity.
  - reflexivity.
  - reflexivity.
  - split; [reflexivity |].
    intros grp Hgrp. apply list_elem_of_singleton in Hgrp. subst grp. reflexivity.
  - intros _. split; [reflexivity |].
    intros grp Hgrp. apply list_elem_of_singleton in Hgrp. subst grp. reflexivity.
  - reflexivity.
Defined.

(** The card of the example scenario, followed: its link opens the
    group page with the table of the three students.  The card of a
    group whose id is empty opens the group page with the
    missing-details message. *)
Example group_card_followed (v : Variant) :
  let followed data :=
    match kids <$> qs "#groups"
            (pageOf (renderGrade sampleEnv v sampleConfig data "z" samplePage)) with
    | Some [El _ _ [(_, link)] _] =>
        Some (link,
              document (main v sampleEnv sampleClock (Ok (sampleConfig, data))
                          (mkWindow samplePage [] (Some "group") (searchParams link)
                                    "http:" [] [] [])))
    | _ => None
    end in
  (exists doc',
      followed sampleData = Some ("group.html?g=z&group=z_a", doc')
      /\ length <$> (kids <$> qs "#students" doc') = Some 3
      /\ kids <$> qs "#group-title" doc' = Some [Text "ז הקבצה א"]
      /\ kids <$> qs "#error" doc' = Some [])
  /\ (exists doc',
         followed (mkData (Some [mkGrade "z" "שכבת ז" (Some [mkGroup "" "ז" "" (Some ["א"])])]))
         = Some ("group.html?g=z&group=", doc')
         /\ kids <$> qs "#students" doc' = Some []
         /\ kids <$> qs "#error" doc' = Some [Text "חסרים פרטים בכתובת"]).
Proof.
  intros followed. split.
  - exists (default samplePage (snd <$> followed sampleData)).
    destruct v; vm_compute; repeat split.
  - exists (default samplePage
              (snd <$> followed
                 (mkData (Some [mkGrade "z" "שכבת ז" (Some [mkGroup "" "ז" "" (Some ["א"])])])))).
    destruct v; vm_compute; repeat split.
Qed.

(** X23.  A document that is falsy is never served from the TTL cache.
    When a load fetched a pair in which a document is [null], [false],
    [0] or the empty string, the entry it stored is not used: the next
    load sends the two requests again, however soon it comes.  (The
    two-key variant has no such test.) *)
Theorem ttl_cache_skips_falsy_documents (env : LoadEnv) (clock clock' : Clock) (st : Storage)
        (cfg data : JSON) :
  accessible st = true ->
  (forall written, hasRoom st written = true) ->
  requests (TtlLoader.loadAll env clock st) <> [] ->
  result (TtlLoader.loadAll env clock st) = Ok (cfg, data) ->
  truthy cfg = false \/ truthy data = false ->
  JSON_stringify env
    (JObj (<["ts" := JNum (loadTime clock)]> (<["cfg" := cfg]> (<["data" := data]> ∅)))) <> "" ->
  JSON_parse env
    (JSON_stringify env
       (JObj (<["ts" := JNum (loadTime clock)]> (<["cfg" := cfg]> (<["data" := data]> ∅)))))
  = Some (JObj (<["ts" := JNum (loadTime clock)]> (<["cfg" := cfg]> (<["data" := data]> ∅)))) ->
  length (requests (TtlLoader.loadAll env clock' (storage (TtlLoader.loadAll env clock st)))) = 2.
Proof.
  intros Ha Hr Hsent Hok Hfalsy Hne Hparse.
  assert (Hmiss := ttl_sent_miss env clock st Hsent).
  destruct (ttl_loadAll_Ok env clock st cfg data Hmiss Hok)
    as (_ & _ & _ & _ & _ & _ & _ & _ & _ & _ & _ & _ & Hst).
  destruct (getSessionBust_frame env (bustTime clock) st) as (Ha1 & Hr1 & _).
  rewrite Ha in Ha1.
  rewrite ttl_miss_requests; [reflexivity |].
  rewrite Hst, (read_back_written env _ _ _ Ha1 ltac:(rewrite Hr1; apply Hr) Hne Hparse).
  unfold TtlLoader.cachedPair, numberProp, truthyProp, getProp. simpl.
  rewrite lookup_insert_eq.
  rewrite (lookup_insert_ne _ "ts" "cfg") by discriminate. rewrite lookup_insert_eq.
  rewrite !(lookup_insert_ne _ _ "data") by discriminate. rewrite lookup_insert_eq.
  destruct Hfalsy as [-> | ->]; [reflexivity |]. rewrite andb_false_r. reflexivity.
Qed.

(** A configuration document that is [null]. *)
Lemma ttl_cache_skips_falsy_documents_witness :
  let env := mkLoadEnv (fun text => if String.eqb text "{entry}"
                                    then Some (JObj (<["ts" := JNum 1000]>
                                                       (<["cfg" := JNull]>
                                                          (<["data" := sampleDataJSON]> ∅))))
                                    else if String.eqb text "{cfg}" then Some JNull
                                    else sampleParse text)
                       (fun _ => "{entry}")
                       (sampleNetwork (mkResponse true 200 "{data}")) string_of_Z in
  length (requests (TtlLoader.loadAll env (mkClock 1001 1001)
                      (storage (TtlLoader.loadAll env (mkClock 1000 1000) emptyStorage)))) = 2.
Proof.
  intros env.
  apply (ttl_cache_skips_falsy_documents env (mkClock 1000 1000) (mkClock 1001 1001)
           emptyStorage JNull sampleDataJSON); try reflexivity.
  - vm_compute. discriminate.
  - left. reflexivity.
  - vm_compute. discriminate.
Defined.

(** ** The label of the count line *)

(** [trim] as the platform does it: trimming what is trimmed changes
    nothing. *)
Lemma isWhiteSpace_nil : isWhiteSpace [] = false.
Proof. reflexivity. Qed.

Lemma wsLen_length (bs : list ascii) : wsLen bs <= length bs.
Proof.
  unfold wsLen. destruct bs as [|a [|b [|c bs]]]; cbn [take firstn length];
    rewrite ?isWhiteSpace_nil; repeat destruct (isWhiteSpace _); lia.
Qed.

Lemma wsLenRev_length (bs : list ascii) : wsLenRev bs <= length bs.
Proof.
  unfold wsLenRev. destruct bs as [|a [|b [|c bs]]]; cbn [take firstn length rev app];
    rewrite ?isWhiteSpace_nil; repeat destruct (isWhiteSpace _); lia.
Qed.

Lemma dropWhileLen_done (len : list ascii -> nat) (fuel : nat) (bs : list ascii) :
  (forall l, len l <= length l) ->
  length bs <= fuel ->
  len (dropWhileLen len fuel bs) = 0.
Proof.
  intros Hlen. revert bs. induction fuel as [|fuel IH]; intros bs Hfuel; simpl.
  - specialize (Hlen bs). lia.
  - destruct (len bs) as [|k] eqn:Hk; [exact Hk |].
    apply IH. rewrite length_drop. lia.
Qed.

Lemma dropWhileLen_fixed (len : list ascii -> nat) (fuel : nat) (bs : list ascii) :
  len bs = 0 -> dropWhileLen len fuel bs = bs.
Proof. intros H. destruct fuel; simpl; [| rewrite H]; reflexivity. Qed.

Lemma dropWhileLen_drop (len : list ascii -> nat) (fuel : nat) (bs : list ascii) :
  exists k, dropWhileLen len fuel bs = drop k bs.
Proof.
  revert bs. induction fuel as [|fuel IH]; intros bs; simpl.
  - exists 0. reflexivity.
  - destruct (len bs) as [|k]; [exists 0; reflexivity |].
    destruct (IH (drop (S k) bs)) as [j ->]. exists (S k + j).
    rewrite drop_drop. reflexivity.
Qed.

Lemma wsLen_zero (bs : list ascii) :
  wsLen bs = 0
  <-> isWhiteSpace (take 1 bs) = false /\ isWhiteSpace (take 2 bs) = false
      /\ isWhiteSpace (take 3 bs) = false.
Proof.
  unfold wsLen.
  destruct (isWhiteSpace (take 1 bs)), (isWhiteSpace (take 2 bs)), (isWhiteSpace (take 3 bs));
    split; try discriminate; try tauto; intros (? & ? & ?); discriminate.
Qed.

(** A prefix of a text that starts with no white space starts with
    none. *)
Lemma wsLen_take (m : nat) (bs : list ascii) : wsLen bs = 0 -> wsLen (take m bs) = 0.
Proof.
  rewrite !wsLen_zero. intros (H1 & H2 & H3).
  rewrite !take_take.
  destruct m as [|[|[|m]]]; cbn [Nat.min]; rewrite ?take_0, ?isWhiteSpace_nil; auto.
Qed.

Lemma trimStart_trimmed (bs : list ascii) : wsLen (trimStart bs) = 0.
Proof. apply dropWhileLen_done; [apply wsLen_length | reflexivity]. Qed.

Lemma trimEnd_prefix (bs : list ascii) : exists m, trimEnd bs = take m bs.
Proof.
  unfold trimEnd. destruct (dropWhileLen_drop wsLenRev (length bs) (rev bs)) as [k ->].
  exists (length bs - k). rewrite skipn_rev, rev_involutive. reflexivity.
Qed.

Lemma trimEnd_trimmed (bs : list ascii) : wsLenRev (rev (trimEnd bs)) = 0.
Proof.
  unfold trimEnd. rewrite rev_involutive.
  apply dropWhileLen_done; [apply wsLenRev_length | rewrite length_rev; reflexivity].
Qed.

Lemma jsTrim_idempotent (s : string) : jsTrim (jsTrim s) = jsTrim s.
Proof.
  unfold jsTrim. rewrite list_ascii_of_string_of_list_ascii.
  set (a := trimStart (list_ascii_of_string s)).
  assert (Hstart : trimStart (trimEnd a) = trimEnd a).
  { apply dropWhileLen_fixed. destruct (trimEnd_prefix a) as [m ->].
    apply wsLen_take, trimStart_trimmed. }
  rewrite Hstart. f_equal.
  unfold trimEnd at 1. rewrite (dropWhileLen_fixed _ _ _ (trimEnd_trimmed a)).
  apply rev_involutive.
Qed.

(** X24.  In the TTL variant the count line of a group card always names
    a label when the group has a name: for a trimming function that
    leaves trimmed text as it is, [withBPrefix] of
    [normalizeGroupLabelForCount] of a name that is not blank is the
    prefix letter followed by a text that is not empty, and for a blank
    name it is empty. *)
Theorem count_label_is_named (env : JsEnv) (name : string) :
  (forall s, trim env (trim env s) = trim env s) ->
  trim env "הקבצה מדעית" = "הקבצה מדעית" ->
  (trim env name <> "" ->
   exists rest, withBPrefix env (normalizeGroupLabelForCount env name) = "ב" +:+ rest
                /\ rest <> "")
  /\ (trim env name = "" -> withBPrefix env (normalizeGroupLabelForCount env name) = "").
Proof.
  intros Hidem Hconst.
  assert (Hprefix : forall x, trim env x = x -> x <> "" ->
                              exists rest, withBPrefix env x = "ב" +:+ rest /\ rest <> "").
  { intros x Hx Hne. unfold withBPrefix. rewrite Hx.
    destruct x as [|c x]; [congruence |].
    destruct (isAsciiAlnum c).
    - exists (" " +:+ String c x). split; [reflexivity | discriminate].
    - exists (String c x). split; [reflexivity | discriminate]. }
  split.
  - intros Hne. unfold normalizeGroupLabelForCount.
    destruct (String.eqb_spec (trim env name) ""); [contradiction |].
    destruct (matchGradeLetter env (trim env name)) as [m2|].
    + destruct (String.eqb_spec (trim env m2) "") as [_ | Hrest].
      * apply Hprefix; [apply Hidem | exact Hne].
      * destruct (String.eqb_spec (trim env m2) "מדעית").
        -- apply Hprefix; [exact Hconst | discriminate].
        -- apply Hprefix; [apply Hidem | exact Hrest].
    + apply Hprefix; [apply Hidem | exact Hne].
  - intros Hblank. unfold normalizeGroupLabelForCount. rewrite Hblank. simpl.
    unfold withBPrefix. rewrite <- Hblank at 1. rewrite Hidem, Hblank. reflexivity.
Qed.

Lemma count_label_is_named_witness :
  (trim sampleEnv "ז הקבצה א" <> "" ->
   exists rest, withBPrefix sampleEnv (normalizeGroupLabelForCount sampleEnv "ז הקבצה א")
                = "ב" +:+ rest
                /\ rest <> "")
  /\ (trim sampleEnv "ז הקבצה א" = "" ->
      withBPrefix sampleEnv (normalizeGroupLabelForCount sampleEnv "ז הקבצה א") = "").
Proof.
  apply (count_label_is_named sampleEnv "ז הקבצה א"); [apply jsTrim_idempotent | reflexivity].
Defined.

